(** * inflammation/models.py: the model layer of the inflammation study

    A shallow embedding of [src/inflammation/models.py] and the properties
    its specification states about it.

    - Inflammation values are IEEE 754 binary64 numbers (numpy's [float64]),
      taken from the Standard Library's [SpecFloat] with [prec = 53] and
      [emax = 1024]: signed zeros, infinities, NaN and correctly rounded
      arithmetic are all part of the model.
    - A numpy array is a shape together with a row-major buffer, a table in
      C order as [np.loadtxt] returns it; arrays live in a store indexed by
      object identity, so that allocation and in-place masked assignment are
      visible.
    - Sums are taken in numpy's order of additions, which depends on the
      axis: pairwise in blocks along a contiguous lane, entry by entry
      otherwise.
    - Python exceptions are values of [exn]; a function that can raise
      returns a [result].
    - A patient is a value where only the content of its list of
      observations matters, and an object holding the identity of that list
      where the sharing of the list matters. *)

From Stdlib Require Import ZArith Lia.
From Stdlib Require Import Floats.SpecFloat.
From stdpp Require Import base option list gmap strings.

Local Open Scope string_scope.
Local Open Scope Z_scope.

(** ** Exceptions *)

Inductive exn :=
| TypeError (msg : string)
| ValueError (msg : string)
| IndexError (msg : string)
| SystemError (msg : string).

Inductive result (A : Type) :=
| Ok (a : A)
| Raise (e : exn).
Arguments Ok {A} a.
Arguments Raise {A} e.

Definition result_bind {A B} (r : result A) (k : A -> result B) : result B :=
  match r with
  | Ok a => k a
  | Raise e => Raise e
  end.

Notation "'try' x := r 'in' k" := (result_bind r (fun x => k))
  (at level 10, x name, r at level 100, k at level 200, only parsing).

Fixpoint result_map {A B} (f : A -> result B) (l : list A) : result (list B) :=
  match l with
  | [] => Ok []
  | a :: l' =>
      try b := f a in
      try bs := result_map f l' in
      Ok (b :: bs)
  end.

(** ** float64 *)

Definition prec : Z := 53.
Definition emax : Z := 1024.

Abbreviation float := spec_float.

(** A [spec_float] is a float64 when its mantissa and exponent are in
    canonical form. *)
Definition float_valid (x : float) : bool := valid_binary prec emax x.

(** Conversion of a Python int, as numpy does when an int meets a float64. *)
Definition float_of_int (z : Z) : float := binary_normalize prec emax z 0 false.

Definition zero : float := S754_zero false.
Definition one : float := float_of_int 1.

Definition fadd : float -> float -> float := SFadd prec emax.
Definition fsub : float -> float -> float := SFsub prec emax.
Definition fmul : float -> float -> float := SFmul prec emax.
Definition fdiv : float -> float -> float := SFdiv prec emax.
Definition fsqrt : float -> float := SFsqrt prec emax.

(** [x < y], [x <= y], [x > y], [x >= y]: all false when an operand is NaN. *)
Definition flt (x y : float) : bool := SFltb x y.
Definition fle (x y : float) : bool := SFleb x y.
Definition fgt (x y : float) : bool := SFltb y x.
Definition fge (x y : float) : bool := SFleb y x.

Definition isnan (x : float) : bool :=
  match x with
  | S754_nan => true
  | _ => false
  end.

(** ** numpy *)

(** [np.fmax]: the larger operand, a NaN operand being ignored.  The sign of
    [fmax(+0, -0)] is left open by numpy; this model keeps the first one. *)
Definition np_fmax (a b : float) : float :=
  if fge a b || isnan b then a else b.

(** [np.maximum] and [np.minimum]: a NaN operand is propagated. *)
Definition np_maximum (a b : float) : float :=
  if fge a b || isnan a then a else b.

Definition np_minimum (a b : float) : float :=
  if fle a b || isnan a then a else b.

(** What a ufunc without identity raises on an axis of length 0. *)
Definition zero_size (ufunc : string) : exn :=
  ValueError ("zero-size array to reduction operation "
              +:+ ufunc +:+ " which has no identity").

(** [ufunc.reduce] over one lane for a ufunc without identity: the first
    entry starts the accumulation. *)
Definition reduce (ufunc : string) (f : float -> float -> float)
    (l : list float) : result float :=
  match l with
  | [] => Raise (zero_size ufunc)
  | x :: l' => Ok (fold_left f l' x)
  end.

(** [np.add] accumulated from its identity 0, entry by entry: the order of
    [np.add.reduce(a, axis=0)] on a table of several columns, which numpy
    goes through row by row, adding each row to the running sums. *)
Definition np_sum (l : list float) : float := fold_left fadd l zero.

(** The longest lane that numpy's pairwise summation adds up in one
    block. *)
Definition PW_BLOCKSIZE : nat := 128.

(** The eight running sums after [k] more blocks of eight entries, and the
    entries not yet read. *)
Fixpoint accumulate8 (k : nat) (r l : list float) : list float * list float :=
  match k with
  | O => (r, l)
  | S k' => accumulate8 k' (zip_with fadd r (take 8 l)) (drop 8 l)
  end.

(** The eight running sums added as a balanced tree. *)
Definition sum8 (r : list float) : float :=
  match r with
  | [r0; r1; r2; r3; r4; r5; r6; r7] =>
      fadd (fadd (fadd r0 r1) (fadd r2 r3)) (fadd (fadd r4 r5) (fadd r6 r7))
  | _ => fold_left fadd r zero
  end.

(** A lane of 8 to [PW_BLOCKSIZE] entries. *)
Definition pairwise_block (l : list float) : float :=
  let '(r, rest) := accumulate8 (length l / 8 - 1) (take 8 l) (drop 8 l) in
  fold_left fadd rest (sum8 r).

(** The blocked pairwise summation of numpy's inner loop for a reduction by
    [add] over one lane ([DOUBLE_pairwise_sum]): fewer than 8 entries are
    added in order; up to [PW_BLOCKSIZE] entries are added into eight
    running sums, entry [i] into sum [i mod 8], which are then added as a
    balanced tree before the entries left over; a longer lane is cut in two
    at a multiple of 8 and the sums of the parts are added.  The recursion
    halves the lane: its depth is below [fuel] whenever [fuel] is at least
    the length of the lane. *)
Fixpoint pairwise_sum_fuel (fuel : nat) (l : list float) : float :=
  let n := length l in
  if (n <? 8)%nat then fold_left fadd l zero
  else if (n <=? PW_BLOCKSIZE)%nat then pairwise_block l
  else
    match fuel with
    | O => pairwise_block l
    | S fuel' =>
        let n2 := (n / 2 - (n / 2) mod 8)%nat in
        fadd (pairwise_sum_fuel fuel' (take n2 l))
             (pairwise_sum_fuel fuel' (drop n2 l))
    end.

Definition pairwise_sum (l : list float) : float :=
  pairwise_sum_fuel (length l) l.

(** [np.add.reduce] over one contiguous lane: the identity 0, to which the
    inner loop adds the pairwise sum of the lane. *)
Definition add_reduce_lane (l : list float) : float :=
  fadd zero (pairwise_sum l).

Section Lane.

(** The order in which the entries of a lane are added up. *)
Variable add_reduce : list float -> float.

(** [np.mean] of one lane: the sum divided by the number of entries. *)
Definition np_mean_lane (l : list float) : float :=
  fdiv (add_reduce l) (float_of_int (Z.of_nat (length l))).

(** [np.std] of one lane: the root of the mean squared distance to the
    mean. *)
Definition np_std_lane (l : list float) : float :=
  let arrmean := fdiv (add_reduce l) (float_of_int (Z.of_nat (length l))) in
  let x := map (fun v => fsub v arrmean) l in
  let x := map (fun v => fmul v v) x in
  fsqrt (fdiv (add_reduce x) (float_of_int (Z.of_nat (length l)))).

End Lane.

Definition np_any (l : list bool) : bool := existsb id l.

Record ndarray := mk_ndarray { shape : list nat; buf : list float }.

Definition nrows (a : ndarray) : nat := nth 0 (shape a) 0%nat.
Definition ncols (a : ndarray) : nat := nth 1 (shape a) 0%nat.

Fixpoint chunks (n d : nat) (l : list float) : list (list float) :=
  match n with
  | O => []
  | S n' => take d l :: chunks n' d (drop d l)
  end.

(** The rows of a 2D array, in order. *)
Definition rows (a : ndarray) : list (list float) :=
  chunks (nrows a) (ncols a) (buf a).

Definition row (i : nat) (a : ndarray) : list float := nth i (rows a) [].

Definition column (d : nat) (a : ndarray) : list float :=
  map (fun r => nth d r S754_nan) (rows a).

(** [ufunc.reduce(a, axis=0)] for a ufunc without identity: one value per
    column; numpy refuses an axis of length 0 before it looks at the data. *)
Definition reduce_axis0 (ufunc : string) (f : float -> float -> float)
    (a : ndarray) : result ndarray :=
  if (nrows a =? 0)%nat then Raise (zero_size ufunc)
  else
    try out := result_map (fun d => reduce ufunc f (column d a))
                          (seq 0 (ncols a)) in
    Ok {| shape := [ncols a]; buf := out |}.

(** [ufunc.reduce(a, axis=1)] for a ufunc without identity: one value per
    row. *)
Definition reduce_axis1 (ufunc : string) (f : float -> float -> float)
    (a : ndarray) : result (list float) :=
  if (ncols a =? 0)%nat then Raise (zero_size ufunc)
  else result_map (reduce ufunc f) (rows a).

(** [np.add.reduce(a, axis=0)] on a table in C order, as [np.loadtxt] and
    numpy's arithmetic return it.  The only column of a table of one column
    is a contiguous lane, added up as [add_reduce_lane] does; a table of
    several columns is gone through row by row, as [np_sum] does for each
    column. *)
Definition add_reduce_axis0 (a : ndarray) : list float -> float :=
  if (ncols a =? 1)%nat then add_reduce_lane else np_sum.

(** A function of one column applied to every column: [np.mean] and
    [np.std] with [axis=0], which raise on no table; an empty column gives
    NaN, from 0 / 0. *)
Definition apply_axis0 (g : list float -> float) (a : ndarray) : ndarray :=
  {| shape := [ncols a]; buf := map (fun d => g (column d a)) (seq 0 (ncols a)) |}.

Definition np_nanmax_axis1 (a : ndarray) : result (list float) :=
  reduce_axis1 "fmax" np_fmax a.

(** [data / max_data[:, np.newaxis]]: every row divided by its own entry of
    [max_data]. *)
Definition true_divide_newaxis (a : ndarray) (max_data : list float) : ndarray :=
  {| shape := shape a;
     buf := concat (zip_with (fun r m => map (fun x => fdiv x m) r)
                             (rows a) max_data) |}.

(** [a[i]] on a 2D array, with Python's negative indices.  The message of
    numpy's [IndexError] also names the index and the size. *)
Definition getitem (a : ndarray) (i : Z) : result (list float) :=
  let n := Z.of_nat (nrows a) in
  if (i <? - n) || (n <=? i) then
    Raise (IndexError "index is out of bounds for axis 0")
  else Ok (row (Z.to_nat (if i <? 0 then i + n else i)) a).

(** ** The object store *)

Definition loc := positive.
Abbreviation heap := (gmap loc ndarray).

(** What a caller can pass as [data]: an ndarray object, known by its
    identity, or a value of any other type. *)
Inductive pyobj :=
| PyOther
| PyNdarray (l : loc).

(** Computations that read and update the store and may raise. *)
Definition M (A : Type) : Type := heap -> result A * heap.

Definition ret {A} (a : A) : M A := fun h => (Ok a, h).

Definition raise {A} (e : exn) : M A := fun h => (Raise e, h).

Definition bind {A B} (m : M A) (k : A -> M B) : M B :=
  fun h =>
    match m h with
    | (Ok a, h') => k a h'
    | (Raise e, h') => (Raise e, h')
    end.

Notation "'do' x <- m ; k" := (bind m (fun x => k))
  (at level 10, x name, m at level 100, k at level 200, only parsing).
Notation "'run' m ; k" := (bind m (fun _ => k))
  (at level 10, m at level 100, k at level 200, only parsing).

Definition lift {A} (r : result A) : M A := fun h => (r, h).

Definition load (l : loc) : M ndarray :=
  fun h =>
    match h !! l with
    | Some a => (Ok a, h)
    | None => (Raise (SystemError "dangling reference"), h)
    end.

Definition alloc (a : ndarray) : M loc :=
  fun h => let l := fresh (dom h) in (Ok l, <[l := a]> h).

(** [arr[mask] = v] where [mask] is computed from [arr] itself: the array
    object is updated in place. *)
Definition setitem_mask (l : loc) (mask : float -> bool) (v : float) : M unit :=
  fun h =>
    match h !! l with
    | Some a =>
        let m := map mask (buf a) in
        (Ok tt,
         <[l := {| shape := shape a;
                   buf := zip_with (fun b x => if b : bool then v else x) m (buf a) |}]> h)
    | None => (Raise (SystemError "dangling reference"), h)
    end.

(** ** Statistics *)

Definition daily_mean (data : ndarray) : ndarray :=
  apply_axis0 (np_mean_lane (add_reduce_axis0 data)) data.

Definition daily_max (data : ndarray) : result ndarray :=
  reduce_axis0 "maximum" np_maximum data.

Definition daily_min (data : ndarray) : result ndarray :=
  reduce_axis0 "minimum" np_minimum data.

Definition daily_std (data : ndarray) : ndarray :=
  apply_axis0 (np_std_lane (add_reduce_axis0 data)) data.

Definition patient_normalise (data : pyobj) : M loc :=
  match data with
  | PyOther => raise (TypeError "data input should be ndarray")
  | PyNdarray l =>
      do a <- load l;
      if negb (length (shape a) =? 2)%nat then
        raise (ValueError "inflammation array should be 2-dimensional")
      else if np_any (map (fun x => flt x zero) (buf a)) then
        raise (ValueError "Inflammation values should not be negative")
      else
        do max_data <- lift (np_nanmax_axis1 a);
        do normalised <- alloc (true_divide_newaxis a max_data);
        run setitem_mask normalised isnan zero;
        run setitem_mask normalised (fun x => flt x zero) zero;
        ret normalised
  end.

Definition count_above_threshold (a : Z) (b : bool) : Z :=
  if b then a + 1 else a.

Definition daily_above_threshold (patient_num : Z) (data : ndarray)
    (threshold : float) : result Z :=
  try r := getitem data patient_num in
  let above_threshold := map (fun x => fgt x threshold) r in
  Ok (fold_left count_above_threshold above_threshold 0).

(** ** Observation, Person, Patient, Doctor *)

Inductive pynum :=
| PyInt (z : Z)
| PyFloat (x : float).

Record Observation := mk_Observation { day : Z; value : pynum }.

Record Person := mk_Person { name : string }.

Record Patient := mk_Patient {
  Patient_person : Person;
  observations : list Observation
}.

Definition Patient_init (nm : string) (obs : option (list Observation)) : Patient :=
  {| Patient_person := {| name := nm |};
     observations := match obs with
                     | Some o => o
                     | None => []
                     end |}.

(** The method updates [self.observations] in place and returns the new
    observation: the updated patient is returned next to it. *)
Definition add_observation (self : Patient) (v : pynum) (d : option Z)
    : Patient * Observation :=
  let d :=
    match d with
    | Some d => d
    | None =>
        match last (observations self) with
        | Some o => day o + 1
        | None => 0
        end
    end in
  let new_observation := {| day := d; value := v |} in
  ({| Patient_person := Patient_person self;
      observations := observations self ++ [new_observation] |},
   new_observation).

Definition last_observation (self : Patient) : result Observation :=
  match last (observations self) with
  | Some o => Ok o
  | None => Raise (IndexError "list index out of range")
  end.

Record Doctor := mk_Doctor {
  Doctor_person : Person;
  patients : list Patient
}.

Definition Doctor_init (nm : string) : Doctor :=
  {| Doctor_person := {| name := nm |}; patients := [] |}.

(** The loop of [add_patient]: does some patient of the list carry the name? *)
Fixpoint name_known (ps : list Patient) (nm : string) : bool :=
  match ps with
  | [] => false
  | patient :: ps' =>
      if String.eqb (name (Patient_person patient)) nm then true
      else name_known ps' nm
  end.

Definition add_patient (self : Doctor) (new_patient : Patient) : Doctor :=
  if name_known (patients self) (name (Patient_person new_patient)) then self
  else {| Doctor_person := Doctor_person self;
          patients := patients self ++ [new_patient] |}.

(** ** Well-formed input *)

(** A table: a 2D array whose buffer has one entry per cell, every entry a
    float64. *)
Definition is_table (a : ndarray) : bool :=
  bool_decide (shape a = [nrows a; ncols a])
  && (length (buf a) =? nrows a * ncols a)%nat
  && forallb float_valid (buf a).

(** No entry is below zero: what [np.any(data < 0)] checks. *)
Definition non_negative (a : ndarray) : bool :=
  forallb (fun x => negb (flt x zero)) (buf a).

Definition is_zero (x : float) : bool :=
  match x with
  | S754_zero _ => true
  | _ => false
  end.

(** [0 <= y <= 1]; false for NaN. *)
Definition in_unit_interval (y : float) : bool := fle zero y && fle y one.

(** ** The specification's reading of [patient_normalise] *)

Definition nan_to_zero (x : float) : float := if isnan x then zero else x.

Definition clamp_negative (x : float) : float := if flt x zero then zero else x.

(** The larger of two numbers that are not NaN. *)
Definition float_max (a b : float) : float := if fle b a then a else b.

(** The row maximum ignoring NaN entries: the maximum of the entries that
    are numbers, NaN when there is none. *)
Definition row_max_ignoring_nan (r : list float) : float :=
  match List.filter (fun x => negb (isnan x)) r with
  | [] => S754_nan
  | x :: l => fold_left float_max l x
  end.

Definition normalise_row_spec (r : list float) : list float :=
  let m := row_max_ignoring_nan r in
  map (fun x => clamp_negative (nan_to_zero (fdiv x m))) r.

Definition patient_normalise_spec (a : ndarray) : ndarray :=
  {| shape := shape a; buf := concat (map normalise_row_spec (rows a)) |}.

(** ** The specification's reading of [daily_above_threshold] *)

Fixpoint count_strictly_greater (threshold : float) (r : list float) : Z :=
  match r with
  | [] => 0
  | x :: r' =>
      (if fgt x threshold then 1 else 0) + count_strictly_greater threshold r'
  end.

(** ** Ordering of observations *)

Definition days (p : Patient) : list Z := map day (observations p).

Fixpoint ordered_by_day (ds : list Z) : bool :=
  match ds with
  | [] => true
  | d1 :: tl =>
      match tl with
      | [] => true
      | d2 :: _ => (d1 <=? d2) && ordered_by_day tl
      end
  end.

(** Successive calls [add_observation(v)] without a day. *)
Definition add_observations (self : Patient) (vs : list pynum) : Patient :=
  fold_left (fun p v => fst (add_observation p v None)) vs self.

Definition patient_names (d : Doctor) : list string :=
  map (fun p => name (Patient_person p)) (patients d).

(** ** Auxiliary notions for the float64 proofs *)

Definition two52 : Z := 4503599627370496.
Definition two53 : Z := 9007199254740992.

(** The state of the shift loop of the rounding step after [k] shifts of
    the mantissa [m0]. *)
Definition shr_inv (m0 : Z) (exact0 : bool) (k : Z) (mrs : shr_record) : Prop :=
  shr_m mrs = m0 / 2 ^ k /\
  (exact0 = true -> m0 mod 2 ^ k = 0 -> shr_r mrs = false /\ shr_s mrs = false).

Definition is_exact (l : location) : bool :=
  match l with
  | loc_Exact => true
  | _ => false
  end.

(** An order-preserving image of the floats that are not NaN. *)
Definition fkey (x : float) : Z * Z * Z :=
  match x with
  | S754_nan => (0, 0, 0)
  | S754_zero _ => (0, 0, 0)
  | S754_infinity true => (-2, 0, 0)
  | S754_infinity false => (2, 0, 0)
  | S754_finite true m e => (-1, - e, - Z.pos m)
  | S754_finite false m e => (1, e, Z.pos m)
  end.

Definition lex_lt (a b : Z * Z * Z) : Prop :=
  a.1.1 < b.1.1 \/ a.1.1 = b.1.1 /\ (a.1.2 < b.1.2 \/ a.1.2 = b.1.2 /\ a.2 < b.2).

Definition lex_le (a b : Z * Z * Z) : Prop :=
  a.1.1 < b.1.1 \/ a.1.1 = b.1.1 /\ (a.1.2 < b.1.2 \/ a.1.2 = b.1.2 /\ a.2 <= b.2).

(** The value of a finite float64, scaled by [2 ^ 1074] into an integer. *)
Definition fval (m : positive) (e : Z) : Z := Z.pos m * 2 ^ (e + 1074).

(** A whole number [0 <= z < 2 ^ 53] as a float64 in canonical form. *)
Definition int_float (z : Z) : float :=
  match z with
  | Z.pos _ =>
      S754_finite false (Z.to_pos (z * 2 ^ (53 - Zdigits2 z))) (Zdigits2 z - 53)
  | _ => zero
  end.

Definition zsum (zs : list Z) : Z := fold_right Z.add 0 zs.

(** A column of whole numbers [zs], none negative, few enough and small
    enough for their total to be a float64 without rounding. *)
Definition whole_numbers (c : list float) (zs : list Z) : Prop :=
  c = map float_of_int zs /\ Forall (fun z => 0 <= z) zs /\
  zsum zs < 2 ^ 53 /\ Z.of_nat (length zs) < 2 ^ 53.

(** ** Sample data *)

Definition table_of (nr nc : nat) (cells : list Z) : ndarray :=
  {| shape := [nr; nc]; buf := map float_of_int cells |}.

(** [[1, 2], [3, 4], [5, 1]] *)
Definition three_patients : ndarray := table_of 3 2 [1; 2; 3; 4; 5; 1].

(** [[1, 2], [3, 4]] *)
Definition two_patients : ndarray := table_of 2 2 [1; 2; 3; 4].

(** [[0, 0], [3, 4]] *)
Definition zero_row_table : ndarray := table_of 2 2 [0; 0; 3; 4].

(** [[1, -2]] *)
Definition negative_table : ndarray := table_of 1 2 [1; -2].

(** [[1, 2, 3, 4, 5]] *)
Definition five_days : ndarray := table_of 1 5 [1; 2; 3; 4; 5].

(** The float64 nearest to 0.1. *)
Definition tenth : float := fdiv (float_of_int 1) (float_of_int 10).

(** [[0.1], [0.1], [0.1]] *)
Definition three_tenths : ndarray :=
  {| shape := [3%nat; 1%nat]; buf := [tenth; tenth; tenth] |}.

(** A store with one array object. *)
Definition store_of (a : ndarray) : heap := <[1%positive := a]> ∅.

Definition alice : Patient := Patient_init "Alice" None.
Definition bob : Patient := Patient_init "Bob" None.
Definition bob_again : Patient :=
  Patient_init "Bob" (Some [{| day := 0; value := PyInt 3 |}]).

(** ** Statistics along the time axis *)

Section Axis1.

(** [np.add.reduce] over one row.  A row of a table in C order is a
    contiguous lane, added up as [add_reduce_lane] does; in another memory
    layout numpy goes through the entries of a row in another order: the
    order of the additions is a parameter here. *)
Variable add_reduce : list float -> float.

(** A function of one row applied to every row: [np.std] with [axis=1]. *)
Definition apply_axis1 (g : list float -> float) (a : ndarray) : ndarray :=
  {| shape := [nrows a]; buf := map g (rows a) |}.

Definition patient_std_dev (data : ndarray) : ndarray :=
  apply_axis1 (np_std_lane add_reduce) data.

End Axis1.

(** ** Patients as objects *)

(** The list of observations of a patient is an object of its own, known by
    its identity: the constructor keeps the list it is given, and
    [add_observation] appends to it in place. *)
Abbreviation obs_heap := (gmap loc (list Observation)).

Record PatientObj := mk_PatientObj {
  PatientObj_name : string;
  PatientObj_observations : loc
}.

(** [Patient(name, observations)]: [self.observations] is first bound to a
    new empty list, then to the list passed by the caller, if any. *)
Definition Patient_new (nm : string) (obs : option loc) (h : obs_heap)
    : PatientObj * obs_heap :=
  let l := fresh (dom h) in
  let h := <[l := []]> h in
  ({| PatientObj_name := nm;
      PatientObj_observations := match obs with
                                 | Some o => o
                                 | None => l
                                 end |}, h).

Definition PatientObj_add_observation (self : PatientObj) (v : pynum)
    (d : option Z) (h : obs_heap) : result Observation * obs_heap :=
  match h !! PatientObj_observations self with
  | Some os =>
      let d :=
        match d with
        | Some d => d
        | None =>
            match last os with
            | Some o => day o + 1
            | None => 0
            end
        end in
      let new_observation := {| day := d; value := v |} in
      (Ok new_observation,
       <[PatientObj_observations self := (os ++ [new_observation])%list]> h)
  | None => (Raise (SystemError "dangling reference"), h)
  end.

(** The patient as a value: its name and the present content of its list. *)
Definition PatientObj_read (self : PatientObj) (h : obs_heap) : option Patient :=
  match h !! PatientObj_observations self with
  | Some os => Some {| Patient_person := {| name := PatientObj_name self |};
                       observations := os |}
  | None => None
  end.

(** ** Registering several patients *)

(** Successive calls of [add_patient]. *)
Definition add_patients (self : Doctor) (ps : list Patient) : Doctor :=
  fold_left add_patient ps self.

(** The first patient of every name, in the order of the list. *)
Fixpoint first_of_each_name (ps : list Patient) : list Patient :=
  match ps with
  | [] => []
  | p :: ps' =>
      p :: List.filter
             (fun q => negb (String.eqb (name (Patient_person p))
                                        (name (Patient_person q))))
             (first_of_each_name ps')
  end.

(** ** Finite entries *)

Definition is_infinity (x : float) : bool :=
  match x with
  | S754_infinity _ => true
  | _ => false
  end.

(** No entry is infinite. *)
Definition no_infinity (a : ndarray) : bool :=
  forallb (fun x => negb (is_infinity x)) (buf a).

(** ** More sample data *)

(** [[1, nan], [3, 4]] *)
Definition nan_table : ndarray :=
  {| shape := [2%nat; 2%nat];
     buf := [float_of_int 1; S754_nan; float_of_int 3; float_of_int 4] |}.

(** [[1, 0], [3, 4]] *)
Definition nan_table_zeroed : ndarray :=
  {| shape := shape nan_table; buf := map nan_to_zero (buf nan_table) |}.

(** An array of shape (0, 3). *)
Definition no_patients : ndarray := table_of 0 3 [].

(** [[4, 1], [4, 2], [4, 3]] *)
Definition constant_day : ndarray := table_of 3 2 [4; 1; 4; 2; 4; 3].

(** [[inf, 1]] *)
Definition infinite_row : ndarray :=
  {| shape := [1%nat; 2%nat]; buf := [S754_infinity false; float_of_int 1] |}.

(** Eight patients with the value 0.1 on the only day, and one patient with
    the value 0.1 on each of eight days. *)
Definition eight_tenths : ndarray :=
  {| shape := [8%nat; 1%nat]; buf := repeat tenth 8 |}.

Definition eight_days : ndarray :=
  {| shape := [1%nat; 8%nat]; buf := repeat tenth 8 |}.

(** A store with one empty list of observations, and a patient object that
    holds it. *)
Definition one_list : obs_heap := <[1%positive := []]> ∅.

Definition alice_obj : PatientObj :=
  {| PatientObj_name := "Alice"; PatientObj_observations := 1%positive |}.

(** * Properties *)

(** Decides the integer comparisons of the goal by cases. *)
Ltac case_cmp :=
  repeat match goal with
         | |- context [Z.ltb ?a ?b] => destruct (Z.ltb_spec a b); try lia
         | |- context [Z.leb ?a ?b] => destruct (Z.leb_spec a b); try lia
         end.

(** ** float64: comparison is a total preorder away from NaN *)

Lemma fle_key x y :
  isnan x = false -> isnan y = false ->
  fle x y = true <-> lex_le (fkey x) (fkey y).
Proof.
  unfold fle, SFleb, lex_le.
  destruct x as [sx | sx | | sx mx ex], y as [sy | sy | | sy my ey];
    try discriminate; intros _ _.
  all: try (destruct sx); try (destruct sy); cbn -[Z.lt Z.le]; try (split; [lia | congruence || lia]).
  all: change (PosDef.Pos.compare_cont Eq mx my) with (mx ?= my)%positive.
  all: destruct (Z.compare_spec ex ey); destruct (Pos.compare_spec mx my); cbn -[Z.lt Z.le];
    split; intros; try discriminate; try reflexivity; lia.
Qed.

Lemma flt_key x y :
  isnan x = false -> isnan y = false ->
  flt x y = true <-> lex_lt (fkey x) (fkey y).
Proof.
  unfold flt, SFltb, lex_lt.
  destruct x as [sx | sx | | sx mx ex], y as [sy | sy | | sy my ey];
    try discriminate; intros _ _.
  all: try (destruct sx); try (destruct sy); cbn -[Z.lt Z.le]; try (split; [lia | congruence || lia]).
  all: change (PosDef.Pos.compare_cont Eq mx my) with (mx ?= my)%positive.
  all: destruct (Z.compare_spec ex ey); destruct (Pos.compare_spec mx my); cbn -[Z.lt Z.le];
    split; intros; try discriminate; try reflexivity; lia.
Qed.

Lemma fle_nan_r x : fle x S754_nan = false.
Proof. destruct x; reflexivity. Qed.

Lemma fle_not_nan x y : fle x y = true -> isnan x = false /\ isnan y = false.
Proof. destruct x, y; cbn; intros; try discriminate; auto. Qed.

Lemma flt_not_nan x y : flt x y = true -> isnan x = false /\ isnan y = false.
Proof. destruct x, y; cbn; intros; try discriminate; auto. Qed.

Lemma fle_refl x : isnan x = false -> fle x x = true.
Proof. intros Hx. apply fle_key; auto. unfold lex_le. lia. Qed.

Lemma fle_trans x y z : fle x y = true -> fle y z = true -> fle x z = true.
Proof.
  intros Hxy Hyz.
  destruct (fle_not_nan _ _ Hxy) as [Hx Hy]. destruct (fle_not_nan _ _ Hyz) as [_ Hz].
  apply fle_key in Hxy; auto. apply fle_key in Hyz; auto. apply fle_key; auto.
  unfold lex_le in *. lia.
Qed.

Lemma fle_total x y :
  isnan x = false -> isnan y = false -> fle x y = false -> fle y x = true.
Proof.
  intros Hx Hy Hxy. apply fle_key; auto.
  destruct (fle y x) eqn:Hyx.
  - apply fle_key in Hyx; auto.
  - assert (~ lex_le (fkey x) (fkey y)) by (rewrite <- fle_key by auto; congruence).
    unfold lex_le in *. lia.
Qed.

Lemma flt_fle_false x y : fle x y = true -> flt y x = false.
Proof.
  intros Hxy. destruct (fle_not_nan _ _ Hxy) as [Hx Hy].
  apply fle_key in Hxy; auto.
  destruct (flt y x) eqn:Hyx; [| reflexivity].
  apply flt_key in Hyx; auto. unfold lex_le, lex_lt in *. lia.
Qed.

Lemma flt_fle_trans x y z : flt x y = true -> fle y z = true -> flt x z = true.
Proof.
  intros Hxy Hyz.
  destruct (flt_not_nan _ _ Hxy) as [Hx Hy]. destruct (fle_not_nan _ _ Hyz) as [_ Hz].
  apply flt_key in Hxy; auto. apply fle_key in Hyz; auto. apply flt_key; auto.
  unfold lex_le, lex_lt in *. lia.
Qed.

(** ** float64: digits, shifts and canonical form *)

Lemma fexp_eq k : fexp prec emax k = Z.max (k - 53) (-1074).
Proof. reflexivity. Qed.

Lemma digits2_pos_bounds (m : positive) :
  2 ^ (Z.pos (digits2_pos m) - 1) <= Z.pos m < 2 ^ Z.pos (digits2_pos m).
Proof.
  induction m as [m IH | m IH |]; cbn [digits2_pos].
  - rewrite Pos2Z.inj_succ.
    replace (Z.succ (Z.pos (digits2_pos m)) - 1) with (Z.succ (Z.pos (digits2_pos m) - 1)) by lia.
    rewrite !Z.pow_succ_r by lia. lia.
  - rewrite Pos2Z.inj_succ.
    replace (Z.succ (Z.pos (digits2_pos m)) - 1) with (Z.succ (Z.pos (digits2_pos m) - 1)) by lia.
    rewrite !Z.pow_succ_r by lia. lia.
  - cbn. lia.
Qed.

Section IterPos.
Context {A : Type} (f : A -> A) (P : Z -> A -> Prop).
Hypothesis step : forall k x, 0 <= k -> P k x -> P (k + 1) (f x).

Lemma iter_pos_invariant (p : positive) :
  forall k x, 0 <= k -> P k x -> P (k + Z.pos p) (SpecFloat.iter_pos f p x).
Proof.
  induction p as [p IH | p IH |]; intros k x Hk HP; cbn [SpecFloat.iter_pos].
  - replace (k + Z.pos p~1) with (k + 1 + Z.pos p + Z.pos p) by lia.
    apply IH; [lia |]. apply IH; [lia |]. now apply step.
  - replace (k + Z.pos p~0) with (k + Z.pos p + Z.pos p) by lia.
    apply IH; [lia |]. now apply IH.
  - now apply step.
Qed.
End IterPos.

Lemma shr_1_m mrs : 0 <= shr_m mrs -> shr_m (shr_1 mrs) = shr_m mrs / 2.
Proof.
  destruct mrs as [m r s]; cbn [shr_m]. intros Hm.
  destruct m as [| [p | p |] | p]; cbn [shr_1 shr_m]; try lia.
  - reflexivity.
  - apply Z.div_unique with 1; lia.
  - apply Z.div_unique with 0; lia.
  - reflexivity.
Qed.

Lemma shr_1_r mrs : 0 <= shr_m mrs -> shr_r (shr_1 mrs) = Z.odd (shr_m mrs).
Proof.
  destruct mrs as [m r s]; cbn [shr_m]. intros Hm.
  destruct m as [| [p | p |] | p]; cbn [shr_1 shr_r]; try lia; reflexivity.
Qed.

Lemma shr_1_s mrs : shr_s (shr_1 mrs) = shr_r mrs || shr_s mrs.
Proof.
  destruct mrs as [m r s].
  destruct m as [| [p | p |] | [p | p |]]; reflexivity.
Qed.

Lemma shr_inv_step m0 ex0 k mrs :
  0 <= m0 -> 0 <= k -> shr_inv m0 ex0 k mrs -> shr_inv m0 ex0 (k + 1) (shr_1 mrs).
Proof.
  intros Hm0 Hk [Hm Hex].
  assert (Hpow : 0 < 2 ^ k) by (apply Z.pow_pos_nonneg; lia).
  assert (Hmk : 0 <= shr_m mrs) by (rewrite Hm; apply Z.div_pos; lia).
  assert (Hp1 : 2 ^ (k + 1) = 2 ^ k * 2) by (rewrite Z.pow_add_r by lia; reflexivity).
  split.
  - rewrite shr_1_m by assumption. rewrite Hm, Hp1, Z.div_div by lia. reflexivity.
  - intros He Hmod. rewrite shr_1_r, shr_1_s by assumption.
    rewrite Hp1 in Hmod.
    apply Z.mod_divide in Hmod; [| lia]. destruct Hmod as [c Hc].
    assert (Hmod' : m0 mod 2 ^ k = 0).
    { apply Z.mod_divide; [lia |]. exists (c * 2). lia. }
    destruct (Hex He Hmod') as [-> ->]. split; [| reflexivity].
    rewrite Hm. replace (m0 / 2 ^ k) with (c * 2).
    + rewrite Z.odd_mul. cbn. apply andb_false_r.
    + apply Z.div_unique with 0; lia.
Qed.

Lemma shr_fexp_spec m e l :
  0 <= m ->
  exists mrs,
    shr_fexp prec emax m e l = (mrs, e + Z.max 0 (fexp prec emax (Zdigits2 m + e) - e)) /\
    shr_m mrs = m / 2 ^ (Z.max 0 (fexp prec emax (Zdigits2 m + e) - e)) /\
    (l = loc_Exact ->
     m mod 2 ^ (Z.max 0 (fexp prec emax (Zdigits2 m + e) - e)) = 0 ->
     loc_of_shr_record mrs = loc_Exact).
Proof.
  intros Hm. unfold shr_fexp, shr.
  set (n := fexp prec emax (Zdigits2 m + e) - e).
  assert (Hinit : shr_inv m (is_exact l) 0 (shr_record_of_loc m l)).
  { split.
    - destruct l as [| []]; cbn; now rewrite Z.div_1_r.
    - destruct l as [| []]; cbn; intros; try discriminate; auto. }
  destruct n as [| p | p] eqn:Hn.
  - exists (shr_record_of_loc m l). rewrite Z.max_l by lia.
    split; [f_equal; lia |]. destruct Hinit as [H1 H2]. split; [exact H1 |].
    intros -> Hmod. reflexivity.
  - pose proof (iter_pos_invariant shr_1 (shr_inv m (is_exact l))
                  (fun k x Hk => shr_inv_step m (is_exact l) k x Hm Hk) p 0
                  (shr_record_of_loc m l) (Z.le_refl 0) Hinit) as [H1 H2].
    rewrite Z.add_0_l in H1, H2.
    exists (SpecFloat.iter_pos shr_1 p (shr_record_of_loc m l)). rewrite Z.max_r by lia.
    split; [reflexivity |]. split; [exact H1 |].
    intros -> Hmod. destruct (H2 eq_refl Hmod) as [Hr Hs].
    destruct (SpecFloat.iter_pos shr_1 p _) as [m' r' s']. cbn in Hr, Hs. subst. reflexivity.
  - exists (shr_record_of_loc m l). rewrite Z.max_l by lia.
    split; [f_equal; lia |]. destruct Hinit as [H1 H2]. split; [exact H1 |].
    intros -> Hmod. reflexivity.
Qed.

Lemma Zdigits2_bounds m :
  0 < m -> 2 ^ (Zdigits2 m - 1) <= m < 2 ^ Zdigits2 m.
Proof.
  destruct m as [| p | p]; try lia. intros _. apply digits2_pos_bounds.
Qed.

Lemma Zdigits2_pos m : 0 < m -> 0 < Zdigits2 m.
Proof. destruct m; cbn; lia. Qed.

Lemma round_nearest_even_cases m l :
  (round_nearest_even m l = m \/ round_nearest_even m l = m + 1) /\
  (l = loc_Exact -> round_nearest_even m l = m).
Proof.
  destruct l as [| []]; cbn; try destruct (Z.even m);
    (split; [tauto | intros H; try discriminate H; reflexivity]).
Qed.

Lemma one_eq : one = S754_finite false 4503599627370496 (-52).
Proof. reflexivity. Qed.

Lemma two52_eq : two52 = 2 ^ 52. Proof. reflexivity. Qed.
Lemma two53_eq : two53 = 2 ^ 53. Proof. reflexivity. Qed.
Lemma two53_double : two53 = 2 * two52. Proof. reflexivity. Qed.

Lemma Zdigits2_le_53 m : 0 < m < two53 -> Zdigits2 m <= 53.
Proof.
  intros Hm. destruct (Zdigits2_bounds m) as [Hd1 _]; [lia |].
  destruct (Z_le_gt_dec (Zdigits2 m) 53) as [| Hgt]; [assumption |].
  exfalso. assert (2 ^ 53 <= 2 ^ (Zdigits2 m - 1)) by (apply Z.pow_le_mono_r; lia).
  rewrite two53_eq in Hm. lia.
Qed.

Lemma SFleb_finite_pos (m1 m2 : positive) (e1 e2 : Z) :
  e1 < e2 \/ e1 = e2 /\ Z.pos m1 <= Z.pos m2 ->
  SFleb (S754_finite false m1 e1) (S754_finite false m2 e2) = true.
Proof.
  intros H. unfold SFleb, SFcompare.
  destruct (Z.compare_spec e1 e2) as [Heq | Hlt | Hgt]; [| reflexivity | lia].
  destruct H as [H | [_ H]]; [lia |].
  pose proof (Pos.compare_spec m1 m2) as Hc. unfold Pos.compare in Hc.
  destruct Hc; [reflexivity | reflexivity | lia].
Qed.

Lemma bounded_inv m e :
  bounded prec emax m e = true ->
  e = Z.max (Z.pos (digits2_pos m) + e - 53) (-1074) /\ e <= 971.
Proof.
  unfold bounded, canonical_mantissa. rewrite fexp_eq.
  intros H. apply andb_prop in H as [H1 H2].
  apply Z.eqb_eq in H1. apply Z.leb_le in H2. unfold emax, prec in H2. lia.
Qed.

Lemma SFleb_finite_pos_inv (m1 m2 : positive) (e1 e2 : Z) :
  SFleb (S754_finite false m1 e1) (S754_finite false m2 e2) = true ->
  e1 < e2 \/ e1 = e2 /\ Z.pos m1 <= Z.pos m2.
Proof.
  unfold SFleb, SFcompare.
  destruct (Z.compare_spec e1 e2) as [Heq | Hlt | Hgt]; [| lia | discriminate].
  pose proof (Pos.compare_spec m1 m2) as Hc. unfold Pos.compare in Hc.
  destruct Hc; intros Hle; try discriminate Hle; lia.
Qed.

Lemma pow2_lt_inv a b : 0 <= b -> 2 ^ a < 2 ^ b -> a < b.
Proof.
  intros Hb H. destruct (Z_lt_ge_dec a b) as [| Hge]; [assumption |].
  exfalso. assert (2 ^ b <= 2 ^ a) by (apply Z.pow_le_mono_r; lia). lia.
Qed.

(** Canonical positive floats compare like the numbers they denote. *)
Lemma finite_le_value mx ex my ey :
  bounded prec emax mx ex = true -> bounded prec emax my ey = true ->
  ex < ey \/ ex = ey /\ Z.pos mx <= Z.pos my ->
  Z.pos mx * 2 ^ (ex + 1074) <= Z.pos my * 2 ^ (ey + 1074) /\
  Z.pos (digits2_pos mx) + ex <= Z.pos (digits2_pos my) + ey.
Proof.
  intros Hx Hy Hle.
  apply bounded_inv in Hx as [Hx _]. apply bounded_inv in Hy as [Hy _].
  pose proof (digits2_pos_bounds mx) as [Hx1 Hx2].
  pose proof (digits2_pos_bounds my) as [Hy1 Hy2].
  destruct Hle as [Hlt | [-> Hm]].
  - assert (Hdy : Z.pos (digits2_pos my) = 53) by lia.
    assert (Hdx : Z.pos (digits2_pos mx) <= 53) by lia.
    split; [| lia].
    rewrite Hdy in Hy1. change (2 ^ (53 - 1)) with two52 in Hy1.
    assert (Hmx : Z.pos mx < two53).
    { eapply Z.lt_le_trans; [exact Hx2 |]. rewrite two53_eq.
      apply Z.pow_le_mono_r; lia. }
    assert (Hp : 2 ^ (ey + 1074) = 2 ^ (ey - ex - 1) * (2 * 2 ^ (ex + 1074))).
    { rewrite <- Z.pow_succ_r, <- Z.pow_add_r by lia. f_equal. lia. }
    assert (0 < 2 ^ (ex + 1074)) by (apply Z.pow_pos_nonneg; lia).
    assert (0 < 2 ^ (ey - ex - 1)) by (apply Z.pow_pos_nonneg; lia).
    rewrite Hp, two53_double in *.
    apply Z.le_trans with (2 * two52 * 2 ^ (ex + 1074)); [nia |].
    apply Z.le_trans with (Z.pos my * (2 * 2 ^ (ex + 1074))); [nia |].
    apply Z.mul_le_mono_nonneg_l; [lia |]. nia.
  - split.
    + apply Z.mul_le_mono_nonneg_r; [| assumption].
      apply Z.pow_nonneg. lia.
    + assert (Z.pos (digits2_pos mx) - 1 < Z.pos (digits2_pos my)); [| lia].
      apply pow2_lt_inv; lia.
Qed.

Lemma new_location_exact n : new_location n 0 = loc_Exact.
Proof. unfold new_location. destruct (Z.even n); reflexivity. Qed.

Lemma div_eucl_div_mod a b : Z.div_eucl a b = (a / b, a mod b).
Proof. unfold Z.div, Z.modulo. destruct (Z.div_eucl a b); reflexivity. Qed.

(** ** float64: the rounding step, stage by stage *)

(** [binary_round_aux] on a non-negative mantissa [q]: [k] low bits are
    shifted out, the remaining mantissa [m1] is rounded to [m2], and a carry
    into bit 53 is renormalised. *)
Lemma binary_round_aux_stages q e l :
  0 <= q ->
  exists k m2 m3 e3,
    k = Z.max 0 (Z.max (Zdigits2 q + e - 53) (-1074) - e) /\
    (m2 = q / 2 ^ k \/ m2 = q / 2 ^ k + 1) /\
    (l = loc_Exact -> q mod 2 ^ k = 0 -> m2 = q / 2 ^ k) /\
    q / 2 ^ k < two53 /\ -1074 <= e + k /\
    (m3 = m2 /\ e3 = e + k /\ m2 < two53 \/
     m3 = two52 /\ e3 = e + k + 1 /\ m2 = two53) /\
    binary_round_aux prec emax false q e l =
      match m3 with
      | 0 => S754_zero false
      | Z.pos p => if e3 <=? 971 then S754_finite false p e3 else S754_infinity false
      | Z.neg _ => S754_nan
      end.
Proof.
  intros Hq. unfold binary_round_aux.
  destruct (shr_fexp_spec q e l Hq) as (mrs1 & E1 & Hm1 & Hex1).
  rewrite fexp_eq in E1, Hm1, Hex1. rewrite E1.
  remember (Z.max 0 (Z.max (Zdigits2 q + e - 53) (-1074) - e)) as k eqn:Hk.
  assert (Hk0 : 0 <= k) by lia.
  assert (Hpk : 0 < 2 ^ k) by (apply Z.pow_pos_nonneg; lia).
  assert (Hm1b : 0 <= q / 2 ^ k < two53).
  { split; [apply Z.div_pos; lia |].
    apply Z.div_lt_upper_bound; [lia |].
    destruct (Z.eq_dec q 0) as [-> | Hq0]; [unfold two53; lia |].
    destruct (Zdigits2_bounds q) as [_ Hd2]; [lia |].
    rewrite two53_eq, Z.mul_comm, <- Z.pow_add_r by lia.
    eapply Z.lt_le_trans; [exact Hd2 |].
    apply Z.pow_le_mono_r; lia. }
  destruct (round_nearest_even_cases (shr_m mrs1) (loc_of_shr_record mrs1)) as [Hr1 Hr2].
  remember (round_nearest_even (shr_m mrs1) (loc_of_shr_record mrs1)) as m2 eqn:Hm2.
  rewrite Hm1 in Hr1, Hr2.
  assert (Hm2b : 0 <= m2 <= two53) by lia.
  destruct (shr_fexp_spec m2 (e + k) loc_Exact) as (mrs2 & E2 & Hm3 & _); [lia |].
  rewrite fexp_eq in E2, Hm3. rewrite E2.
  remember (Z.max 0 (Z.max (Zdigits2 m2 + (e + k) - 53) (-1074) - (e + k))) as k2 eqn:Hk2.
  exists k, m2, (shr_m mrs2), (e + k + k2).
  split; [reflexivity |]. split; [exact Hr1 |].
  split; [intros Hl Hmod; apply Hr2; now apply Hex1 |].
  split; [lia |]. split; [lia |].
  split; [| reflexivity].
  destruct (Z.eq_dec m2 two53) as [Heq | Hne].
  - right. rewrite Heq in Hk2. change (Zdigits2 two53) with 54 in Hk2.
    assert (k2 = 1) by lia. clear Hk2. subst k2.
    rewrite Hm3, Heq. change (two53 / 2 ^ 1) with two52. lia.
  - left. assert (k2 = 0).
    { destruct (Z.eq_dec m2 0) as [Hz | Hnz].
      - rewrite Hz in Hk2. cbn [Zdigits2] in Hk2. lia.
      - pose proof (Zdigits2_le_53 m2 ltac:(lia)). lia. }
    clear Hk2. subst k2. rewrite Hm3, Z.div_1_r. lia.
Qed.

Lemma bounded_digits mc ec :
  bounded prec emax mc ec = true ->
  -1074 <= ec <= 971 /\ Z.pos mc < two53 /\ (-1074 < ec -> two52 <= Z.pos mc).
Proof.
  intros Hc. apply bounded_inv in Hc as [Hc1 Hc2].
  pose proof (digits2_pos_bounds mc) as [Hd1 Hd2].
  split; [lia |]. split.
  - eapply Z.lt_le_trans; [exact Hd2 |]. rewrite two53_eq.
    apply Z.pow_le_mono_r; lia.
  - intros He. replace (Z.pos (digits2_pos mc) - 1) with 52 in Hd1 by lia.
    now rewrite two52_eq.
Qed.

(** Rounding does not cross a float64 above the exact value. *)
Lemma binary_round_aux_le q e l mc ec :
  0 <= q -> bounded prec emax mc ec = true -> e <= ec ->
  q <= Z.pos mc * 2 ^ (ec - e) ->
  (q = Z.pos mc * 2 ^ (ec - e) -> l = loc_Exact) ->
  fle zero (binary_round_aux prec emax false q e l) = true /\
  fle (binary_round_aux prec emax false q e l) (S754_finite false mc ec) = true.
Proof.
  intros Hq Hc He Hle Hexact.
  destruct (bounded_digits mc ec Hc) as (Hec & Hmc & _).
  destruct (binary_round_aux_stages q e l Hq)
    as (k & m2 & m3 & e3 & Hk & Hm2 & Hm2x & Hm1 & He1 & Hfin & ->).
  assert (Hk0 : 0 <= k) by lia.
  assert (Hpk : 0 < 2 ^ k) by (apply Z.pow_pos_nonneg; lia).
  assert (He1c : e + k <= ec).
  { destruct (Z.eq_dec q 0) as [-> | Hq0]; [cbn [Zdigits2] in Hk; lia |].
    destruct (Zdigits2_bounds q) as [Hd1 _]; [lia |].
    assert (Zdigits2 q - 1 < 53 + (ec - e)); [| lia].
    apply pow2_lt_inv; [lia |].
    eapply Z.le_lt_trans; [exact Hd1 |]. eapply Z.le_lt_trans; [exact Hle |].
    rewrite Z.pow_add_r, <- two53_eq by lia.
    apply Z.mul_lt_mono_pos_r; [apply Z.pow_pos_nonneg; lia | exact Hmc]. }
  assert (Hsplit : Z.pos mc * 2 ^ (ec - e) = Z.pos mc * 2 ^ (ec - (e + k)) * 2 ^ k).
  { rewrite <- Z.mul_assoc, <- Z.pow_add_r by lia. do 2 f_equal. lia. }
  assert (Hpg : 0 < 2 ^ (ec - (e + k))) by (apply Z.pow_pos_nonneg; lia).
  assert (Hm1g : q / 2 ^ k <= Z.pos mc * 2 ^ (ec - (e + k))).
  { apply Z.div_le_upper_bound; [lia |]. rewrite Z.mul_comm, <- Hsplit. exact Hle. }
  assert (Hm2g : 0 <= m2 <= Z.pos mc * 2 ^ (ec - (e + k))).
  { assert (0 <= q / 2 ^ k) by (apply Z.div_pos; lia).
    destruct (Z.eq_dec (q / 2 ^ k) (Z.pos mc * 2 ^ (ec - (e + k)))) as [Heq | Hne]; [| lia].
    assert (Hqe : q = Z.pos mc * 2 ^ (ec - e)).
    { pose proof (Z.mul_div_le q (2 ^ k) Hpk) as Hmd. rewrite Heq in Hmd. lia. }
    rewrite Hm2x; [lia | auto |].
    rewrite Hqe, Hsplit. apply Z.mod_mul. lia. }
  assert (Hcmp : m3 = 0 \/ 0 < m3 /\ (e3 < ec \/ e3 = ec /\ m3 <= Z.pos mc)).
  { destruct Hfin as [(-> & -> & Hlt) | (-> & -> & Heq)].
    - destruct (Z.eq_dec m2 0) as [| Hnz]; [now left | right].
      split; [lia |].
      destruct (Z.eq_dec (e + k) ec) as [Hee | Hee]; [right | left; lia].
      split; [exact Hee |]. rewrite Hee, Z.sub_diag, Z.mul_1_r in Hm2g. lia.
    - right. split; [unfold two52; lia |].
      assert (Hgap : 1 <= ec - (e + k)).
      { destruct (Z.eq_dec (e + k) ec) as [Hee | Hee]; [| lia].
        rewrite Hee, Z.sub_diag, Z.mul_1_r in Hm2g. lia. }
      destruct (Z.eq_dec (e + k + 1) ec) as [Hee | Hee]; [right | left; lia].
      split; [exact Hee |].
      replace (ec - (e + k)) with 1 in Hm2g by lia.
      rewrite two53_double in Heq. change (2 ^ 1) with 2 in Hm2g. lia. }
  destruct Hcmp as [-> | [Hpos Hcmp]]; [split; reflexivity |].
  destruct m3 as [| p | p]; try lia.
  replace (e3 <=? 971) with true by (symmetry; apply Z.leb_le; lia).
  split; [reflexivity |]. now apply SFleb_finite_pos.
Qed.

(** Rounding does not cross a float64 below the exact value. *)
Lemma binary_round_aux_ge q e l mc ec :
  0 <= q -> bounded prec emax mc ec = true ->
  e <= Z.max (Zdigits2 q + e - 53) (-1074) ->
  (e <= ec -> Z.pos mc * 2 ^ (ec - e) <= q) ->
  fle (S754_finite false mc ec) (binary_round_aux prec emax false q e l) = true.
Proof.
  intros Hq Hc Hdesign Hle.
  destruct (bounded_digits mc ec Hc) as (Hec & Hmc & Hnorm).
  destruct (binary_round_aux_stages q e l Hq)
    as (k & m2 & m3 & e3 & Hk & Hm2 & _ & Hm1 & He1 & Hfin & ->).
  assert (Hk0 : 0 <= k) by lia.
  assert (Hpk : 0 < 2 ^ k) by (apply Z.pow_pos_nonneg; lia).
  assert (Hm1pos : 0 <= q / 2 ^ k) by (apply Z.div_pos; lia).
  assert (Hcmp : 0 < m3 /\ (ec < e3 \/ ec = e3 /\ Z.pos mc <= m3)).
  { destruct (Z_lt_le_dec ec (e + k)) as [Hlt | Hge].
    - (* the result has a larger exponent than the bound *)
      assert (Hm1one : 1 <= q / 2 ^ k).
      { destruct (Z.eq_dec k 0) as [-> | Hkpos].
        - rewrite Z.div_1_r. destruct (Z.eq_dec q 0) as [-> | ]; [| lia].
          cbn [Zdigits2] in Hdesign. lia.
        - assert (Hq0 : 0 < q).
          { destruct (Z.eq_dec q 0) as [-> | ]; [| lia]. cbn [Zdigits2] in Hk. lia. }
          destruct (Zdigits2_bounds q Hq0) as [Hd1 _].
          apply Z.div_le_lower_bound; [lia |].
          eapply Z.le_trans; [| exact Hd1].
          rewrite Z.mul_1_r. apply Z.pow_le_mono_r; lia. }
      destruct Hfin as [(-> & -> & _) | (-> & -> & _)].
      + split; [lia | left; lia].
      + split; [unfold two52; lia | left; lia].
    - (* the bound is on the grid of the result *)
      assert (Hee : e <= ec) by lia. specialize (Hle Hee).
      assert (Hsplit : Z.pos mc * 2 ^ (ec - e) = Z.pos mc * 2 ^ (ec - (e + k)) * 2 ^ k).
      { rewrite <- Z.mul_assoc, <- Z.pow_add_r by lia. do 2 f_equal. lia. }
      assert (Hpg : 0 < 2 ^ (ec - (e + k))) by (apply Z.pow_pos_nonneg; lia).
      assert (Hm1g : Z.pos mc * 2 ^ (ec - (e + k)) <= q / 2 ^ k).
      { apply Z.div_le_lower_bound; [lia |]. rewrite Z.mul_comm, <- Hsplit. exact Hle. }
      assert (Hgrow : forall j, 1 <= j -> 2 * Z.pos mc <= Z.pos mc * 2 ^ j).
      { intros j Hj. rewrite (Z.mul_comm 2).
        apply Z.mul_le_mono_nonneg_l; [lia |].
        change 2 with (2 ^ 1) at 1. apply Z.pow_le_mono_r; lia. }
      destruct Hfin as [(-> & -> & Hlt) | (-> & -> & Heq)].
      + split; [lia |]. right.
        destruct (Z.eq_dec ec (e + k)) as [Heq | Hne].
        * split; [exact Heq |]. rewrite Heq, Z.sub_diag, Z.mul_1_r in Hm1g. lia.
        * exfalso. pose proof (Hgrow (ec - (e + k)) ltac:(lia)).
          assert (two52 <= Z.pos mc) by (apply Hnorm; lia).
          rewrite two53_double in Hlt. lia.
      + split; [unfold two52; lia |].
        destruct (Z.eq_dec ec (e + k)) as [Heq0 | Hne0]; [left; lia |].
        destruct (Z.eq_dec ec (e + k + 1)) as [Heq1 | Hne1].
        * right. split; [exact Heq1 |].
          replace (ec - (e + k)) with 1 in Hm1g by lia. change (2 ^ 1) with 2 in Hm1g.
          rewrite two53_double in Heq. lia.
        * exfalso.
          assert (H4 : 4 * Z.pos mc <= Z.pos mc * 2 ^ (ec - (e + k))).
          { rewrite (Z.mul_comm 4). apply Z.mul_le_mono_nonneg_l; [lia |].
            change 4 with (2 ^ 2). apply Z.pow_le_mono_r; lia. }
          assert (two52 <= Z.pos mc) by (apply Hnorm; lia).
          rewrite two53_double in Heq. lia. }
  destruct Hcmp as [Hpos Hcmp].
  destruct m3 as [| p | p]; try lia.
  destruct (e3 <=? 971); [| reflexivity].
  now apply SFleb_finite_pos.
Qed.

(** ** float64: bounds on a quotient *)

Lemma pow2_le_shift a b u v t :
  0 <= u -> 0 <= v -> 0 <= u + t -> 0 <= v + t ->
  a * 2 ^ (u + t) <= b * 2 ^ (v + t) -> a * 2 ^ u <= b * 2 ^ v.
Proof.
  intros Hu Hv Hut Hvt H.
  destruct (Z_le_gt_dec 0 t) as [Ht | Ht].
  - rewrite !Z.pow_add_r, !Z.mul_assoc in H by lia.
    apply Z.mul_le_mono_pos_r in H; [exact H | apply Z.pow_pos_nonneg; lia].
  - replace u with (u + t + - t) by lia. replace v with (v + t + - t) by lia.
    rewrite (Z.pow_add_r 2 (u + t)), (Z.pow_add_r 2 (v + t)), !Z.mul_assoc by lia.
    apply Z.mul_le_mono_nonneg_r; [apply Z.pow_nonneg; lia | exact H].
Qed.

(** The quotient of two positive finite numbers is the rounding of an
    integer quotient [m' / my] at the exponent [e']. *)
Lemma fdiv_finite mx ex my ey :
  let e' := Z.min (Z.max (Z.pos (digits2_pos mx) + ex
                          - (Z.pos (digits2_pos my) + ey) - 53) (-1074))
                  (ex - ey) in
  let m' := Z.pos mx * 2 ^ (ex - ey - e') in
  fdiv (S754_finite false mx ex) (S754_finite false my ey) =
  binary_round_aux prec emax false (m' / Z.pos my) e'
    (new_location (Z.pos my) (m' mod Z.pos my)).
Proof.
  intros e' m'. unfold fdiv, SFdiv, SFdiv_core_binary. cbn [Zdigits2 xorb].
  rewrite fexp_eq. fold e'.
  assert (Hs0 : 0 <= ex - ey - e') by (subst e'; lia).
  assert (Hm' : match ex - ey - e' with
                | 0 => Z.pos mx
                | Z.pos _ => Z.shiftl (Z.pos mx) (ex - ey - e')
                | Z.neg _ => 0
                end = m').
  { subst m'. destruct (ex - ey - e') as [| p | p]; [lia | | lia].
    apply Z.shiftl_mul_pow2. lia. }
  rewrite Hm', div_eucl_div_mod. reflexivity.
Qed.

Section QuotientBounds.
Variables (mx my mc : positive) (ex ey ec : Z).
Hypothesis Hx : bounded prec emax mx ex = true.
Hypothesis Hy : bounded prec emax my ey = true.
Hypothesis Hc : bounded prec emax mc ec = true.

Let dx := Z.pos (digits2_pos mx).
Let dy := Z.pos (digits2_pos my).
Let e' := Z.min (Z.max (dx + ex - (dy + ey) - 53) (-1074)) (ex - ey).
Let m' := Z.pos mx * 2 ^ (ex - ey - e').

Lemma quotient_exponents :
  0 < dx /\ 0 < dy /\ -1074 <= ex <= 971 /\ -1074 <= ey <= 971 /\
  -1074 <= ec <= 971 /\ 0 <= ex - ey - e' /\
  2 ^ (dx - 1) <= Z.pos mx < 2 ^ dx /\ 2 ^ (dy - 1) <= Z.pos my < 2 ^ dy /\
  Z.pos mc < two53.
Proof.
  destruct (bounded_digits mx ex Hx) as (Hex & _ & _).
  destruct (bounded_digits my ey Hy) as (Hey & _ & _).
  destruct (bounded_digits mc ec Hc) as (Hec & Hmc & _).
  pose proof (digits2_pos_bounds mx). pose proof (digits2_pos_bounds my).
  subst dx dy e'. repeat split; try lia.
Qed.

(** The two sides of [x <= c * y], at a common scale. *)
Lemma quotient_scale_le :
  fval mx ex * 2 ^ 1074 <= fval mc ec * fval my ey ->
  Z.pos mx * 2 ^ (ex + 2148) <= Z.pos mc * Z.pos my * 2 ^ (ec + ey + 2148).
Proof.
  destruct quotient_exponents as (_ & _ & Hex & Hey & Hec & _).
  unfold fval. intros H.
  replace (ex + 2148) with (ex + 1074 + 1074) by lia.
  replace (ec + ey + 2148) with (ec + 1074 + (ey + 1074)) by lia.
  rewrite (Z.pow_add_r 2 (ex + 1074) 1074), (Z.pow_add_r 2 (ec + 1074) (ey + 1074)) by lia.
  generalize dependent (2 ^ 1074). generalize (2 ^ (ex + 1074)).
  generalize (2 ^ (ec + 1074)). generalize (2 ^ (ey + 1074)).
  intros. nia.
Qed.

Lemma quotient_scale_ge :
  fval mc ec * fval my ey <= fval mx ex * 2 ^ 1074 ->
  Z.pos mc * Z.pos my * 2 ^ (ec + ey + 2148) <= Z.pos mx * 2 ^ (ex + 2148).
Proof.
  destruct quotient_exponents as (_ & _ & Hex & Hey & Hec & _).
  unfold fval. intros H.
  replace (ex + 2148) with (ex + 1074 + 1074) by lia.
  replace (ec + ey + 2148) with (ec + 1074 + (ey + 1074)) by lia.
  rewrite (Z.pow_add_r 2 (ex + 1074) 1074), (Z.pow_add_r 2 (ec + 1074) (ey + 1074)) by lia.
  generalize dependent (2 ^ 1074). generalize (2 ^ (ex + 1074)).
  generalize (2 ^ (ec + 1074)). generalize (2 ^ (ey + 1074)).
  intros. nia.
Qed.

(** [x / y <= c] in float64 when [x <= c * y] as real numbers. *)
Lemma fdiv_le :
  fval mx ex * 2 ^ 1074 <= fval mc ec * fval my ey ->
  fle zero (fdiv (S754_finite false mx ex) (S754_finite false my ey)) = true /\
  fle (fdiv (S754_finite false mx ex) (S754_finite false my ey))
      (S754_finite false mc ec) = true.
Proof.
  intros Hval. apply quotient_scale_le in Hval.
  destruct quotient_exponents
    as (Hdx & Hdy & Hex & Hey & Hec & Hs & [Hx1 Hx2] & [Hy1 Hy2] & Hmc).
  rewrite fdiv_finite. fold dx dy e' m'.
  assert (Hp : forall n, 0 <= n -> 0 < 2 ^ n) by (intros; now apply Z.pow_pos_nonneg).
  assert (HD : dx + ex - (dy + ey) - 53 <= ec).
  { assert (dx - 1 + (ex + 2148) < 53 + dy + (ec + ey + 2148)); [| lia].
    apply pow2_lt_inv; [lia |].
    apply Z.le_lt_trans with (Z.pos mx * 2 ^ (ex + 2148)).
    - rewrite Z.pow_add_r by lia.
      apply Z.mul_le_mono_nonneg_r; [apply Z.pow_nonneg; lia | exact Hx1].
    - eapply Z.le_lt_trans; [exact Hval |].
      rewrite (Z.pow_add_r 2 (53 + dy)), (Z.pow_add_r 2 53), <- two53_eq by lia.
      apply Z.mul_lt_mono_pos_r; [apply Hp; lia |].
      pose proof (Hp dy ltac:(lia)). unfold two53 in *. nia. }
  assert (He'c : e' <= ec) by (subst e'; lia).
  assert (Hbound : m' <= Z.pos my * (Z.pos mc * 2 ^ (ec - e'))).
  { subst m'. rewrite Z.mul_assoc, (Z.mul_comm (Z.pos my)).
    apply pow2_le_shift with (t := ey + e' + 2148); try lia.
    replace (ex - ey - e' + (ey + e' + 2148)) with (ex + 2148) by lia.
    replace (ec - e' + (ey + e' + 2148)) with (ec + ey + 2148) by lia.
    exact Hval. }
  apply binary_round_aux_le; try assumption.
  - apply Z.div_pos; [subst m'; pose proof (Hp _ Hs); lia | lia].
  - apply Z.div_le_upper_bound; [lia | exact Hbound].
  - intros Hq.
    pose proof (Z.div_mod m' (Z.pos my) ltac:(lia)) as Hdm.
    pose proof (Z.mod_pos_bound m' (Z.pos my) ltac:(lia)) as Hmb.
    rewrite Hq in Hdm.
    assert (Hr : m' mod Z.pos my = 0) by lia.
    rewrite Hr. apply new_location_exact.
Qed.

(** [c <= x / y] in float64 when [c * y <= x] as real numbers. *)
Lemma fdiv_ge :
  fval mc ec * fval my ey <= fval mx ex * 2 ^ 1074 ->
  fle (S754_finite false mc ec)
      (fdiv (S754_finite false mx ex) (S754_finite false my ey)) = true.
Proof.
  intros Hval. apply quotient_scale_ge in Hval.
  destruct quotient_exponents
    as (Hdx & Hdy & Hex & Hey & Hec & Hs & [Hx1 Hx2] & [Hy1 Hy2] & Hmc).
  rewrite fdiv_finite. fold dx dy e' m'.
  assert (Hp : forall n, 0 <= n -> 0 < 2 ^ n) by (intros; now apply Z.pow_pos_nonneg).
  assert (Hm'pos : 0 < m') by (subst m'; pose proof (Hp _ Hs); lia).
  assert (Hm'lo : 2 ^ (dx - 1 + (ex - ey - e')) <= m').
  { subst m'. rewrite Z.pow_add_r by lia.
    apply Z.mul_le_mono_nonneg_r; [apply Z.pow_nonneg; lia | exact Hx1]. }
  pose proof (Z.div_mod m' (Z.pos my) ltac:(lia)) as Hdm.
  pose proof (Z.mod_pos_bound m' (Z.pos my) ltac:(lia)) as Hmb.
  assert (Hq0 : 0 <= m' / Z.pos my) by (apply Z.div_pos; lia).
  apply binary_round_aux_ge; try assumption.
  - (* the quotient has enough digits for its exponent *)
    destruct (Z.eq_dec (m' / Z.pos my) 0) as [Hz | Hnz].
    + rewrite Hz. cbn [Zdigits2].
      assert (dx - 1 + (ex - ey - e') < dy); [| subst e'; lia].
      apply pow2_lt_inv; [lia |]. rewrite Hz in Hdm. lia.
    + destruct (Zdigits2_bounds (m' / Z.pos my)) as [_ Hq2]; [lia |].
      pose proof (Zdigits2_pos (m' / Z.pos my) ltac:(lia)) as Hdq.
      assert (dx + (ex - ey - e') - dy <= Zdigits2 (m' / Z.pos my)); [| subst e'; lia].
      destruct (Z_le_gt_dec (dx + (ex - ey - e') - dy) 0) as [| Hpos]; [lia |].
      assert (dx - 1 + (ex - ey - e') - dy < Zdigits2 (m' / Z.pos my)); [| lia].
      apply pow2_lt_inv; [lia |].
      eapply Z.le_lt_trans; [| exact Hq2].
      (* 2^(a - dy) <= q  because  2^a <= m' < (q + 1) * 2^dy *)
      assert (H1 : 2 ^ (dx - 1 + (ex - ey - e') - dy) * 2 ^ dy <= m').
      { rewrite <- Z.pow_add_r by lia.
        replace (dx - 1 + (ex - ey - e') - dy + dy) with (dx - 1 + (ex - ey - e')) by lia.
        exact Hm'lo. }
      pose proof (Hp dy ltac:(lia)) as Hpdy.
      pose proof (Hp (dx - 1 + (ex - ey - e') - dy) ltac:(lia)) as Hpa.
      nia.
  - intros He'c. apply Z.div_le_lower_bound; [lia |].
    subst m'. rewrite Z.mul_assoc, (Z.mul_comm (Z.pos my)).
    apply pow2_le_shift with (t := ey + e' + 2148); try lia.
    replace (ex - ey - e' + (ey + e' + 2148)) with (ex + 2148) by lia.
    replace (ec - e' + (ey + e' + 2148)) with (ec + ey + 2148) by lia.
    exact Hval.
Qed.

End QuotientBounds.

Lemma one_bounded : bounded prec emax 4503599627370496 (-52) = true.
Proof. reflexivity. Qed.

Lemma fval_one : fval 4503599627370496 (-52) = 2 ^ 1074.
Proof.
  unfold fval. change 4503599627370496 with (2 ^ 52).
  rewrite <- Z.pow_add_r by lia. reflexivity.
Qed.

(** A positive number divided by one at least as large lies in [0, 1]. *)
Lemma fdiv_finite_unit mx ex my ey :
  bounded prec emax mx ex = true -> bounded prec emax my ey = true ->
  fle (S754_finite false mx ex) (S754_finite false my ey) = true ->
  fle zero (fdiv (S754_finite false mx ex) (S754_finite false my ey)) = true /\
  fle (fdiv (S754_finite false mx ex) (S754_finite false my ey)) one = true.
Proof.
  intros Hx Hy Hle. apply SFleb_finite_pos_inv in Hle.
  destruct (finite_le_value mx ex my ey Hx Hy Hle) as [Hval _].
  rewrite one_eq. apply fdiv_le; [assumption | assumption | exact one_bounded |].
  rewrite fval_one. unfold fval.
  rewrite (Z.mul_comm (2 ^ 1074)).
  apply Z.mul_le_mono_nonneg_r; [apply Z.pow_nonneg; lia | exact Hval].
Qed.

(** ** float64: whole numbers *)

Lemma Zdigits2_unique m n :
  0 < m -> 2 ^ (n - 1) <= m < 2 ^ n -> Zdigits2 m = n.
Proof.
  intros Hm [H1 H2]. destruct (Zdigits2_bounds m Hm) as [Hd1 Hd2].
  pose proof (Zdigits2_pos m Hm) as Hd.
  assert (Hn : 0 < n).
  { destruct (Z_lt_le_dec 0 n) as [| Hn]; [assumption |].
    rewrite (Z.pow_neg_r 2 (n - 1)) in H1 by lia.
    destruct (Z.eq_dec n 0) as [-> | ]; [cbn in H2; lia |].
    rewrite (Z.pow_neg_r 2 n) in H2 by lia. lia. }
  assert (n - 1 < Zdigits2 m) by (apply pow2_lt_inv; lia).
  assert (Zdigits2 m - 1 < n) by (apply pow2_lt_inv; lia).
  lia.
Qed.

Lemma Zdigits2_mul_pow2 m n :
  0 < m -> 0 <= n -> Zdigits2 (m * 2 ^ n) = Zdigits2 m + n.
Proof.
  intros Hm Hn. destruct (Zdigits2_bounds m Hm) as [Hd1 Hd2].
  pose proof (Zdigits2_pos m Hm) as Hd.
  assert (Hp : 0 < 2 ^ n) by (apply Z.pow_pos_nonneg; lia).
  apply Zdigits2_unique; [lia |].
  replace (Zdigits2 m + n - 1) with (Zdigits2 m - 1 + n) by lia.
  rewrite !Z.pow_add_r by lia. split.
  - apply Z.mul_le_mono_nonneg_r; lia.
  - apply Z.mul_lt_mono_pos_r; lia.
Qed.

Lemma pos_iter_xO (m p : positive) :
  Z.pos (Pos.iter xO m p) = Z.pos m * 2 ^ Z.pos p.
Proof.
  rewrite <- Z.shiftl_mul_pow2 by lia. cbn [Z.shiftl].
  apply (Pos.iter_swap_gen _ _ Z.pos xO (Z.mul 2)). reflexivity.
Qed.

Lemma shl_align_fst (m : positive) (e e' : Z) :
  e' <= e -> Z.pos (fst (shl_align m e e')) = Z.pos m * 2 ^ (e - e').
Proof.
  intros He. unfold shl_align.
  destruct (e' - e) as [| p | p] eqn:E; try lia; cbn [fst].
  - replace (e - e') with 0 by lia. lia.
  - rewrite pos_iter_xO. f_equal. f_equal. lia.
Qed.

Lemma shl_align_snd (m : positive) (e e' : Z) :
  snd (shl_align m e e') = Z.min e e'.
Proof. unfold shl_align. destruct (e' - e) as [| p | p] eqn:E; cbn [snd]; lia. Qed.

(** A whole number [z = M * 2 ^ e] below [2 ^ 53] is rounded to itself, in
    canonical form. *)
Lemma binary_round_int (M : positive) (e z : Z) :
  e <= 0 -> 0 < z < two53 -> Z.pos M = z * 2 ^ (- e) ->
  binary_round prec emax false M e = int_float z.
Proof.
  intros He Hz HM.
  pose proof (Zdigits2_pos z ltac:(lia)) as Hd.
  pose proof (Zdigits2_le_53 z Hz) as Hd53.
  destruct (Zdigits2_bounds z ltac:(lia)) as [Hz1 Hz2].
  assert (HdM : Z.pos (digits2_pos M) = Zdigits2 z - e).
  { change (Z.pos (digits2_pos M)) with (Zdigits2 (Z.pos M)).
    rewrite HM, Zdigits2_mul_pow2 by lia. lia. }
  unfold binary_round. rewrite fexp_eq, HdM.
  replace (Z.max (Zdigits2 z - e + e - 53) (-1074)) with (Zdigits2 z - 53) by lia.
  destruct (shl_align M e (Zdigits2 z - 53)) as [mz ez] eqn:Ealign.
  pose proof (shl_align_snd M e (Zdigits2 z - 53)) as Hez. rewrite Ealign in Hez. cbn in Hez.
  assert (Hmz : Z.pos mz = z * 2 ^ (- ez)).
  { destruct (Z_le_gt_dec (Zdigits2 z - 53) e) as [Hle | Hgt].
    - pose proof (shl_align_fst M e (Zdigits2 z - 53) Hle) as Hf.
      rewrite Ealign in Hf. cbn in Hf. rewrite Hf, HM, <- Z.mul_assoc, <- Z.pow_add_r by lia.
      do 2 f_equal. lia.
    - unfold shl_align in Ealign.
      destruct (Zdigits2 z - 53 - e) eqn:E; try lia.
      injection Ealign as <- <-. exact HM. }
  destruct (binary_round_aux_stages (Z.pos mz) ez loc_Exact ltac:(lia))
    as (k & m2 & m3 & e3 & Hk & _ & Hm2 & _ & _ & Hfin & ->).
  assert (Hdq : Zdigits2 (Z.pos mz) = Zdigits2 z - ez).
  { rewrite Hmz, Zdigits2_mul_pow2 by lia. lia. }
  rewrite Hdq in Hk.
  assert (Hk' : k = Zdigits2 z - 53 - ez) by lia.
  assert (Hsplit : Z.pos mz = z * 2 ^ (53 - Zdigits2 z) * 2 ^ k).
  { rewrite Hmz, <- Z.mul_assoc, <- Z.pow_add_r by lia. do 2 f_equal. lia. }
  assert (Hpk : 0 < 2 ^ k) by (apply Z.pow_pos_nonneg; lia).
  assert (Hquot : Z.pos mz / 2 ^ k = z * 2 ^ (53 - Zdigits2 z)).
  { rewrite Hsplit. apply Z.div_mul. lia. }
  assert (Hm2' : m2 = z * 2 ^ (53 - Zdigits2 z)).
  { rewrite <- Hquot. apply Hm2; [reflexivity |].
    rewrite Hsplit. apply Z.mod_mul. lia. }
  assert (Hm2lt : 0 < m2 < two53).
  { rewrite Hm2'. split; [apply Z.mul_pos_pos; [lia | apply Z.pow_pos_nonneg; lia] |].
    rewrite two53_eq.
    replace 53 with (Zdigits2 z + (53 - Zdigits2 z)) at 2 by lia.
    rewrite Z.pow_add_r by lia.
    apply Z.mul_lt_mono_pos_r; [apply Z.pow_pos_nonneg; lia | exact Hz2]. }
  destruct Hfin as [(-> & -> & _) | (_ & _ & Habs)]; [| lia].
  unfold int_float. destruct z as [| pz | pz]; try lia.
  destruct m2 as [| p2 | p2]; try lia.
  replace (ez + k <=? 971) with true by (symmetry; apply Z.leb_le; lia).
  replace (ez + k) with (Zdigits2 (Z.pos pz) - 53) by lia.
  f_equal. rewrite <- Hm2'. reflexivity.
Qed.

Lemma float_of_int_eq z : 0 <= z < two53 -> float_of_int z = int_float z.
Proof.
  intros Hz. destruct z as [| p | p]; [reflexivity | | lia].
  unfold float_of_int, binary_normalize. apply binary_round_int; [lia | lia |].
  change (2 ^ (- 0)) with 1. lia.
Qed.

(** The canonical form of a positive whole number. *)
Lemma int_float_pos z :
  0 < z < two53 ->
  exists m e,
    int_float z = S754_finite false m e /\ bounded prec emax m e = true /\
    Z.pos m = z * 2 ^ (- e) /\ e = Zdigits2 z - 53 /\ -52 <= e <= 0 /\
    fval m e = z * 2 ^ 1074.
Proof.
  intros Hz.
  pose proof (Zdigits2_pos z ltac:(lia)) as Hd.
  pose proof (Zdigits2_le_53 z Hz) as Hd53.
  assert (Hp : 0 < 2 ^ (53 - Zdigits2 z)) by (apply Z.pow_pos_nonneg; lia).
  assert (Hm : Z.pos (Z.to_pos (z * 2 ^ (53 - Zdigits2 z))) = z * 2 ^ (53 - Zdigits2 z)).
  { apply Z2Pos.id. apply Z.mul_pos_pos; lia. }
  exists (Z.to_pos (z * 2 ^ (53 - Zdigits2 z))), (Zdigits2 z - 53).
  split; [destruct z; try lia; reflexivity |].
  split; [| split; [| split; [| split]]].
  - unfold bounded, canonical_mantissa. rewrite fexp_eq.
    change (Z.pos (digits2_pos ?m)) with (Zdigits2 (Z.pos m)).
    rewrite Hm, Zdigits2_mul_pow2 by lia.
    apply andb_true_intro. split; [apply Z.eqb_eq; lia | apply Z.leb_le; unfold emax, prec; lia].
  - rewrite Hm. do 2 f_equal. lia.
  - reflexivity.
  - lia.
  - unfold fval. rewrite Hm, <- Z.mul_assoc, <- Z.pow_add_r by lia. do 2 f_equal. lia.
Qed.

(** Addition of whole numbers is exact below [2 ^ 53]. *)
Lemma fadd_int_float a b :
  0 <= a -> 0 <= b -> a + b < two53 ->
  fadd (int_float a) (int_float b) = int_float (a + b).
Proof.
  intros Ha Hb Hab.
  destruct (Z.eq_dec a 0) as [-> | Ha0].
  { rewrite Z.add_0_l. destruct (Z.eq_dec b 0) as [-> | Hb0]; [reflexivity |].
    destruct (int_float_pos b ltac:(lia)) as (m & e & -> & _). reflexivity. }
  destruct (Z.eq_dec b 0) as [-> | Hb0].
  { rewrite Z.add_0_r. destruct (int_float_pos a ltac:(lia)) as (m & e & -> & _). reflexivity. }
  destruct (int_float_pos a ltac:(lia)) as (ma & ea & -> & _ & Hma & _ & Hea & _).
  destruct (int_float_pos b ltac:(lia)) as (mb & eb & -> & _ & Hmb & _ & Heb & _).
  unfold fadd, SFadd. cbn [cond_Zopp].
  rewrite !shl_align_fst by lia.
  assert (Hpa : 0 < 2 ^ (ea - Z.min ea eb)) by (apply Z.pow_pos_nonneg; lia).
  assert (Hpb : 0 < 2 ^ (eb - Z.min ea eb)) by (apply Z.pow_pos_nonneg; lia).
  assert (Hsum : Z.pos ma * 2 ^ (ea - Z.min ea eb) + Z.pos mb * 2 ^ (eb - Z.min ea eb)
                 = (a + b) * 2 ^ (- Z.min ea eb)).
  { rewrite Hma, Hmb, <- !Z.mul_assoc, <- !Z.pow_add_r by lia.
    replace (- ea + (ea - Z.min ea eb)) with (- Z.min ea eb) by lia.
    replace (- eb + (eb - Z.min ea eb)) with (- Z.min ea eb) by lia. ring. }
  destruct (Z.pos ma * 2 ^ (ea - Z.min ea eb) + Z.pos mb * 2 ^ (eb - Z.min ea eb))
    as [| M | M] eqn:EM; try lia.
  unfold binary_normalize. apply binary_round_int; [lia | lia | exact Hsum].
Qed.

(** Whole numbers compare as floats the way they compare as integers. *)
Lemma fle_int_float a b :
  0 <= a < two53 -> 0 <= b < two53 ->
  fle (int_float a) (int_float b) = true -> a <= b.
Proof.
  intros Ha Hb H.
  destruct (Z.eq_dec a 0) as [-> | Ha0]; [lia |].
  destruct (int_float_pos a ltac:(lia)) as (ma & ea & Ea & _ & Hma & Hea & Hea' & _).
  destruct (Z.eq_dec b 0) as [-> | Hb0].
  { rewrite Ea in H. discriminate H. }
  destruct (int_float_pos b ltac:(lia)) as (mb & eb & Eb & _ & Hmb & Heb & Heb' & _).
  rewrite Ea, Eb in H. apply SFleb_finite_pos_inv in H.
  destruct (Zdigits2_bounds a ltac:(lia)) as [Ha1 Ha2].
  destruct (Zdigits2_bounds b ltac:(lia)) as [Hb1 Hb2].
  destruct H as [Hlt | [Heq Hm]].
  - assert (2 ^ Zdigits2 a <= 2 ^ (Zdigits2 b - 1)) by (apply Z.pow_le_mono_r; lia). lia.
  - rewrite Hma, Hmb, Heq in Hm.
    apply Z.mul_le_mono_pos_r in Hm; [exact Hm | apply Z.pow_pos_nonneg; lia].
Qed.

(** ** float64: division by the row maximum *)

Lemma isnan_true x : isnan x = true -> x = S754_nan.
Proof. destruct x; cbn; congruence. Qed.

(** A number that is not negative, divided by a number at least as large,
    is NaN or lies in [0, 1]. *)
Lemma fdiv_unit x m :
  float_valid x = true -> float_valid m = true ->
  flt x zero = false -> flt m zero = false ->
  (isnan x = false -> fle x m = true) ->
  isnan (fdiv x m) = true \/ in_unit_interval (fdiv x m) = true.
Proof.
  intros Vx Vm Nx Nm Hle.
  destruct x as [sx | [] | | [] mx ex]; try discriminate Nx;
    try (left; reflexivity);
    specialize (Hle eq_refl);
    destruct m as [sm | [] | | [] mm em]; try discriminate Nm; try discriminate Hle;
    try (left; reflexivity);
    try (right; destruct sx; reflexivity);
    try (right; reflexivity).
  right. unfold in_unit_interval.
  destruct (fdiv_finite_unit mx ex mm em Vx Vm Hle) as [-> ->]. reflexivity.
Qed.

Lemma in_unit_not_nan y : in_unit_interval y = true -> isnan y = false.
Proof. destruct y; cbn; congruence. Qed.

Lemma in_unit_not_negative y : in_unit_interval y = true -> flt y zero = false.
Proof.
  unfold in_unit_interval. intros H. apply andb_prop in H as [H _].
  now apply flt_fle_false.
Qed.

Lemma normalise_cell_unit x m :
  float_valid x = true -> float_valid m = true ->
  flt x zero = false -> flt m zero = false ->
  (isnan x = false -> fle x m = true) ->
  in_unit_interval (clamp_negative (nan_to_zero (fdiv x m))) = true.
Proof.
  intros Vx Vm Nx Nm Hle.
  destruct (fdiv_unit x m Vx Vm Nx Nm Hle) as [Hnan | Hunit].
  - unfold nan_to_zero. rewrite Hnan. reflexivity.
  - unfold nan_to_zero, clamp_negative.
    rewrite (in_unit_not_nan _ Hunit), (in_unit_not_negative _ Hunit). exact Hunit.
Qed.

(** ** The row maximum *)

Lemma float_max_cases a b : float_max a b = a \/ float_max a b = b.
Proof. unfold float_max. destruct (fle b a); auto. Qed.

Lemma fold_float_max_spec l : forall acc,
  isnan acc = false -> Forall (fun x => isnan x = false) l ->
  let m := fold_left float_max l acc in
  isnan m = false /\ fle acc m = true /\ Forall (fun x => fle x m = true) l /\
  m ∈ acc :: l.
Proof.
  induction l as [| b l IH]; intros acc Hacc Hl; cbn.
  - repeat split; auto using fle_refl. apply list_elem_of_here.
  - apply Forall_cons in Hl as [Hb Hl].
    assert (Hab : isnan (float_max acc b) = false).
    { destruct (float_max_cases acc b) as [-> | ->]; assumption. }
    assert (Hge : fle acc (float_max acc b) = true /\ fle b (float_max acc b) = true).
    { unfold float_max. destruct (fle b acc) eqn:E.
      - auto using fle_refl.
      - split; [apply fle_total; auto | apply fle_refl; auto]. }
    destruct (IH _ Hab Hl) as (Hm & Hle & Hall & Hin).
    split; [exact Hm |]. split; [apply fle_trans with (float_max acc b); tauto |].
    split.
    + constructor; [apply fle_trans with (float_max acc b); tauto | exact Hall].
    + apply elem_of_cons in Hin as [-> | Hin].
      * destruct (float_max_cases acc b) as [-> | ->];
          [apply list_elem_of_here | apply list_elem_of_further, list_elem_of_here].
      * now do 2 apply list_elem_of_further.
Qed.

Lemma row_max_ignoring_nan_spec r :
  let m := row_max_ignoring_nan r in
  (isnan m = true \/ m ∈ r) /\
  Forall (fun x => isnan x = false -> fle x m = true) r.
Proof.
  unfold row_max_ignoring_nan.
  pose proof (fun x => proj1 (filter_In (fun x => negb (isnan x)) x r)) as Hin.
  pose proof (fun x => proj2 (filter_In (fun x => negb (isnan x)) x r)) as Hni.
  destruct (List.filter (fun x => negb (isnan x)) r) as [| y l] eqn:E.
  - split; [left; reflexivity |].
    apply Forall_forall. intros x Hx Hnan. exfalso.
    apply (in_nil (a := x)), Hni. split; [now apply list_elem_of_In |].
    now rewrite Hnan.
  - assert (Hall : Forall (fun x => isnan x = false) (y :: l)).
    { apply Forall_forall. intros x Hx. apply list_elem_of_In, Hin in Hx as [_ Hx].
      now apply negb_true_iff in Hx. }
    apply Forall_cons in Hall as [Hy Hl].
    destruct (fold_float_max_spec l y Hy Hl) as (Hm & Hle & Hge & Hmem).
    split.
    + right. apply list_elem_of_In, Hin in Hmem as [Hmem _]. now apply list_elem_of_In.
    + apply Forall_forall. intros x Hx Hnan.
      assert (Hxf : x ∈ y :: l).
      { apply list_elem_of_In, Hni. split; [now apply list_elem_of_In | now rewrite Hnan]. }
      apply elem_of_cons in Hxf as [-> | Hxl]; [exact Hle |].
      clear Hx Hnan. revert x Hxl. now apply Forall_forall.
Qed.

(** [np.fmax.reduce] computes the maximum ignoring NaN. *)
Lemma fold_np_fmax l : forall acc,
  fold_left np_fmax l acc = row_max_ignoring_nan (acc :: l).
Proof.
  unfold row_max_ignoring_nan.
  induction l as [| b l IH]; intros acc; cbn [fold_left].
  - cbn. destruct (isnan acc) eqn:E; cbn; [now apply isnan_true | reflexivity].
  - rewrite IH. unfold np_fmax, fge. cbn [List.filter].
    destruct (isnan b) eqn:Eb; cbn [negb].
    + rewrite orb_true_r. reflexivity.
    + rewrite orb_false_r. destruct (isnan acc) eqn:Ea; cbn [negb].
      * apply isnan_true in Ea. subst acc. rewrite fle_nan_r. cbn [List.filter].
        rewrite Eb. reflexivity.
      * change (if SFleb b acc then acc else b) with (float_max acc b).
        assert (Hab : isnan (float_max acc b) = false).
        { destruct (float_max_cases acc b) as [-> | ->]; assumption. }
        rewrite Hab. reflexivity.
Qed.

Lemma reduce_fmax r :
  r <> [] -> reduce "fmax" np_fmax r = Ok (row_max_ignoring_nan r).
Proof.
  destruct r as [| x l]; [congruence |]. intros _. cbn. now rewrite fold_np_fmax.
Qed.

(** ** Rows of a table *)

Lemma chunks_length n d l : length (chunks n d l) = n.
Proof. revert l. induction n as [| n IH]; intros l; cbn; [reflexivity | now rewrite IH]. Qed.

Lemma chunks_row_length n d l :
  length l = (n * d)%nat -> Forall (fun r => length r = d) (chunks n d l).
Proof.
  revert l. induction n as [| n IH]; intros l Hl; cbn; constructor.
  - rewrite length_take. lia.
  - apply IH. rewrite length_drop. lia.
Qed.

Lemma concat_chunks n d l : length l = (n * d)%nat -> concat (chunks n d l) = l.
Proof.
  revert l. induction n as [| n IH]; intros l Hl; cbn.
  - destruct l; [reflexivity | discriminate].
  - rewrite IH by (rewrite length_drop; lia). apply take_drop.
Qed.

Lemma chunks_concat d rs :
  Forall (fun r => length r = d) rs -> chunks (length rs) d (concat rs) = rs.
Proof.
  induction 1 as [| r rs Hr _ IH]; cbn; [reflexivity |].
  rewrite take_app_length' by now symmetry.
  rewrite drop_app_length' by now symmetry. now rewrite IH.
Qed.

Lemma chunks_Forall (P : float -> Prop) n d l :
  Forall P l -> Forall (Forall P) (chunks n d l).
Proof.
  revert l. induction n as [| n IH]; intros l Hl; cbn; constructor.
  - now apply Forall_take.
  - now apply IH, Forall_drop.
Qed.

Lemma is_table_inv a :
  is_table a = true ->
  shape a = [nrows a; ncols a] /\ length (buf a) = (nrows a * ncols a)%nat /\
  Forall (fun x => float_valid x = true) (buf a).
Proof.
  unfold is_table. intros H.
  apply andb_prop in H as [H H3]. apply andb_prop in H as [H1 H2].
  apply bool_decide_eq_true in H1. apply Nat.eqb_eq in H2.
  split; [assumption |]. split; [assumption |].
  apply Forall_forall. intros x Hx. apply list_elem_of_In in Hx.
  revert x Hx. now apply forallb_forall.
Qed.

Lemma non_negative_inv a :
  non_negative a = true -> Forall (fun x => flt x zero = false) (buf a).
Proof.
  unfold non_negative. intros H. apply Forall_forall. intros x Hx.
  apply list_elem_of_In in Hx.
  apply negb_true_iff. revert x Hx. now apply forallb_forall.
Qed.

Lemma np_any_negative a :
  np_any (map (fun x => flt x zero) (buf a)) = negb (non_negative a).
Proof.
  unfold np_any, non_negative. induction (buf a) as [| x l IH]; cbn; [reflexivity |].
  rewrite IH. unfold id. now destruct (flt x zero).
Qed.

Lemma rows_length a : length (rows a) = nrows a.
Proof. apply chunks_length. Qed.

Lemma rows_row_length a :
  is_table a = true -> Forall (fun r => length r = ncols a) (rows a).
Proof. intros H. apply chunks_row_length. now apply is_table_inv in H. Qed.

(** ** Exceptions in a map over a list *)

Lemma result_map_ok {A B} (f : A -> result B) (g : A -> B) l :
  Forall (fun x => f x = Ok (g x)) l -> result_map f l = Ok (map g l).
Proof. induction 1 as [| x l Hx _ IH]; cbn; [reflexivity |]. now rewrite Hx, IH. Qed.

Lemma result_map_cases {A B} (f : A -> result B) e l :
  (forall x, (exists b, f x = Ok b) \/ f x = Raise e) ->
  (exists bs, result_map f l = Ok bs) \/ result_map f l = Raise e.
Proof.
  intros Hf. induction l as [| x l IH]; cbn; [left; eauto |].
  destruct (Hf x) as [[b ->] | ->]; cbn; [| now right].
  destruct IH as [[bs ->] | ->]; cbn; [left; eauto | now right].
Qed.

(** ** In-place updates *)

Lemma zip_with_mask (mask : float -> bool) v l :
  zip_with (fun (b : bool) x => if b then v else x) (map mask l) l =
  map (fun x => if mask x then v else x) l.
Proof. induction l as [| x l IH]; cbn; [reflexivity | now rewrite IH]. Qed.

Lemma zip_with_map_r {A B C} (F : A -> B -> C) (g : A -> B) l :
  zip_with F l (map g l) = map (fun x => F x (g x)) l.
Proof. induction l as [| x l IH]; cbn; [reflexivity | now rewrite IH]. Qed.

(** What a call does once the type check has passed. *)
Lemma patient_normalise_run (h : heap) l a :
  h !! l = Some a ->
  patient_normalise (PyNdarray l) h =
  if negb (length (shape a) =? 2)%nat then
    (Raise (ValueError "inflammation array should be 2-dimensional"), h)
  else if negb (non_negative a) then
    (Raise (ValueError "Inflammation values should not be negative"), h)
  else
    match np_nanmax_axis1 a with
    | Ok max_data =>
        (Ok (fresh (dom h)),
         <[fresh (dom h) :=
             {| shape := shape a;
                buf := map clamp_negative
                         (map nan_to_zero (buf (true_divide_newaxis a max_data))) |}]> h)
    | Raise e => (Raise e, h)
    end.
Proof.
  intros Hl. unfold patient_normalise, bind, load. rewrite Hl.
  destruct (negb (length (shape a) =? 2)%nat); [reflexivity |].
  rewrite np_any_negative.
  destruct (negb (non_negative a)); [reflexivity |].
  unfold lift. destruct (np_nanmax_axis1 a) as [max_data | e]; [| reflexivity].
  unfold alloc, setitem_mask, ret. cbn [shape buf].
  rewrite lookup_insert_eq. cbn [shape buf]. rewrite lookup_insert_eq. cbn [shape buf].
  rewrite !insert_insert_eq, !zip_with_mask. reflexivity.
Qed.

Lemma np_nanmax_axis1_ok a :
  is_table a = true -> (0 < ncols a)%nat ->
  np_nanmax_axis1 a = Ok (map row_max_ignoring_nan (rows a)).
Proof.
  intros Ht Hd. unfold np_nanmax_axis1, reduce_axis1.
  replace (ncols a =? 0)%nat with false by (symmetry; apply Nat.eqb_neq; lia).
  apply result_map_ok.
  eapply Forall_impl; [exact (rows_row_length a Ht) |]. cbn. intros r Hr.
  apply reduce_fmax. destruct r; [cbn in Hr; lia | congruence].
Qed.

Lemma np_nanmax_axis1_no_columns a :
  ncols a = 0%nat -> np_nanmax_axis1 a = Raise (zero_size "fmax").
Proof. intros Hd. unfold np_nanmax_axis1, reduce_axis1. now rewrite Hd. Qed.

Lemma normalised_buf a :
  map clamp_negative
    (map nan_to_zero
       (buf (true_divide_newaxis a (map row_max_ignoring_nan (rows a))))) =
  buf (patient_normalise_spec a).
Proof.
  cbn [buf true_divide_newaxis patient_normalise_spec].
  rewrite zip_with_map_r, !concat_map, !map_map. f_equal.
  apply map_ext. intros r. unfold normalise_row_spec. now rewrite !map_map.
Qed.

(** A well-formed table without negative entries is normalised into a
    fresh array object holding the specification's table. *)
Lemma patient_normalise_ok (h : heap) l a :
  h !! l = Some a -> is_table a = true -> non_negative a = true ->
  (0 < ncols a)%nat ->
  patient_normalise (PyNdarray l) h =
  (Ok (fresh (dom h)), <[fresh (dom h) := patient_normalise_spec a]> h).
Proof.
  intros Hl Ht Hn Hd. rewrite (patient_normalise_run h l a Hl).
  destruct (is_table_inv a Ht) as (Hs & _ & _).
  rewrite Hs, Hn. cbn [length Nat.eqb negb].
  rewrite <- Hs, (np_nanmax_axis1_ok a Ht Hd), normalised_buf. reflexivity.
Qed.

(** ** The normalised table *)

Lemma row_max_valid r :
  Forall (fun x => float_valid x = true) r ->
  Forall (fun x => flt x zero = false) r ->
  float_valid (row_max_ignoring_nan r) = true /\
  flt (row_max_ignoring_nan r) zero = false.
Proof.
  intros Hv Hn.
  destruct (row_max_ignoring_nan_spec r) as [[Hnan | Hin] _].
  - apply isnan_true in Hnan. rewrite Hnan. split; reflexivity.
  - rewrite Forall_forall in Hv, Hn. auto.
Qed.

Lemma normalise_row_unit r :
  Forall (fun x => float_valid x = true) r ->
  Forall (fun x => flt x zero = false) r ->
  Forall (fun y => in_unit_interval y = true) (normalise_row_spec r).
Proof.
  intros Hv Hn. destruct (row_max_valid r Hv Hn) as [Hmv Hmn].
  destruct (row_max_ignoring_nan_spec r) as [_ Hle].
  unfold normalise_row_spec. apply Forall_map.
  rewrite Forall_forall in Hv, Hn, Hle. apply Forall_forall. intros x Hx.
  apply normalise_cell_unit; auto.
Qed.

Lemma map_const_repeat {A B} (F : A -> B) (c : B) r :
  Forall (fun x => F x = c) r -> map F r = repeat c (length r).
Proof. induction 1 as [| x r Hx _ IH]; cbn; [reflexivity | now rewrite Hx, IH]. Qed.

Lemma normalise_row_zero r :
  Forall (fun x => is_zero x = true) r ->
  normalise_row_spec r = repeat zero (length r).
Proof.
  intros Hz. unfold normalise_row_spec. apply map_const_repeat.
  eapply Forall_impl; [exact Hz |]. cbn.
  destruct (row_max_ignoring_nan_spec r) as [[Hnan | Hin] _].
  - apply isnan_true in Hnan. rewrite Hnan. intros [] Hx; try discriminate. reflexivity.
  - rewrite Forall_forall in Hz. specialize (Hz _ Hin).
    destruct (row_max_ignoring_nan r); try discriminate.
    intros [] Hx; try discriminate. reflexivity.
Qed.

Lemma normalise_row_length r : length (normalise_row_spec r) = length r.
Proof. unfold normalise_row_spec. apply length_map. Qed.

Lemma rows_patient_normalise_spec a :
  is_table a = true ->
  rows (patient_normalise_spec a) = map normalise_row_spec (rows a).
Proof.
  intros Ht. unfold rows at 1. unfold nrows, ncols. cbn [shape buf patient_normalise_spec].
  fold (nrows a) (ncols a).
  rewrite <- (rows_length a), <- (length_map normalise_row_spec (rows a)).
  apply chunks_concat. apply Forall_map.
  eapply Forall_impl; [exact (rows_row_length a Ht) |]. cbn.
  intros r Hr. now rewrite normalise_row_length.
Qed.

Lemma rows_Forall (P : float -> Prop) a :
  Forall P (buf a) -> Forall (Forall P) (rows a).
Proof. apply chunks_Forall. Qed.

Lemma buf_patient_normalise_spec_unit a :
  is_table a = true -> non_negative a = true ->
  Forall (fun y => in_unit_interval y = true) (buf (patient_normalise_spec a)).
Proof.
  intros Ht Hn. destruct (is_table_inv a Ht) as (_ & _ & Hv).
  apply non_negative_inv in Hn.
  cbn [buf patient_normalise_spec]. apply Forall_concat, Forall_map.
  pose proof (rows_Forall _ a Hv) as Hrv. pose proof (rows_Forall _ a Hn) as Hrn.
  rewrite Forall_forall in Hrv, Hrn. apply Forall_forall. intros r Hr.
  apply normalise_row_unit; auto.
Qed.

(** C1: for every well-formed table without negative entries,
    [patient_normalise] returns a table of the same shape whose cells all lie
    in [0, 1], none of them NaN, and in which a row of zeros of the input is
    a row of zeros; the only valid input for which no table is returned is a
    table without columns, which [np.nanmax] refuses. *)
Theorem patient_normalise_unit_interval (h : heap) (l : loc) (a : ndarray) :
  h !! l = Some a -> is_table a = true -> non_negative a = true ->
  (ncols a = 0%nat /\
   patient_normalise (PyNdarray l) h = (Raise (zero_size "fmax"), h))
  \/
  (exists l' out,
     (0 < ncols a)%nat /\
     patient_normalise (PyNdarray l) h = (Ok l', <[l' := out]> h) /\
     shape out = shape a /\
     Forall (fun y => in_unit_interval y = true) (buf out) /\
     Forall (fun y => isnan y = false) (buf out) /\
     forall i, (i < nrows a)%nat ->
       Forall (fun x => is_zero x = true) (row i a) ->
       row i out = repeat zero (ncols a)).
Proof.
  intros Hl Ht Hn.
  destruct (Nat.eq_dec (ncols a) 0%nat) as [Hd | Hd].
  { left. split; [assumption |].
    rewrite (patient_normalise_run h l a Hl).
    destruct (is_table_inv a Ht) as (Hs & _ & _).
    rewrite Hs, Hn. cbn [length Nat.eqb negb].
    rewrite <- Hs, np_nanmax_axis1_no_columns by assumption. reflexivity. }
  right. exists (fresh (dom h)), (patient_normalise_spec a).
  split; [lia |].
  split; [apply patient_normalise_ok; auto; lia |].
  split; [reflexivity |].
  pose proof (buf_patient_normalise_spec_unit a Ht Hn) as Hunit.
  split; [exact Hunit |].
  split; [eapply Forall_impl; [exact Hunit | apply in_unit_not_nan] |].
  intros i Hi Hz. unfold row in *.
  rewrite (rows_patient_normalise_spec a Ht).
  change (@nil float) with (normalise_row_spec []) at 1.
  rewrite map_nth, normalise_row_zero by assumption.
  f_equal.
  pose proof (rows_row_length a Ht) as Hlen. rewrite Forall_forall in Hlen.
  apply Hlen, list_elem_of_In, nth_In. rewrite rows_length. exact Hi.
Qed.

(** The two clean-up passes commute: replacing NaN first and clamping
    negative values second gives the same cell as the other order. *)
Lemma clamp_negative_nan_to_zero x :
  clamp_negative (nan_to_zero x) = nan_to_zero (clamp_negative x).
Proof.
  unfold clamp_negative, nan_to_zero.
  destruct (isnan x) eqn:En.
  - apply isnan_true in En. subst x. reflexivity.
  - destruct (flt x zero); [reflexivity | now rewrite En].
Qed.

(** C2: on every well-formed table without negative entries that has a
    column, the array returned by [patient_normalise] holds, row by row, each
    value divided by the maximum of its row ignoring NaN, with NaN replaced
    by 0 first and negative values clamped to 0 after that. *)
Theorem patient_normalise_refines_spec (h : heap) (l : loc) (a : ndarray) :
  h !! l = Some a -> is_table a = true -> non_negative a = true ->
  (0 < ncols a)%nat ->
  exists l',
    patient_normalise (PyNdarray l) h =
      (Ok l', <[l' := patient_normalise_spec a]> h) /\
    shape (patient_normalise_spec a) = shape a /\
    rows (patient_normalise_spec a) =
      map (fun r =>
             map (fun x => clamp_negative
                             (nan_to_zero (fdiv x (row_max_ignoring_nan r)))) r)
          (rows a).
Proof.
  intros Hl Ht Hn Hd. exists (fresh (dom h)).
  split; [now apply patient_normalise_ok |].
  split; [reflexivity |]. now apply rows_patient_normalise_spec.
Qed.

Lemma non_negative_false a :
  (exists x, x ∈ buf a /\ flt x zero = true) -> non_negative a = false.
Proof.
  intros (x & Hx & Hneg). destruct (non_negative a) eqn:E; [| reflexivity].
  apply non_negative_inv in E. rewrite Forall_forall in E.
  specialize (E x Hx). congruence.
Qed.

Lemma non_negative_true a :
  (forall x, x ∈ buf a -> flt x zero = false) -> non_negative a = true.
Proof.
  intros H. unfold non_negative. apply forallb_forall. intros x Hx.
  apply negb_true_iff, H. now apply list_elem_of_In.
Qed.

Lemma np_nanmax_axis1_cases a :
  (exists max_data, np_nanmax_axis1 a = Ok max_data) \/
  np_nanmax_axis1 a = Raise (zero_size "fmax").
Proof.
  unfold np_nanmax_axis1, reduce_axis1.
  destruct (ncols a =? 0)%nat; [now right |]. apply result_map_cases.
  intros [| x r]; [right; reflexivity | left; cbn; eauto].
Qed.

(** C3: [patient_normalise] raises [TypeError] for whatever is not an
    ndarray, then [ValueError] for an ndarray that is not 2-dimensional, then
    [ValueError] for a 2-dimensional ndarray with a negative entry, in that
    order; past these checks it raises none of the three (it returns, or
    [np.nanmax] raises its own error on a table without columns).  The store
    is left as it was whenever a check fails. *)
Theorem patient_normalise_validation (h : heap) (data : pyobj) :
  (data = PyOther ->
   patient_normalise data h = (Raise (TypeError "data input should be ndarray"), h)) /\
  (forall l a, data = PyNdarray l -> h !! l = Some a ->
     (length (shape a) <> 2%nat ->
      patient_normalise data h =
      (Raise (ValueError "inflammation array should be 2-dimensional"), h)) /\
     (length (shape a) = 2%nat ->
      (exists x, x ∈ buf a /\ flt x zero = true) ->
      patient_normalise data h =
      (Raise (ValueError "Inflammation values should not be negative"), h)) /\
     (length (shape a) = 2%nat ->
      (forall x, x ∈ buf a -> flt x zero = false) ->
      (exists l', (patient_normalise data h).1 = Ok l') \/
      patient_normalise data h = (Raise (zero_size "fmax"), h))).
Proof.
  split; [intros ->; reflexivity |].
  intros l a -> Hl. rewrite (patient_normalise_run h l a Hl).
  split; [| split].
  - intros Hs. apply Nat.eqb_neq in Hs. now rewrite Hs.
  - intros Hs Hneg. rewrite Hs, (non_negative_false a Hneg). reflexivity.
  - intros Hs Hpos. rewrite Hs, (non_negative_true a Hpos). cbn [Nat.eqb negb].
    destruct (np_nanmax_axis1_cases a) as [[m ->] | ->]; [left; eauto | now right].
Qed.

Lemma patient_normalise_frame (h : heap) (data : pyobj) :
  (forall l a, h !! l = Some a -> (patient_normalise data h).2 !! l = Some a) /\
  (forall l', (patient_normalise data h).1 = Ok l' ->
     h !! l' = None /\ is_Some ((patient_normalise data h).2 !! l') /\
     data <> PyNdarray l').
Proof.
  assert (Hfresh : h !! fresh (dom h) = None)
    by (apply not_elem_of_dom, is_fresh).
  destruct data as [| l]; [split; [auto | discriminate] |].
  destruct (h !! l) as [a |] eqn:Hl.
  - rewrite (patient_normalise_run h l a Hl).
    destruct (negb _); [split; [auto | discriminate] |].
    destruct (negb _); [split; [auto | discriminate] |].
    destruct (np_nanmax_axis1 a); [| split; [auto | discriminate]].
    cbn [fst snd]. split.
    + intros k b Hk. rewrite lookup_insert_ne; [exact Hk | congruence].
    + intros l' [= <-]. split; [exact Hfresh |].
      split; [rewrite lookup_insert_eq; eauto | congruence].
  - unfold patient_normalise, bind, load. rewrite Hl. split; [auto | discriminate].
Qed.

(** C6: a call of [patient_normalise] leaves every array object of the
    store, the input among them, with the shape and values it had, whether
    it returns or raises; the array it returns is a newly allocated object,
    different from the input; and on a well-formed table without negative
    entries that has a column it does return one. *)
Theorem patient_normalise_input_unchanged (h : heap) (data : pyobj) :
  (forall l a, h !! l = Some a -> (patient_normalise data h).2 !! l = Some a) /\
  (forall l', (patient_normalise data h).1 = Ok l' ->
     h !! l' = None /\ is_Some ((patient_normalise data h).2 !! l') /\
     data <> PyNdarray l') /\
  (forall l a, data = PyNdarray l -> h !! l = Some a ->
     is_table a = true -> non_negative a = true -> (0 < ncols a)%nat ->
     exists l' out,
       (patient_normalise data h).1 = Ok l' /\ l' <> l /\
       (patient_normalise data h).2 !! l' = Some out /\
       (patient_normalise data h).2 !! l = Some a).
Proof.
  destruct (patient_normalise_frame h data) as [Hframe Hnew].
  split; [exact Hframe |]. split; [exact Hnew |].
  intros l a -> Hl Ht Hn Hd.
  pose proof (patient_normalise_ok h l a Hl Ht Hn Hd) as Hrun.
  exists (fresh (dom h)), (patient_normalise_spec a).
  destruct (Hnew (fresh (dom h))) as (_ & _ & Hne); [now rewrite Hrun |].
  split; [now rewrite Hrun |]. split; [congruence |].
  split; [rewrite Hrun; apply lookup_insert_eq | now apply Hframe].
Qed.

(** ** Counting the days above a threshold *)

Lemma fold_count_above_threshold t r : forall acc,
  fold_left count_above_threshold (map (fun x => fgt x t) r) acc =
  acc + count_strictly_greater t r.
Proof.
  induction r as [| x r IH]; intros acc; cbn; [lia |].
  rewrite IH. unfold count_above_threshold. destruct (fgt x t); lia.
Qed.

Lemma count_strictly_greater_none t r :
  Forall (fun x => fgt x t = false) r -> count_strictly_greater t r = 0.
Proof. induction 1 as [| x r Hx _ IH]; cbn; [reflexivity |]. rewrite Hx, IH. reflexivity. Qed.

Lemma count_strictly_greater_all t r :
  Forall (fun x => fgt x t = true) r ->
  count_strictly_greater t r = Z.of_nat (length r).
Proof. induction 1 as [| x r Hx _ IH]; cbn [count_strictly_greater length]; [reflexivity |]. rewrite Hx, IH. lia. Qed.

Lemma count_strictly_greater_bounds t r :
  0 <= count_strictly_greater t r <= Z.of_nat (length r).
Proof.
  induction r as [| x r IH]; cbn [count_strictly_greater length]; [lia |].
  destruct (fgt x t); lia.
Qed.

(** A maximum that is a number bounds every entry, none of which is NaN. *)
Lemma fold_np_maximum_ge l : forall acc,
  isnan (fold_left np_maximum l acc) = false ->
  Forall (fun y => fle y (fold_left np_maximum l acc) = true) (acc :: l).
Proof.
  induction l as [| b l IH]; intros acc Hm; cbn [fold_left] in *.
  - constructor; [now apply fle_refl | constructor].
  - specialize (IH _ Hm). apply Forall_cons in IH as [Hacc' Hl].
    set (m := fold_left np_maximum l (np_maximum acc b)) in *.
    unfold np_maximum, fge in Hacc'.
    destruct (isnan acc) eqn:Ea.
    { rewrite orb_true_r in Hacc'. apply fle_not_nan in Hacc' as [Hacc' _]. congruence. }
    rewrite orb_false_r in Hacc'. change (SFleb b acc) with (fle b acc) in Hacc'.
    destruct (fle b acc) eqn:Eb.
    + repeat constructor; [exact Hacc' | now apply fle_trans with acc | exact Hl].
    + destruct (fle_not_nan _ _ Hacc') as [Hb _].
      repeat constructor; [| exact Hacc' | exact Hl].
      apply fle_trans with b; [| exact Hacc']. now apply fle_total.
Qed.

Lemma fold_np_minimum_le l : forall acc,
  isnan (fold_left np_minimum l acc) = false ->
  Forall (fun y => fle (fold_left np_minimum l acc) y = true) (acc :: l).
Proof.
  induction l as [| b l IH]; intros acc Hm; cbn [fold_left] in *.
  - constructor; [now apply fle_refl | constructor].
  - specialize (IH _ Hm). apply Forall_cons in IH as [Hacc' Hl].
    set (m := fold_left np_minimum l (np_minimum acc b)) in *.
    unfold np_minimum in Hacc'.
    destruct (isnan acc) eqn:Ea.
    { rewrite orb_true_r in Hacc'. apply fle_not_nan in Hacc' as [_ Hacc']. congruence. }
    rewrite orb_false_r in Hacc'.
    destruct (fle acc b) eqn:Eb.
    + repeat constructor; [exact Hacc' | now apply fle_trans with acc | exact Hl].
    + destruct (fle_not_nan _ _ Hacc') as [_ Hb].
      repeat constructor; [| exact Hacc' | exact Hl].
      apply fle_trans with b; [exact Hacc' |]. now apply fle_total.
Qed.

Lemma getitem_in_range a (p : Z) :
  0 <= p < Z.of_nat (nrows a) -> getitem a p = Ok (row (Z.to_nat p) a).
Proof.
  intros Hp. unfold getitem. case_cmp. reflexivity.
Qed.

(** C4: for a valid row index [p], [daily_above_threshold p T t] is the
    number of entries of row [T[p]] strictly greater than [t]; it is 0 when
    [t >= max(T[p])] and the length of the row when [t < min(T[p])]. *)
Theorem daily_above_threshold_count (data : ndarray) (p : Z) (t : float) :
  0 <= p < Z.of_nat (nrows data) ->
  daily_above_threshold p data t =
    Ok (count_strictly_greater t (row (Z.to_nat p) data)) /\
  0 <= count_strictly_greater t (row (Z.to_nat p) data)
    <= Z.of_nat (length (row (Z.to_nat p) data)) /\
  (forall m, reduce "maximum" np_maximum (row (Z.to_nat p) data) = Ok m ->
     fge t m = true -> daily_above_threshold p data t = Ok 0) /\
  (forall m, reduce "minimum" np_minimum (row (Z.to_nat p) data) = Ok m ->
     flt t m = true ->
     daily_above_threshold p data t =
       Ok (Z.of_nat (length (row (Z.to_nat p) data)))).
Proof.
  intros Hp. unfold daily_above_threshold. rewrite (getitem_in_range data p Hp).
  cbn [result_bind]. rewrite fold_count_above_threshold, Z.add_0_l.
  split; [reflexivity |]. split; [apply count_strictly_greater_bounds |].
  destruct (row (Z.to_nat p) data) as [| x r]; [split; intros m; discriminate |].
  cbn [reduce]. split; intros m [= <-] Ht; f_equal.
  - apply count_strictly_greater_none.
    destruct (fle_not_nan _ _ Ht) as [Hm _].
    eapply Forall_impl; [exact (fold_np_maximum_ge r x Hm) |]. cbn.
    intros y Hy. apply flt_fle_false. now apply fle_trans with (fold_left np_maximum r x).
  - apply count_strictly_greater_all.
    destruct (flt_not_nan _ _ Ht) as [_ Hm].
    eapply Forall_impl; [exact (fold_np_minimum_le r x Hm) |]. cbn.
    intros y Hy. now apply flt_fle_trans with (fold_left np_minimum r x).
Qed.

(** C7 (as amended): [daily_above_threshold] raises [IndexError] exactly
    for [patient_num >= P] and [patient_num < -P]; an index [-P <=
    patient_num < 0] counts from the end, as [patient_num + P] does. *)
Theorem daily_above_threshold_index_error (data : ndarray) (p : Z) (t : float) :
  (p < - Z.of_nat (nrows data) \/ Z.of_nat (nrows data) <= p ->
   daily_above_threshold p data t =
     Raise (IndexError "index is out of bounds for axis 0")) /\
  (- Z.of_nat (nrows data) <= p < Z.of_nat (nrows data) ->
   exists n, daily_above_threshold p data t = Ok n) /\
  (- Z.of_nat (nrows data) <= p < 0 ->
   daily_above_threshold p data t =
     daily_above_threshold (p + Z.of_nat (nrows data)) data t).
Proof.
  unfold daily_above_threshold, getitem. split; [| split]; intros Hp.
  - destruct Hp; case_cmp; reflexivity.
  - case_cmp; cbn [orb result_bind]; eauto.
  - case_cmp. reflexivity.
Qed.

(** ** Daily statistics *)

Lemma nth_map_seq {B} (g : nat -> B) (n d : nat) (def : B) :
  (d < n)%nat -> nth d (map g (seq 0 n)) def = g d.
Proof.
  intros Hd. rewrite (nth_indep _ def (g 0%nat)) by (rewrite length_map, length_seq; exact Hd).
  rewrite map_nth, seq_nth by exact Hd. reflexivity.
Qed.

(** The maximum and minimum of a column; NaN stands for the empty column,
    on which the reduction raises. *)
Lemma reduce_nonempty name f (c : list float) :
  c <> [] ->
  reduce name f c = Ok (match c with [] => S754_nan | x :: l => fold_left f l x end).
Proof. destruct c; [congruence | reflexivity]. Qed.

Lemma reduce_axis0_ok ufunc f a :
  (0 < nrows a)%nat ->
  (forall d, column d a <> []) ->
  reduce_axis0 ufunc f a =
  Ok {| shape := [ncols a];
        buf := map (fun d => match column d a with
                             | [] => S754_nan
                             | x :: l => fold_left f l x
                             end) (seq 0 (ncols a)) |}.
Proof.
  intros Hp Hne. unfold reduce_axis0.
  replace (nrows a =? 0)%nat with false by (symmetry; apply Nat.eqb_neq; lia).
  erewrite result_map_ok; [reflexivity |].
  apply Forall_forall. intros d _. cbn beta. apply reduce_nonempty, Hne.
Qed.

Lemma column_length d a : length (column d a) = nrows a.
Proof. unfold column. now rewrite length_map, rows_length. Qed.

Lemma np_maximum_cases a b : np_maximum a b = a \/ np_maximum a b = b.
Proof. unfold np_maximum. destruct (_ || _); auto. Qed.

Lemma np_minimum_cases a b : np_minimum a b = a \/ np_minimum a b = b.
Proof. unfold np_minimum. destruct (_ || _); auto. Qed.

Lemma fold_left_choice (f : float -> float -> float) :
  (forall a b, f a b = a \/ f a b = b) ->
  forall l acc, fold_left f l acc ∈ acc :: l.
Proof.
  intros Hf. induction l as [| b l IH]; intros acc; cbn [fold_left].
  - apply list_elem_of_here.
  - specialize (IH (f acc b)). apply elem_of_cons in IH as [-> | IH].
    + destruct (Hf acc b) as [-> | ->];
        [apply list_elem_of_here | apply list_elem_of_further, list_elem_of_here].
    + now do 2 apply list_elem_of_further.
Qed.

Lemma column_min_le_max (c : list float) :
  c <> [] -> Forall (fun x => isnan x = false) c ->
  let mn := match c with [] => S754_nan | x :: l => fold_left np_minimum l x end in
  let mx := match c with [] => S754_nan | x :: l => fold_left np_maximum l x end in
  mn ∈ c /\ mx ∈ c /\ fle mn mx = true.
Proof.
  destruct c as [| x l]; [congruence |]. intros _ Hc. cbn zeta.
  pose proof (fold_left_choice np_minimum np_minimum_cases l x) as Hmn.
  pose proof (fold_left_choice np_maximum np_maximum_cases l x) as Hmx.
  split; [exact Hmn |]. split; [exact Hmx |].
  rewrite Forall_forall in Hc.
  pose proof (fold_np_maximum_ge l x (Hc _ Hmx)) as Hge.
  rewrite Forall_forall in Hge. now apply Hge.
Qed.

(** ** The mean of a column of whole numbers *)

Lemma zsum_ge_each zs :
  Forall (fun z => 0 <= z) zs -> 0 <= zsum zs /\ Forall (fun z => z <= zsum zs) zs.
Proof.
  induction 1 as [| z zs Hz _ [IH0 IH]]; cbn [zsum fold_right]; [split; [lia | constructor] |].
  fold (zsum zs). split; [lia |]. constructor; [lia |].
  eapply Forall_impl; [exact IH |]. cbn. intros. lia.
Qed.

Lemma zsum_between lo hi zs :
  Forall (fun z => lo <= z <= hi) zs ->
  lo * Z.of_nat (length zs) <= zsum zs <= hi * Z.of_nat (length zs).
Proof.
  induction 1 as [| z zs Hz _ IH]; cbn [zsum fold_right length]; [lia |].
  fold (zsum zs). lia.
Qed.

Lemma fold_fadd_whole zs : forall acc,
  0 <= acc -> Forall (fun z => 0 <= z) zs -> acc + zsum zs < two53 ->
  fold_left fadd (map float_of_int zs) (int_float acc) = int_float (acc + zsum zs).
Proof.
  induction zs as [| z zs IH]; intros acc Hacc Hzs Hsum;
    cbn [zsum fold_right map fold_left] in *.
  - now rewrite Z.add_0_r.
  - fold (zsum zs) in *. apply Forall_cons in Hzs as [Hz Hzs].
    destruct (zsum_ge_each zs Hzs) as [Hs0 _].
    rewrite float_of_int_eq, fadd_int_float by lia.
    rewrite IH; [f_equal; lia | lia | exact Hzs | lia].
Qed.

Lemma np_sum_whole zs :
  Forall (fun z => 0 <= z) zs -> zsum zs < two53 ->
  np_sum (map float_of_int zs) = int_float (zsum zs).
Proof.
  intros Hzs Hsum. unfold np_sum. change zero with (int_float 0).
  now rewrite fold_fadd_whole by (try lia; assumption).
Qed.

Lemma int_float_not_nan z : isnan (int_float z) = false.
Proof. destruct z; reflexivity. Qed.

(** ** Pairwise summation *)

(** Enough fuel: the result does not depend on it. *)
Lemma pairwise_sum_fuel_enough : forall f1 f2 l,
  (length l <= f1)%nat -> (length l <= f2)%nat ->
  pairwise_sum_fuel f1 l = pairwise_sum_fuel f2 l.
Proof.
  induction f1 as [| f1 IH]; intros f2 l H1 H2.
  - destruct l; [| cbn in H1; lia]. now destruct f2.
  - destruct f2 as [| f2].
    + destruct l; [| cbn in H2; lia]. reflexivity.
    + cbn [pairwise_sum_fuel].
      destruct (length l <? 8)%nat eqn:E8; [reflexivity |].
      destruct (length l <=? PW_BLOCKSIZE)%nat eqn:Eb; [reflexivity |].
      apply Nat.ltb_ge in E8. apply Nat.leb_gt in Eb. unfold PW_BLOCKSIZE in Eb.
      set (n2 := (length l / 2 - (length l / 2) mod 8)%nat).
      assert (Hn2 : (0 < n2 < length l)%nat).
      { subst n2. pose proof (Nat.mod_upper_bound (length l / 2) 8 ltac:(lia)).
        pose proof (Nat.Div0.div_lt_upper_bound (length l) 2 (length l) ltac:(lia)).
        assert (64 <= length l / 2)%nat by (apply Nat.div_le_lower_bound; lia).
        lia. }
      rewrite (IH f2 (take n2 l)), (IH f2 (drop n2 l));
        rewrite ?length_take, ?length_drop; try lia.
      reflexivity.
Qed.

(** The equation of the recursion. *)
Lemma pairwise_sum_eq l :
  pairwise_sum l =
  let n := length l in
  if (n <? 8)%nat then fold_left fadd l zero
  else if (n <=? PW_BLOCKSIZE)%nat then pairwise_block l
  else
    let n2 := (n / 2 - (n / 2) mod 8)%nat in
    fadd (pairwise_sum (take n2 l)) (pairwise_sum (drop n2 l)).
Proof.
  unfold pairwise_sum at 1. cbn zeta.
  destruct (length l) as [| f] eqn:El; [now destruct l |].
  cbn [pairwise_sum_fuel]. rewrite El.
  destruct (S f <? 8)%nat eqn:E8; [reflexivity |].
  destruct (S f <=? PW_BLOCKSIZE)%nat eqn:Eb; [reflexivity |].
  apply Nat.ltb_ge in E8. apply Nat.leb_gt in Eb. unfold PW_BLOCKSIZE in Eb.
  unfold pairwise_sum.
  set (n2 := (S f / 2 - (S f / 2) mod 8)%nat).
  assert (Hn2 : (0 < n2 <= f)%nat).
  { subst n2. pose proof (Nat.mod_upper_bound (S f / 2) 8 ltac:(lia)).
    pose proof (Nat.Div0.div_lt_upper_bound (S f) 2 (S f) ltac:(lia)).
    assert (64 <= S f / 2)%nat by (apply Nat.div_le_lower_bound; lia).
    lia. }
  f_equal; apply pairwise_sum_fuel_enough; rewrite ?length_take, ?length_drop; lia.
Qed.

(** *** A NaN entry makes the sum NaN *)

Lemma fadd_nan_l x : fadd S754_nan x = S754_nan.
Proof. reflexivity. Qed.

Lemma fadd_nan_r x : fadd x S754_nan = S754_nan.
Proof. destruct x; reflexivity. Qed.

Lemma fold_fadd_nan l : fold_left fadd l S754_nan = S754_nan.
Proof. induction l as [| x l IH]; cbn [fold_left]; [reflexivity | exact IH]. Qed.

Lemma fold_fadd_nan_in l : forall acc,
  S754_nan ∈ l -> fold_left fadd l acc = S754_nan.
Proof.
  induction l as [| x l IH]; intros acc Hin; [now apply elem_of_nil in Hin |].
  cbn [fold_left]. apply elem_of_cons in Hin as [<- | Hin]; [| now apply IH].
  rewrite fadd_nan_r. apply fold_fadd_nan.
Qed.

Lemma zip_with_fadd_nan r : forall blk,
  length r = length blk -> S754_nan ∈ r \/ S754_nan ∈ blk ->
  S754_nan ∈ zip_with fadd r blk.
Proof.
  induction r as [| x r IH]; intros [| y blk] Hlen Hin; try discriminate Hlen.
  - destruct Hin as [Hin | Hin]; now apply elem_of_nil in Hin.
  - cbn [zip_with]. injection Hlen as Hlen.
    destruct Hin as [Hin | Hin]; apply elem_of_cons in Hin as [<- | Hin].
    + apply list_elem_of_here.
    + apply list_elem_of_further, IH; auto.
    + rewrite fadd_nan_r. apply list_elem_of_here.
    + apply list_elem_of_further, IH; auto.
Qed.

Lemma elem_of_take_drop {A} (x : A) n l :
  x ∈ l -> x ∈ take n l \/ x ∈ drop n l.
Proof. intros Hin. rewrite <- (take_drop n l) in Hin. now apply elem_of_app in Hin. Qed.

Lemma accumulate8_length k : forall r l,
  length r = 8%nat -> (8 * k <= length l)%nat ->
  length (accumulate8 k r l).1 = 8%nat /\
  length (accumulate8 k r l).2 = (length l - 8 * k)%nat.
Proof.
  induction k as [| k IH]; intros r l Hr Hl; cbn [accumulate8 fst snd].
  - split; [exact Hr | lia].
  - destruct (IH (zip_with fadd r (take 8 l)) (drop 8 l)) as [H1 H2].
    + rewrite length_zip_with, length_take. lia.
    + rewrite length_drop. lia.
    + split; [exact H1 |]. rewrite H2, length_drop. lia.
Qed.

Lemma accumulate8_nan k : forall r l,
  length r = 8%nat -> (8 * k <= length l)%nat ->
  S754_nan ∈ r \/ S754_nan ∈ l ->
  S754_nan ∈ (accumulate8 k r l).1 \/ S754_nan ∈ (accumulate8 k r l).2.
Proof.
  induction k as [| k IH]; intros r l Hr Hl Hin; cbn [accumulate8 fst snd]; [exact Hin |].
  apply IH.
  - rewrite length_zip_with, length_take. lia.
  - rewrite length_drop. lia.
  - assert (Hblk : length r = length (take 8 l)) by (rewrite length_take; lia).
    destruct Hin as [Hin | Hin].
    + left. apply zip_with_fadd_nan; auto.
    + destruct (elem_of_take_drop _ 8 _ Hin) as [H | H]; [left | now right].
      apply zip_with_fadd_nan; auto.
Qed.

Lemma sum8_nan r : length r = 8%nat -> S754_nan ∈ r -> sum8 r = S754_nan.
Proof.
  intros Hr Hin.
  destruct r as [| r0 [| r1 [| r2 [| r3 [| r4 [| r5 [| r6 [| r7 [| ? ?]]]]]]]]];
    try discriminate Hr.
  cbn [sum8].
  repeat (apply elem_of_cons in Hin as [<- | Hin];
          [now rewrite ?fadd_nan_r, ?fadd_nan_l, ?fadd_nan_r |]).
  now apply elem_of_nil in Hin.
Qed.

Lemma pairwise_block_nan l :
  (8 <= length l)%nat -> S754_nan ∈ l -> pairwise_block l = S754_nan.
Proof.
  intros Hl Hin. unfold pairwise_block.
  assert (H8 : (8 * (length l / 8) <= length l)%nat) by (apply Nat.Div0.mul_div_le).
  assert (H1 : (1 <= length l / 8)%nat) by (apply Nat.div_le_lower_bound; lia).
  assert (Hr : length (take 8 l) = 8%nat) by (rewrite length_take; lia).
  assert (Hk : (8 * (length l / 8 - 1) <= length (drop 8 l))%nat)
    by (rewrite length_drop; lia).
  pose proof (accumulate8_length _ _ _ Hr Hk) as [Hr' _].
  pose proof (accumulate8_nan _ _ _ Hr Hk (elem_of_take_drop _ 8 _ Hin)) as Hn.
  destruct (accumulate8 _ _ _) as [r rest]. cbn [fst snd] in *.
  destruct Hn as [Hn | Hn].
  - rewrite (sum8_nan r Hr' Hn). apply fold_fadd_nan.
  - now apply fold_fadd_nan_in.
Qed.

Lemma pairwise_sum_fuel_nan fuel : forall l,
  S754_nan ∈ l -> pairwise_sum_fuel fuel l = S754_nan.
Proof.
  induction fuel as [| fuel IH]; intros l Hin; cbn [pairwise_sum_fuel].
  - destruct (length l <? 8)%nat eqn:E8; [now apply fold_fadd_nan_in |].
    apply Nat.ltb_ge in E8.
    destruct (length l <=? PW_BLOCKSIZE)%nat; now apply pairwise_block_nan.
  - destruct (length l <? 8)%nat eqn:E8; [now apply fold_fadd_nan_in |].
    apply Nat.ltb_ge in E8.
    destruct (length l <=? PW_BLOCKSIZE)%nat; [now apply pairwise_block_nan |].
    destruct (elem_of_take_drop _ (length l / 2 - (length l / 2) mod 8) _ Hin)
      as [H | H]; rewrite (IH _ H); [reflexivity | apply fadd_nan_r].
Qed.

Lemma add_reduce_lane_nan l : S754_nan ∈ l -> add_reduce_lane l = S754_nan.
Proof.
  intros Hin. unfold add_reduce_lane, pairwise_sum.
  now rewrite pairwise_sum_fuel_nan.
Qed.

(** *** Whole numbers are added without rounding *)

Lemma zsum_app xs ys : zsum (xs ++ ys)%list = zsum xs + zsum ys.
Proof.
  unfold zsum. induction xs as [| x xs IH]; cbn [fold_right app]; lia.
Qed.

Lemma zsum_take_drop n zs : zsum (take n zs) + zsum (drop n zs) = zsum zs.
Proof. now rewrite <- zsum_app, take_drop. Qed.

Lemma zsum_nonneg zs : Forall (fun z => 0 <= z) zs -> 0 <= zsum zs.
Proof. intros H. now apply zsum_ge_each in H. Qed.

Lemma map_float_of_int_small zs :
  Forall (fun z => 0 <= z) zs -> zsum zs < two53 ->
  map float_of_int zs = map int_float zs.
Proof.
  intros Hzs Hsum. destruct (zsum_ge_each zs Hzs) as [_ Heach].
  apply map_ext_Forall. rewrite Forall_forall in Hzs, Heach.
  apply Forall_forall. intros z Hz. apply float_of_int_eq.
  specialize (Hzs z Hz). specialize (Heach z Hz). lia.
Qed.

Lemma fold_fadd_int_float zs : forall acc,
  0 <= acc -> Forall (fun z => 0 <= z) zs -> acc + zsum zs < two53 ->
  fold_left fadd (map int_float zs) (int_float acc) = int_float (acc + zsum zs).
Proof.
  intros acc Hacc Hzs Hsum.
  rewrite <- map_float_of_int_small by (try assumption; lia).
  now apply fold_fadd_whole.
Qed.

Lemma zip_with_fadd_int_float rs : forall zs,
  length rs = length zs ->
  Forall (fun z => 0 <= z) rs -> Forall (fun z => 0 <= z) zs ->
  zsum rs + zsum zs < two53 ->
  zip_with fadd (map int_float rs) (map int_float zs) =
    map int_float (zip_with Z.add rs zs) /\
  Forall (fun z => 0 <= z) (zip_with Z.add rs zs) /\
  zsum (zip_with Z.add rs zs) = zsum rs + zsum zs.
Proof.
  induction rs as [| r rs IH]; intros [| z zs] Hlen Hrs Hzs Hsum;
    try discriminate Hlen.
  - repeat split. constructor.
  - injection Hlen as Hlen.
    apply Forall_cons in Hrs as [Hr Hrs]. apply Forall_cons in Hzs as [Hz Hzs].
    pose proof (zsum_nonneg rs Hrs). pose proof (zsum_nonneg zs Hzs).
    cbn [zsum fold_right] in Hsum. fold (zsum rs) (zsum zs) in Hsum.
    destruct (IH zs Hlen Hrs Hzs ltac:(lia)) as (E & Hnn & Es).
    cbn [zip_with map zsum fold_right].
    fold (zsum (zip_with Z.add rs zs)) (zsum rs) (zsum zs).
    rewrite E, fadd_int_float by lia.
    split; [reflexivity |]. split; [constructor; [lia | exact Hnn] | lia].
Qed.

Lemma accumulate8_int_float k : forall rs zs,
  length rs = 8%nat -> (8 * k <= length zs)%nat ->
  Forall (fun z => 0 <= z) rs -> Forall (fun z => 0 <= z) zs ->
  zsum rs + zsum zs < two53 ->
  exists rs' zs',
    accumulate8 k (map int_float rs) (map int_float zs) =
      (map int_float rs', map int_float zs') /\
    length rs' = 8%nat /\
    Forall (fun z => 0 <= z) rs' /\ Forall (fun z => 0 <= z) zs' /\
    zsum rs' + zsum zs' = zsum rs + zsum zs.
Proof.
  induction k as [| k IH]; intros rs zs Hr Hl Hrs Hzs Hsum; cbn [accumulate8].
  - exists rs, zs. auto.
  - pose proof (zsum_take_drop 8 zs) as Hsplit.
    assert (Htake : Forall (fun z => 0 <= z) (take 8 zs)) by now apply Forall_take.
    assert (Hdrop : Forall (fun z => 0 <= z) (drop 8 zs)) by now apply Forall_drop.
    pose proof (zsum_nonneg _ Htake). pose proof (zsum_nonneg _ Hdrop).
    destruct (zip_with_fadd_int_float rs (take 8 zs)) as (E & Hnn & Es);
      [rewrite length_take; lia | assumption | assumption | lia |].
    rewrite <- !fmap_take, <- !fmap_drop.
    change (int_float <$> take 8 zs) with (map int_float (take 8 zs)).
    change (int_float <$> drop 8 zs) with (map int_float (drop 8 zs)).
    rewrite E.
    destruct (IH (zip_with Z.add rs (take 8 zs)) (drop 8 zs))
      as (rs' & zs' & Eacc & Hr' & Hrs' & Hzs' & Esum);
      [rewrite length_zip_with, length_take; lia | rewrite length_drop; lia
      | assumption | assumption | lia |].
    exists rs', zs'. rewrite Eacc. repeat split; try assumption. lia.
Qed.

Lemma sum8_int_float rs :
  length rs = 8%nat -> Forall (fun z => 0 <= z) rs -> zsum rs < two53 ->
  sum8 (map int_float rs) = int_float (zsum rs).
Proof.
  intros Hr Hrs Hsum.
  destruct rs as [| r0 [| r1 [| r2 [| r3 [| r4 [| r5 [| r6 [| r7 [| ? ?]]]]]]]]];
    try discriminate Hr.
  repeat (apply Forall_cons in Hrs as [? Hrs]).
  cbn [zsum fold_right] in *. cbn [sum8 map].
  rewrite !fadd_int_float by lia. f_equal. lia.
Qed.

Lemma pairwise_block_int_float zs :
  (8 <= length zs)%nat -> Forall (fun z => 0 <= z) zs -> zsum zs < two53 ->
  pairwise_block (map int_float zs) = int_float (zsum zs).
Proof.
  intros Hl Hzs Hsum. unfold pairwise_block. rewrite length_map.
  assert (H8 : (8 * (length zs / 8) <= length zs)%nat) by (apply Nat.Div0.mul_div_le).
  assert (H1 : (1 <= length zs / 8)%nat) by (apply Nat.div_le_lower_bound; lia).
  pose proof (zsum_take_drop 8 zs) as Hsplit.
  assert (Htake : Forall (fun z => 0 <= z) (take 8 zs)) by now apply Forall_take.
  assert (Hdrop : Forall (fun z => 0 <= z) (drop 8 zs)) by now apply Forall_drop.
  rewrite <- !fmap_take, <- !fmap_drop.
  change (int_float <$> take 8 zs) with (map int_float (take 8 zs)).
  change (int_float <$> drop 8 zs) with (map int_float (drop 8 zs)).
  destruct (accumulate8_int_float (length zs / 8 - 1) (take 8 zs) (drop 8 zs))
    as (rs' & zs' & Eacc & Hr' & Hrs' & Hzs' & Esum);
    [rewrite length_take; lia | rewrite length_drop; lia
    | assumption | assumption | lia |].
  rewrite Eacc.
  pose proof (zsum_nonneg _ Hrs'). pose proof (zsum_nonneg _ Hzs').
  rewrite sum8_int_float by (try assumption; lia).
  rewrite fold_fadd_int_float by (try assumption; lia).
  f_equal. lia.
Qed.

Lemma pairwise_sum_fuel_int_float fuel : forall zs,
  Forall (fun z => 0 <= z) zs -> zsum zs < two53 ->
  pairwise_sum_fuel fuel (map int_float zs) = int_float (zsum zs).
Proof.
  induction fuel as [| fuel IH]; intros zs Hzs Hsum; cbn [pairwise_sum_fuel];
    rewrite length_map.
  - destruct (length zs <? 8)%nat eqn:E8.
    + change zero with (int_float 0). now rewrite fold_fadd_int_float by (try assumption; lia).
    + apply Nat.ltb_ge in E8.
      destruct (length zs <=? PW_BLOCKSIZE)%nat; now apply pairwise_block_int_float.
  - destruct (length zs <? 8)%nat eqn:E8.
    + change zero with (int_float 0). now rewrite fold_fadd_int_float by (try assumption; lia).
    + apply Nat.ltb_ge in E8.
      destruct (length zs <=? PW_BLOCKSIZE)%nat; [now apply pairwise_block_int_float |].
      set (n2 := (length zs / 2 - (length zs / 2) mod 8)%nat).
      pose proof (zsum_take_drop n2 zs) as Hsplit.
      assert (Htake : Forall (fun z => 0 <= z) (take n2 zs)) by now apply Forall_take.
      assert (Hdrop : Forall (fun z => 0 <= z) (drop n2 zs)) by now apply Forall_drop.
      pose proof (zsum_nonneg _ Htake). pose proof (zsum_nonneg _ Hdrop).
      rewrite <- fmap_take, <- fmap_drop.
      change (int_float <$> take n2 zs) with (map int_float (take n2 zs)).
      change (int_float <$> drop n2 zs) with (map int_float (drop n2 zs)).
      rewrite !IH by (try assumption; lia).
      rewrite fadd_int_float by lia. f_equal. lia.
Qed.

Lemma add_reduce_lane_whole zs :
  Forall (fun z => 0 <= z) zs -> zsum zs < two53 ->
  add_reduce_lane (map float_of_int zs) = int_float (zsum zs).
Proof.
  intros Hzs Hsum. unfold add_reduce_lane, pairwise_sum.
  rewrite map_float_of_int_small, pairwise_sum_fuel_int_float by assumption.
  change zero with (int_float 0).
  pose proof (zsum_nonneg _ Hzs). now rewrite fadd_int_float by lia.
Qed.

(** *** The order of the additions along axis 0 *)

Lemma np_sum_nan l : S754_nan ∈ l -> np_sum l = S754_nan.
Proof. apply fold_fadd_nan_in. Qed.

Lemma add_reduce_axis0_nan a l :
  S754_nan ∈ l -> add_reduce_axis0 a l = S754_nan.
Proof.
  intros Hin. unfold add_reduce_axis0.
  destruct (ncols a =? 1)%nat; [now apply add_reduce_lane_nan | now apply np_sum_nan].
Qed.

Lemma add_reduce_axis0_whole a zs :
  Forall (fun z => 0 <= z) zs -> zsum zs < two53 ->
  add_reduce_axis0 a (map float_of_int zs) = int_float (zsum zs).
Proof.
  intros Hzs Hsum. unfold add_reduce_axis0.
  destruct (ncols a =? 1)%nat; [now apply add_reduce_lane_whole | now apply np_sum_whole].
Qed.

Lemma add_reduce_axis0_nil a : add_reduce_axis0 a [] = zero.
Proof. unfold add_reduce_axis0. now destruct (ncols a =? 1)%nat. Qed.

(** *** The mean between the minimum and the maximum *)

Section WholeNumberMean.

(** Any order of additions that adds whole numbers without rounding. *)
Variable add_reduce : list float -> float.
Hypothesis add_reduce_whole : forall zs,
  Forall (fun z => 0 <= z) zs -> zsum zs < two53 ->
  add_reduce (map float_of_int zs) = int_float (zsum zs).

(** On a column of whole numbers whose total is below [2 ^ 53], the
    float64 mean lies between the minimum and the maximum. *)
Lemma column_mean_between (c : list float) (zs : list Z) :
  c <> [] -> whole_numbers c zs ->
  let mn := match c with [] => S754_nan | x :: l => fold_left np_minimum l x end in
  let mx := match c with [] => S754_nan | x :: l => fold_left np_maximum l x end in
  fle mn (np_mean_lane add_reduce c) = true /\
  fle (np_mean_lane add_reduce c) mx = true.
Proof.
  intros Hne (Hc & Hzs & Hsum & Hlen). rewrite <- two53_eq in Hsum, Hlen.
  destruct (zsum_ge_each zs Hzs) as [Hs0 Heach].
  assert (Hsmall : Forall (fun z => 0 <= z < two53) zs).
  { rewrite Forall_forall in Hzs, Heach. apply Forall_forall. intros z Hz.
    specialize (Hzs z Hz). specialize (Heach z Hz). lia. }
  assert (Hcint : c = map int_float zs).
  { rewrite Hc. apply map_ext_Forall.
    eapply Forall_impl; [exact Hsmall |]. cbn. intros z Hz. now apply float_of_int_eq. }
  assert (Hnan : Forall (fun x => isnan x = false) c).
  { rewrite Hcint. apply Forall_map, Forall_forall. intros. apply int_float_not_nan. }
  assert (Hmean : np_mean_lane add_reduce c =
                  fdiv (int_float (zsum zs)) (int_float (Z.of_nat (length zs)))).
  { unfold np_mean_lane. rewrite Hc at 1. rewrite add_reduce_whole by assumption.
    rewrite Hc at 1. rewrite length_map, float_of_int_eq by lia. reflexivity. }
  destruct (column_min_le_max c Hne Hnan) as (Hmn & Hmx & _).
  destruct c as [| x l]; [congruence |]. cbn zeta in *.
  pose proof (fold_np_minimum_le l x) as Hle.
  pose proof (fold_np_maximum_ge l x) as Hge.
  rewrite Forall_forall in Hnan.
  specialize (Hle (Hnan _ Hmn)). specialize (Hge (Hnan _ Hmx)).
  set (mn := fold_left np_minimum l x) in *. set (mx := fold_left np_maximum l x) in *.
  rewrite Hcint in Hmn, Hmx, Hle, Hge.
  apply list_elem_of_In, in_map_iff in Hmn as (lo & Elo & Hlo).
  apply list_elem_of_In, in_map_iff in Hmx as (hi & Ehi & Hhi).
  apply list_elem_of_In in Hlo, Hhi.
  rewrite Forall_forall in Hsmall.
  pose proof (Hsmall lo Hlo) as Hlo'. pose proof (Hsmall hi Hhi) as Hhi'.
  assert (Hbetween : Forall (fun z => lo <= z <= hi) zs).
  { apply Forall_forall. intros z Hz.
    rewrite Forall_forall in Hle, Hge.
    assert (Hzin : int_float z ∈ map int_float zs) by (apply list_elem_of_In, in_map, list_elem_of_In, Hz).
    pose proof (Hle _ Hzin) as H1. pose proof (Hge _ Hzin) as H2.
    rewrite <- Elo in H1. rewrite <- Ehi in H2.
    split; apply fle_int_float; auto. }
  apply zsum_between in Hbetween.
  assert (Hn : 0 < Z.of_nat (length zs)).
  { apply (f_equal (@length float)) in Hcint. rewrite length_map in Hcint. cbn in Hcint. lia. }
  rewrite Hmean, <- Elo, <- Ehi.
  destruct (int_float_pos (Z.of_nat (length zs)) ltac:(lia))
    as (mp & ep & -> & Hbp & _ & _ & _ & Hvp).
  destruct (Z.eq_dec (zsum zs) 0) as [Hz0 | Hz0].
  { rewrite Hz0. assert (lo = 0) by nia. assert (hi = 0).
    { rewrite Forall_forall in Heach. specialize (Heach hi Hhi). lia. }
    subst lo hi. split; reflexivity. }
  destruct (int_float_pos (zsum zs) ltac:(lia)) as (ms & es & -> & Hbs & _ & _ & _ & Hvs).
  assert (Hhipos : 0 < hi) by nia.
  destruct (int_float_pos hi ltac:(lia)) as (mh & eh & -> & Hbh & _ & _ & _ & Hvh).
  assert (Hp1074 : 0 < 2 ^ 1074) by (apply Z.pow_pos_nonneg; lia).
  assert (Hup : fval ms es * 2 ^ 1074 <= fval mh eh * fval mp ep).
  { rewrite Hvs, Hvh, Hvp. generalize dependent (2 ^ 1074). intros. nia. }
  destruct (fdiv_le ms mp mh es ep eh Hbs Hbp Hbh Hup) as [Hzero Hupper].
  split; [| exact Hupper].
  destruct (Z.eq_dec lo 0) as [-> | Hlo0]; [exact Hzero |].
  destruct (int_float_pos lo ltac:(lia)) as (ml & el & -> & Hbl & _ & _ & _ & Hvl).
  apply fdiv_ge; try assumption.
  rewrite Hvs, Hvl, Hvp. generalize dependent (2 ^ 1074). intros. nia.
Qed.

End WholeNumberMean.

(** C5 (as amended): on a table with at least one patient, [daily_mean],
    [daily_max], [daily_min] and [daily_std] each return one value per day;
    for a day whose column holds no NaN, the minimum and the maximum are
    entries of the column with minimum <= maximum; and for a day whose
    column holds whole numbers, none negative, with a total below 2^53,
    minimum <= mean <= maximum. *)
Theorem daily_stats_per_day (T : ndarray) :
  is_table T = true -> (0 < nrows T)%nat ->
  exists mx mn,
    daily_max T = Ok mx /\ daily_min T = Ok mn /\
    (shape (daily_mean T) = [ncols T] /\ length (buf (daily_mean T)) = ncols T) /\
    (shape mx = [ncols T] /\ length (buf mx) = ncols T) /\
    (shape mn = [ncols T] /\ length (buf mn) = ncols T) /\
    (shape (daily_std T) = [ncols T] /\ length (buf (daily_std T)) = ncols T) /\
    forall d, (d < ncols T)%nat ->
      (Forall (fun x => isnan x = false) (column d T) ->
       nth d (buf mn) S754_nan ∈ column d T /\
       nth d (buf mx) S754_nan ∈ column d T /\
       fle (nth d (buf mn) S754_nan) (nth d (buf mx) S754_nan) = true) /\
      (forall zs, whole_numbers (column d T) zs ->
       fle (nth d (buf mn) S754_nan) (nth d (buf (daily_mean T)) S754_nan) = true /\
       fle (nth d (buf (daily_mean T)) S754_nan) (nth d (buf mx) S754_nan) = true).
Proof.
  intros Ht Hp.
  assert (Hne : forall d, column d T <> []).
  { intros d Hc. pose proof (column_length d T) as Hlen. rewrite Hc in Hlen. cbn in Hlen. lia. }
  eexists _, _.
  split; [now apply reduce_axis0_ok |].
  split; [now apply reduce_axis0_ok |].
  unfold daily_mean, daily_std, apply_axis0.
  cbn [shape buf]. rewrite !length_map, !length_seq.
  do 4 (split; [split; reflexivity |]).
  intros d Hd.
  rewrite (nth_map_seq (fun d => np_mean_lane (add_reduce_axis0 T) (column d T)))
    by exact Hd.
  rewrite (nth_map_seq (fun d => match column d T with
                                 | [] => S754_nan
                                 | x :: l => fold_left np_minimum l x
                                 end)) by exact Hd.
  rewrite (nth_map_seq (fun d => match column d T with
                                 | [] => S754_nan
                                 | x :: l => fold_left np_maximum l x
                                 end)) by exact Hd.
  split.
  - intros Hc. now apply column_min_le_max.
  - intros zs Hzs.
    apply (column_mean_between _ (add_reduce_axis0_whole T) (column d T) zs);
      [apply Hne | exact Hzs].
Qed.

(** ** Patients and their observations *)

Lemma last_map {A B} (f : A -> B) (l : list A) :
  last (map f l) = option_map f (last l).
Proof.
  induction l as [| x [| y l] IH]; [reflexivity | reflexivity |].
  exact IH.
Qed.

(** C8: [add_observation(value)] without a day appends an observation
    whose day is the last observation's day plus one, or 0 when there is
    none, and returns it; a fresh patient with the values 5 and 7 added has
    the days [0, 1], the values [5, 7] and 7 as the last value. *)
Theorem add_observation_auto_day (p : Patient) (v : pynum) :
  observations (add_observation p v None).1 =
    (observations p ++ [(add_observation p v None).2])%list /\
  Patient_person (add_observation p v None).1 = Patient_person p /\
  value (add_observation p v None).2 = v /\
  day (add_observation p v None).2 =
    match last_observation p with
    | Ok o => day o + 1
    | Raise _ => 0
    end /\
  last_observation (add_observation p v None).1 = Ok (add_observation p v None).2 /\
  (forall nm,
     let alice := Patient_init nm None in
     let alice := (add_observation alice (PyInt 5) None).1 in
     let alice := (add_observation alice (PyInt 7) None).1 in
     days alice = [0; 1] /\
     map value (observations alice) = [PyInt 5; PyInt 7] /\
     match last_observation alice with
     | Ok o => value o = PyInt 7
     | Raise _ => False
     end).
Proof.
  unfold add_observation, last_observation. cbn [fst snd observations Patient_person value day].
  rewrite last_snoc.
  destruct (last (observations p)); repeat split; reflexivity.
Qed.

Lemma ordered_by_day_snoc (ds : list Z) (d : Z) :
  ordered_by_day (ds ++ [d])%list =
  ordered_by_day ds && match last ds with
                       | Some dl => dl <=? d
                       | None => true
                       end.
Proof.
  induction ds as [| d1 [| d2 ds] IH]; [reflexivity | |].
  - cbn. now rewrite andb_true_r.
  - change (ordered_by_day ((d1 :: d2 :: ds) ++ [d]))
      with ((d1 <=? d2) && ordered_by_day ((d2 :: ds) ++ [d])).
    rewrite IH.
    change (ordered_by_day (d1 :: d2 :: ds))
      with ((d1 <=? d2) && ordered_by_day (d2 :: ds)).
    change (last (d1 :: d2 :: ds)) with (last (d2 :: ds)).
    now rewrite andb_assoc.
Qed.

Lemma days_add_observation (p : Patient) (v : pynum) (d : option Z) :
  days (add_observation p v d).1 =
  (days p ++ [match d with
              | Some d => d
              | None => match last (days p) with
                        | Some dl => dl + 1
                        | None => 0
                        end
              end])%list.
Proof.
  unfold days, add_observation. cbn [fst observations].
  rewrite map_app, last_map. cbn [map day].
  destruct d; [reflexivity |]. now destruct (last (observations p)).
Qed.

Lemma add_observation_auto_ordered (p : Patient) (v : pynum) :
  ordered_by_day (days p) = true ->
  ordered_by_day (days (add_observation p v None).1) = true.
Proof.
  intros Ho. rewrite days_add_observation, ordered_by_day_snoc, Ho.
  destruct (last (days p)); [apply Z.leb_le; lia | reflexivity].
Qed.

(** C10 (as amended): the observations of a patient stay ordered by day
    when they were ordered and [add_observation] is called without a day, or
    with a day that is not below the day of the last observation; a smaller
    explicit day is appended as given and breaks the order. *)
Theorem add_observation_keeps_order (p : Patient) (v : pynum) (d : option Z)
    (vs : list pynum) :
  ordered_by_day (days p) = true ->
  ordered_by_day (days (add_observation p v d).1) =
    match d, last (days p) with
    | Some d, Some dl => dl <=? d
    | _, _ => true
    end /\
  ordered_by_day (days (add_observations p vs)) = true.
Proof.
  intros Ho. split.
  - rewrite days_add_observation, ordered_by_day_snoc, Ho.
    destruct d, (last (days p)); try reflexivity. apply Z.leb_le. lia.
  - unfold add_observations. revert p Ho.
    induction vs as [| w vs IH]; intros p Ho; cbn [fold_left]; [exact Ho |].
    apply IH. now apply add_observation_auto_ordered.
Qed.

(** ** Doctors and their patients *)

Lemma name_known_spec ps nm :
  name_known ps nm = true <-> nm ∈ map (fun p => name (Patient_person p)) ps.
Proof.
  induction ps as [| q ps IH]; cbn [name_known map].
  - split; [discriminate | intros H; now apply elem_of_nil in H].
  - rewrite elem_of_cons. destruct (String.eqb_spec (name (Patient_person q)) nm) as [E | E].
    + split; auto.
    + rewrite IH. split; [auto | intros [? | ?]; congruence].
Qed.

Lemma add_patient_known (d : Doctor) (p : Patient) :
  name (Patient_person p) ∈ patient_names d -> add_patient d p = d.
Proof.
  intros H. apply name_known_spec in H. unfold add_patient. now rewrite H.
Qed.

Lemma add_patient_new (d : Doctor) (p : Patient) :
  name (Patient_person p) ∉ patient_names d ->
  add_patient d p =
  {| Doctor_person := Doctor_person d; patients := (patients d ++ [p])%list |}.
Proof.
  intros H. unfold add_patient.
  destruct (name_known (patients d) (name (Patient_person p))) eqn:E; [| reflexivity].
  apply name_known_spec in E. contradiction.
Qed.

Lemma add_patient_then_known (d : Doctor) (p : Patient) :
  name (Patient_person p) ∈ patient_names (add_patient d p).
Proof.
  destruct (decide (name (Patient_person p) ∈ patient_names d)) as [H | H].
  - now rewrite add_patient_known.
  - rewrite add_patient_new by assumption. unfold patient_names. cbn [patients].
    rewrite map_app. apply elem_of_app. right. apply list_elem_of_here.
Qed.

(** C9: [add_patient] appends the patient when no patient of the doctor
    has the same name and does nothing otherwise; the names of the patients
    stay pairwise distinct, the patients already there keep their places,
    and a second patient with the name of the first leaves a new doctor with
    one patient. *)
Theorem add_patient_unique_names (d : Doctor) (p : Patient) :
  NoDup (patient_names d) ->
  (name (Patient_person p) ∈ patient_names d -> add_patient d p = d) /\
  (name (Patient_person p) ∉ patient_names d ->
   patients (add_patient d p) = (patients d ++ [p])%list) /\
  NoDup (patient_names (add_patient d p)) /\
  patients d `prefix_of` patients (add_patient d p) /\
  Doctor_person (add_patient d p) = Doctor_person d /\
  (forall q, name (Patient_person q) = name (Patient_person p) ->
     add_patient (add_patient d p) q = add_patient d p) /\
  (forall nm q, name (Patient_person q) = name (Patient_person p) ->
     length (patients (add_patient (add_patient (Doctor_init nm) p) q)) = 1%nat).
Proof.
  intros Hnd.
  split; [apply add_patient_known |].
  split; [intros H; now rewrite add_patient_new |].
  split; [| split; [| split; [| split]]].
  - destruct (decide (name (Patient_person p) ∈ patient_names d)) as [H | H].
    + now rewrite add_patient_known.
    + rewrite add_patient_new by assumption. unfold patient_names. cbn [patients].
      rewrite map_app. apply NoDup_app. split; [exact Hnd |]. split.
      * intros x Hx Hx'. apply list_elem_of_singleton in Hx'. now subst x.
      * apply NoDup_singleton.
  - destruct (decide (name (Patient_person p) ∈ patient_names d)) as [H | H].
    + now rewrite add_patient_known.
    + rewrite add_patient_new by assumption. cbn [patients]. now apply prefix_app_r.
  - destruct (decide (name (Patient_person p) ∈ patient_names d)) as [H | H].
    + now rewrite add_patient_known.
    + now rewrite add_patient_new.
  - intros q Hq. apply add_patient_known. rewrite Hq. apply add_patient_then_known.
  - intros nm q Hq. rewrite (add_patient_known (add_patient (Doctor_init nm) p) q).
    + reflexivity.
    + rewrite Hq. apply add_patient_then_known.
Qed.

(** ** The claims on sample data *)

Example daily_statistics_three_patients :
  daily_mean three_patients =
    {| shape := [2%nat];
       buf := [float_of_int 3; fdiv (float_of_int 7) (float_of_int 3)] |} /\
  daily_max three_patients =
    Ok {| shape := [2%nat]; buf := [float_of_int 5; float_of_int 4] |} /\
  daily_min three_patients =
    Ok {| shape := [2%nat]; buf := [float_of_int 1; float_of_int 1] |}.
Proof. repeat split; vm_compute; reflexivity. Qed.

Example patient_normalise_two_patients :
  patient_normalise (PyNdarray 1%positive) (store_of two_patients) =
  (Ok 2%positive,
   <[2%positive :=
       {| shape := [2%nat; 2%nat];
          buf := [fdiv (float_of_int 1) (float_of_int 2); float_of_int 1;
                  fdiv (float_of_int 3) (float_of_int 4); float_of_int 1] |}]>
     (store_of two_patients)).
Proof. vm_compute. reflexivity. Qed.

Example daily_above_threshold_five_days :
  daily_above_threshold 0 five_days (float_of_int 3) = Ok 2 /\
  daily_above_threshold 0 five_days (float_of_int 5) = Ok 0 /\
  daily_above_threshold 0 five_days (float_of_int 0) = Ok 5.
Proof. repeat split; vm_compute; reflexivity. Qed.

Example add_patient_case_sensitive :
  length (patients (add_patient (add_patient (Doctor_init "Who") bob)
                                (Patient_init "bob" None))) = 2%nat.
Proof. reflexivity. Qed.

(** Two patients at the largest finite value: the column sum overflows and
    the mean is infinite. *)
Example daily_mean_overflow :
  let big := SFmax_float prec emax in
  daily_mean {| shape := [2%nat; 1%nat]; buf := [big; big] |} =
    {| shape := [1%nat]; buf := [S754_infinity false] |} /\
  daily_max {| shape := [2%nat; 1%nat]; buf := [big; big] |} =
    Ok {| shape := [1%nat]; buf := [big] |}.
Proof. split; vm_compute; reflexivity. Qed.

(** Eight entries 0.1 added pairwise give 0.8 and the mean 0.1 without
    error, where adding them in order would give a mean just below 0.1; the
    deviation of the eight entries from their mean is then 0. *)
Example daily_mean_eight_tenths :
  daily_mean eight_tenths = {| shape := [1%nat]; buf := [tenth] |} /\
  daily_std eight_tenths = {| shape := [1%nat]; buf := [zero] |} /\
  patient_std_dev add_reduce_lane eight_days = {| shape := [1%nat]; buf := [zero] |} /\
  np_mean_lane np_sum (repeat tenth 8) = S754_finite false 7205759403792793 (-56) /\
  tenth = S754_finite false 7205759403792794 (-56).
Proof. repeat split; vm_compute; reflexivity. Qed.

(** C5, counterexample: three patients with the value 0.1 on the only day.
    The float64 sum 0.1 + 0.1 + 0.1 is 0.30000000000000004 and the mean
    0.10000000000000002, above the maximum 0.1. *)
Lemma daily_mean_exceeds_daily_max :
  is_table three_tenths = true /\ nrows three_tenths = 3%nat /\
  daily_mean three_tenths =
    {| shape := [1%nat]; buf := [S754_finite false 7205759403792795 (-56)] |} /\
  daily_max three_tenths =
    Ok {| shape := [1%nat]; buf := [S754_finite false 7205759403792794 (-56)] |} /\
  fle (S754_finite false 7205759403792795 (-56))
      (S754_finite false 7205759403792794 (-56)) = false.
Proof. repeat split; vm_compute; reflexivity. Qed.

(** C7, counterexample: -1 is not in the range [0 <= patient_num < 1], and
    the call returns the count of the last row. *)
Lemma daily_above_threshold_negative_index :
  nrows five_days = 1%nat /\ ~ (0 <= -1 < Z.of_nat (nrows five_days)) /\
  daily_above_threshold (-1) five_days (float_of_int 3) = Ok 2.
Proof. split; [reflexivity |]. split; [lia | vm_compute; reflexivity]. Qed.

(** C10, counterexample: day 5 then day 2, both given, on a fresh
    patient. *)
Lemma explicit_day_breaks_order :
  let p := (add_observation alice (PyInt 1) (Some 5)).1 in
  let p := (add_observation p (PyInt 1) (Some 2)).1 in
  days p = [5; 2] /\ ordered_by_day (days p) = false.
Proof. split; reflexivity. Qed.

(** ** The theorems at sample inputs *)

Lemma patient_normalise_unit_interval_witness :
  store_of zero_row_table !! 1%positive = Some zero_row_table /\
  is_table zero_row_table = true /\ non_negative zero_row_table = true /\
  exists l' out,
    patient_normalise (PyNdarray 1%positive) (store_of zero_row_table) =
      (Ok l', <[l' := out]> (store_of zero_row_table)) /\
    Forall (fun y => in_unit_interval y = true) (buf out) /\
    row 0 out = repeat zero 2.
Proof.
  split; [reflexivity |]. split; [reflexivity |]. split; [reflexivity |].
  destruct (patient_normalise_unit_interval (store_of zero_row_table) 1%positive
              zero_row_table eq_refl eq_refl eq_refl)
    as [(H & _) | (l' & out & _ & Hrun & _ & Hunit & _ & Hzero)]; [discriminate H |].
  exists l', out. split; [exact Hrun |]. split; [exact Hunit |].
  apply (Hzero 0%nat); [vm_compute; lia | repeat constructor].
Defined.

Lemma patient_normalise_refines_spec_witness :
  exists l',
    patient_normalise (PyNdarray 1%positive) (store_of two_patients) =
      (Ok l', <[l' := patient_normalise_spec two_patients]> (store_of two_patients)).
Proof.
  destruct (patient_normalise_refines_spec (store_of two_patients) 1%positive
              two_patients eq_refl eq_refl eq_refl)
    as (l' & Hrun & _).
  - vm_compute. lia.
  - exists l'. exact Hrun.
Defined.

Lemma patient_normalise_validation_witness :
  patient_normalise (PyNdarray 1%positive) (store_of negative_table) =
  (Raise (ValueError "Inflammation values should not be negative"),
   store_of negative_table).
Proof.
  apply (proj2 (patient_normalise_validation (store_of negative_table)
                  (PyNdarray 1%positive)) 1%positive negative_table eq_refl eq_refl).
  - reflexivity.
  - exists (float_of_int (-2)). split; [| reflexivity].
    apply list_elem_of_further, list_elem_of_here.
Defined.

Lemma daily_above_threshold_count_witness :
  daily_above_threshold 0 five_days (float_of_int 3) =
  Ok (count_strictly_greater (float_of_int 3) (row 0 five_days)).
Proof.
  apply (daily_above_threshold_count five_days 0 (float_of_int 3)).
  vm_compute. split; [discriminate | reflexivity].
Defined.

Lemma daily_stats_per_day_witness :
  exists mx mn,
    daily_max three_patients = Ok mx /\ daily_min three_patients = Ok mn /\
    length (buf (daily_mean three_patients)) = 2%nat /\ length (buf mx) = 2%nat /\
    length (buf mn) = 2%nat /\ length (buf (daily_std three_patients)) = 2%nat /\
    fle (nth 0 (buf mn) S754_nan) (nth 0 (buf (daily_mean three_patients)) S754_nan)
      = true /\
    fle (nth 0 (buf (daily_mean three_patients)) S754_nan) (nth 0 (buf mx) S754_nan)
      = true.
Proof.
  destruct (daily_stats_per_day three_patients eq_refl)
    as (mx & mn & H1 & H2 & [_ L1] & [_ L2] & [_ L3] & [_ L4] & Hd).
  - vm_compute. lia.
  - exists mx, mn. do 6 (split; [assumption |]).
    destruct (Hd 0%nat) as (_ & Hwhole); [vm_compute; lia |].
    apply (Hwhole [1; 3; 5]).
    split; [reflexivity |]. split; [repeat constructor; lia |].
    split; [reflexivity | reflexivity].
Defined.

Lemma patient_normalise_input_unchanged_witness :
  (patient_normalise (PyNdarray 1%positive) (store_of two_patients)).2 !! 1%positive =
  Some two_patients.
Proof.
  apply (proj1 (patient_normalise_input_unchanged (store_of two_patients)
                  (PyNdarray 1%positive))).
  reflexivity.
Defined.

Lemma daily_above_threshold_index_error_witness :
  daily_above_threshold 1 five_days (float_of_int 3) =
  Raise (IndexError "index is out of bounds for axis 0").
Proof.
  apply (proj1 (daily_above_threshold_index_error five_days 1 (float_of_int 3))).
  right. vm_compute. discriminate.
Defined.

Lemma add_patient_unique_names_witness :
  length (patients (add_patient (add_patient (Doctor_init "Who") bob) bob_again)) = 1%nat.
Proof.
  destruct (add_patient_unique_names (Doctor_init "Who") bob) as (_ & _ & _ & _ & _ & _ & H).
  - apply NoDup_nil_2.
  - apply (H "Who" bob_again). reflexivity.
Defined.

Lemma add_observation_keeps_order_witness :
  ordered_by_day (days (add_observations alice [PyInt 5; PyInt 7])) = true.
Proof.
  apply (add_observation_keeps_order alice (PyInt 0) None [PyInt 5; PyInt 7]).
  reflexivity.
Defined.

(** * Further properties *)

(** ** float64: sign and canonical form of a rounded result *)

(** Rounding a non-negative mantissa gives +0, a positive number or
    +infinity. *)
Lemma binary_round_aux_sign q e l :
  0 <= q ->
  isnan (binary_round_aux prec emax false q e l) = false /\
  fle zero (binary_round_aux prec emax false q e l) = true.
Proof.
  intros Hq.
  destruct (binary_round_aux_stages q e l Hq)
    as (k & m2 & m3 & e3 & Hk & Hm2 & _ & Hm1 & _ & Hfin & ->).
  assert (Hk0 : 0 <= k) by lia.
  assert (0 <= q / 2 ^ k) by (apply Z.div_pos; [lia | apply Z.pow_pos_nonneg; lia]).
  assert (Hm3 : 0 <= m3).
  { destruct Hfin as [(-> & _) | (-> & _)]; [lia | unfold two52; lia]. }
  destruct m3 as [| p | p]; [split; reflexivity | | lia].
  destruct (e3 <=? 971); split; reflexivity.
Qed.

(** With enough digits in the mantissa for its exponent, the rounded result
    is a float64 in canonical form. *)
Lemma binary_round_aux_valid q e l :
  0 <= q -> e <= Z.max (Zdigits2 q + e - 53) (-1074) ->
  float_valid (binary_round_aux prec emax false q e l) = true.
Proof.
  intros Hq Hdesign.
  destruct (binary_round_aux_stages q e l Hq)
    as (k & m2 & m3 & e3 & Hk & Hm2 & _ & Hm1 & He1 & Hfin & ->).
  assert (Hk0 : 0 <= k) by lia.
  assert (Hpk : 0 < 2 ^ k) by (apply Z.pow_pos_nonneg; lia).
  assert (Hm1pos : 0 <= q / 2 ^ k) by (apply Z.div_pos; lia).
  assert (Hcanon : m3 = 0 \/
                   0 < m3 /\ Z.max (Zdigits2 m3 + e3 - 53) (-1074) = e3).
  { destruct Hfin as [(-> & -> & Hlt) | (-> & -> & _)].
    - destruct (Z.eq_dec m2 0) as [| Hnz]; [now left | right].
      split; [lia |].
      pose proof (Zdigits2_le_53 m2 ltac:(lia)) as Hd.
      destruct (Z.eq_dec (e + k) (-1074)) as [Hsub | Hnorm]; [lia |].
      assert (Hq0 : 0 < q).
      { destruct (Z.eq_dec q 0) as [-> |]; [| lia]. cbn [Zdigits2] in *. lia. }
      destruct (Zdigits2_bounds q Hq0) as [Hd1 _].
      assert (Hk53 : k = Zdigits2 q - 53) by lia.
      assert (two52 <= q / 2 ^ k).
      { apply Z.div_le_lower_bound; [lia |].
        rewrite two52_eq, <- Z.pow_add_r by lia.
        replace (k + 52) with (Zdigits2 q - 1) by lia. exact Hd1. }
      assert (Zdigits2 m2 = 53); [| lia].
      apply Zdigits2_unique; [lia |].
      change (2 ^ (53 - 1)) with two52. rewrite <- two53_eq. lia.
    - right. split; [unfold two52; lia |].
      change (Zdigits2 two52) with 53. lia. }
  destruct Hcanon as [-> | [Hpos Hcanon]]; [reflexivity |].
  destruct m3 as [| p | p]; try lia.
  destruct (e3 <=? 971) eqn:Ee; [| reflexivity].
  unfold float_valid, valid_binary, bounded, canonical_mantissa.
  rewrite fexp_eq. change (Z.pos (digits2_pos p)) with (Zdigits2 (Z.pos p)).
  apply andb_true_intro. split; [apply Z.eqb_eq; exact Hcanon | exact Ee].
Qed.

(** The integer quotient computed by the division has enough digits. *)
Lemma fdiv_quotient_digits (mx my : positive) (ex ey : Z) :
  let e' := Z.min (Z.max (Z.pos (digits2_pos mx) + ex
                          - (Z.pos (digits2_pos my) + ey) - 53) (-1074))
                  (ex - ey) in
  let q := Z.pos mx * 2 ^ (ex - ey - e') / Z.pos my in
  0 <= q /\ e' <= Z.max (Zdigits2 q + e' - 53) (-1074).
Proof.
  intros e' q.
  pose proof (digits2_pos_bounds mx) as [Hx1 Hx2].
  pose proof (digits2_pos_bounds my) as [Hy1 Hy2].
  set (dx := Z.pos (digits2_pos mx)) in *. set (dy := Z.pos (digits2_pos my)) in *.
  assert (Hdx : 0 < dx) by (subst dx; lia). assert (Hdy : 0 < dy) by (subst dy; lia).
  assert (Hs : 0 <= ex - ey - e') by (subst e'; lia).
  assert (Hp : forall n, 0 <= n -> 0 < 2 ^ n) by (intros; now apply Z.pow_pos_nonneg).
  set (m' := Z.pos mx * 2 ^ (ex - ey - e')) in *.
  assert (Hm'pos : 0 < m') by (subst m'; pose proof (Hp _ Hs); lia).
  assert (Hm'lo : 2 ^ (dx - 1 + (ex - ey - e')) <= m').
  { subst m'. rewrite Z.pow_add_r by lia.
    apply Z.mul_le_mono_nonneg_r; [apply Z.pow_nonneg; lia | exact Hx1]. }
  pose proof (Z.div_mod m' (Z.pos my) ltac:(lia)) as Hdm.
  pose proof (Z.mod_pos_bound m' (Z.pos my) ltac:(lia)) as Hmb.
  assert (Hq0 : 0 <= q) by (apply Z.div_pos; lia).
  split; [exact Hq0 |]. fold q in Hdm.
  destruct (Z.eq_dec q 0) as [Hz | Hnz].
  - rewrite Hz. cbn [Zdigits2].
    assert (dx - 1 + (ex - ey - e') < dy); [| subst e'; lia].
    apply pow2_lt_inv; [lia |]. rewrite Hz in Hdm. lia.
  - destruct (Zdigits2_bounds q) as [_ Hq2]; [lia |].
    pose proof (Zdigits2_pos q ltac:(lia)) as Hdq.
    assert (dx + (ex - ey - e') - dy <= Zdigits2 q); [| subst e'; lia].
    destruct (Z_le_gt_dec (dx + (ex - ey - e') - dy) 0) as [| Hpos]; [lia |].
    assert (dx - 1 + (ex - ey - e') - dy < Zdigits2 q); [| lia].
    apply pow2_lt_inv; [lia |].
    eapply Z.le_lt_trans; [| exact Hq2].
    assert (H1 : 2 ^ (dx - 1 + (ex - ey - e') - dy) * 2 ^ dy <= m').
    { rewrite <- Z.pow_add_r by lia.
      replace (dx - 1 + (ex - ey - e') - dy + dy) with (dx - 1 + (ex - ey - e')) by lia.
      exact Hm'lo. }
    pose proof (Hp dy ltac:(lia)) as Hpdy.
    pose proof (Hp (dx - 1 + (ex - ey - e') - dy) ltac:(lia)) as Hpa.
    nia.
Qed.

(** The quotient of two positive finite numbers is a float64. *)
Lemma fdiv_finite_valid mx ex my ey :
  float_valid (fdiv (S754_finite false mx ex) (S754_finite false my ey)) = true /\
  isnan (fdiv (S754_finite false mx ex) (S754_finite false my ey)) = false /\
  fle zero (fdiv (S754_finite false mx ex) (S754_finite false my ey)) = true.
Proof.
  rewrite fdiv_finite.
  destruct (fdiv_quotient_digits mx my ex ey) as [Hq Hd].
  split; [now apply binary_round_aux_valid |]. now apply binary_round_aux_sign.
Qed.

(** Two floats that bound each other are the same float, or two zeros. *)
Lemma fle_antisym x y :
  fle x y = true -> fle y x = true ->
  x = y \/ is_zero x = true /\ is_zero y = true.
Proof.
  intros Hxy Hyx.
  destruct (fle_not_nan _ _ Hxy) as [Hx Hy].
  apply fle_key in Hxy; auto. apply fle_key in Hyx; auto.
  unfold lex_le in *.
  destruct x as [sx | [] | | [] mx ex], y as [sy | [] | | [] my ey];
    try discriminate; cbn in Hxy, Hyx; try lia; auto.
  - left. f_equal; lia.
  - left. f_equal; lia.
Qed.

(** [x / x = 1] and [x / 1 = x] for a positive finite float64. *)
Lemma fdiv_self mx ex :
  bounded prec emax mx ex = true ->
  fdiv (S754_finite false mx ex) (S754_finite false mx ex) = one.
Proof.
  intros Hx.
  assert (Hval : fval mx ex * 2 ^ 1074 = fval 4503599627370496 (-52) * fval mx ex).
  { rewrite fval_one. apply Z.mul_comm. }
  destruct (fdiv_le mx mx 4503599627370496 ex ex (-52) Hx Hx one_bounded) as [_ Hle]; [lia |].
  pose proof (fdiv_ge mx mx 4503599627370496 ex ex (-52) Hx Hx one_bounded ltac:(lia)) as Hge.
  rewrite one_eq.
  destruct (fle_antisym _ _ Hle Hge) as [H | [_ H]]; [exact H | discriminate H].
Qed.

Lemma fdiv_one mx ex :
  bounded prec emax mx ex = true ->
  fdiv (S754_finite false mx ex) one = S754_finite false mx ex.
Proof.
  intros Hx.
  assert (Hval : fval mx ex * 2 ^ 1074 = fval mx ex * fval 4503599627370496 (-52)).
  { now rewrite fval_one. }
  rewrite one_eq.
  destruct (fdiv_le mx 4503599627370496 mx ex (-52) ex Hx one_bounded Hx) as [_ Hle]; [lia |].
  pose proof (fdiv_ge mx 4503599627370496 mx ex (-52) ex Hx one_bounded Hx ltac:(lia)) as Hge.
  destruct (fle_antisym _ _ Hle Hge) as [H | [_ H]]; [exact H | discriminate H].
Qed.

(** A square root is NaN or not below zero. *)
Lemma fsqrt_sign x : isnan (fsqrt x) = true \/ fle zero (fsqrt x) = true.
Proof.
  destruct x as [[] | [] | | [] m e]; try (left; reflexivity); try (right; reflexivity).
  right. unfold fsqrt, SFsqrt, SFsqrt_core_binary.
    set (m' := match _ - _ with 0 => _ | Z.pos _ => _ | Z.neg _ => _ end).
    assert (Hm' : 0 <= m').
    { subst m'. destruct (_ - _) as [| p | p]; [lia | | lia].
      apply Z.shiftl_nonneg. lia. }
    pose proof (Z.sqrtrem_spec m' Hm') as Hs.
    destruct (Z.sqrtrem m') as [q r].
  apply binary_round_aux_sign. lia.
Qed.

(** ** Daily statistics: bounds, NaN and empty tables *)

Lemma lookup_map_seq {B} (g : nat -> B) (n d : nat) :
  (d < n)%nat -> map g (seq 0 n) !! d = Some (g d).
Proof.
  intros Hd. rewrite list_lookup_fmap, lookup_seq_lt by exact Hd. reflexivity.
Qed.

Lemma column_nonempty d a : (0 < nrows a)%nat -> column d a <> [].
Proof.
  intros Hp Hc. pose proof (column_length d a) as Hlen. rewrite Hc in Hlen.
  cbn in Hlen. lia.
Qed.

Lemma elem_of_nonempty {A} (x : A) l : x ∈ l -> (0 < length l)%nat.
Proof. destruct 1; cbn; lia. Qed.

(** X1: on a day whose column holds no NaN, [daily_max] is at least and
    [daily_min] at most every entry of the column. *)
Theorem daily_max_min_bound_column (T : ndarray) (d : nat) :
  (0 < nrows T)%nat -> (d < ncols T)%nat ->
  Forall (fun x => isnan x = false) (column d T) ->
  exists mx mn hi lo,
    daily_max T = Ok mx /\ daily_min T = Ok mn /\
    buf mx !! d = Some hi /\ buf mn !! d = Some lo /\
    Forall (fun x => fle lo x = true /\ fle x hi = true) (column d T).
Proof.
  intros Hp Hd Hnan.
  pose proof (column_nonempty d T Hp) as Hne.
  eexists _, _, _, _.
  split; [apply reduce_axis0_ok; [exact Hp | intros; now apply column_nonempty] |].
  split; [apply reduce_axis0_ok; [exact Hp | intros; now apply column_nonempty] |].
  cbn [buf]. split; [now apply lookup_map_seq |]. split; [now apply lookup_map_seq |].
  destruct (column_min_le_max _ Hne Hnan) as (Hmn & Hmx & _).
  destruct (column d T) as [| x l]; [congruence |]. cbn zeta in *.
  rewrite Forall_forall in Hnan.
  pose proof (fold_np_minimum_le l x (Hnan _ Hmn)) as Hle.
  pose proof (fold_np_maximum_ge l x (Hnan _ Hmx)) as Hge.
  rewrite Forall_forall in Hle, Hge. apply Forall_forall. intros y Hy. auto.
Qed.

Lemma np_maximum_nan_l b : np_maximum S754_nan b = S754_nan.
Proof. destruct b; reflexivity. Qed.

Lemma np_maximum_nan_r a : np_maximum a S754_nan = S754_nan.
Proof. destruct a; reflexivity. Qed.

Lemma np_minimum_nan_l b : np_minimum S754_nan b = S754_nan.
Proof. destruct b; reflexivity. Qed.

Lemma np_minimum_nan_r a : np_minimum a S754_nan = S754_nan.
Proof. destruct a; reflexivity. Qed.

Lemma fold_np_maximum_nan l : forall acc,
  S754_nan ∈ acc :: l -> fold_left np_maximum l acc = S754_nan.
Proof.
  induction l as [| b l IH]; intros acc Hin; cbn [fold_left].
  - apply list_elem_of_singleton in Hin. congruence.
  - apply IH. apply elem_of_cons in Hin as [<- | Hin].
    + rewrite np_maximum_nan_l. apply list_elem_of_here.
    + apply elem_of_cons in Hin as [<- | Hin]; [| now apply list_elem_of_further].
      rewrite np_maximum_nan_r. apply list_elem_of_here.
Qed.

Lemma fold_np_minimum_nan l : forall acc,
  S754_nan ∈ acc :: l -> fold_left np_minimum l acc = S754_nan.
Proof.
  induction l as [| b l IH]; intros acc Hin; cbn [fold_left].
  - apply list_elem_of_singleton in Hin. congruence.
  - apply IH. apply elem_of_cons in Hin as [<- | Hin].
    + rewrite np_minimum_nan_l. apply list_elem_of_here.
    + apply elem_of_cons in Hin as [<- | Hin]; [| now apply list_elem_of_further].
      rewrite np_minimum_nan_r. apply list_elem_of_here.
Qed.

(** X2: a NaN anywhere in the column of a day makes [daily_max] and
    [daily_min] NaN on that day. *)
Theorem daily_max_min_propagate_nan (T : ndarray) (d : nat) :
  (d < ncols T)%nat -> S754_nan ∈ column d T ->
  exists mx mn,
    daily_max T = Ok mx /\ daily_min T = Ok mn /\
    buf mx !! d = Some S754_nan /\ buf mn !! d = Some S754_nan.
Proof.
  intros Hd Hin.
  assert (Hp : (0 < nrows T)%nat).
  { rewrite <- (column_length d T). now apply elem_of_nonempty in Hin. }
  eexists _, _.
  split; [apply reduce_axis0_ok; [exact Hp | intros; now apply column_nonempty] |].
  split; [apply reduce_axis0_ok; [exact Hp | intros; now apply column_nonempty] |].
  cbn [buf]. rewrite !lookup_map_seq by exact Hd.
  destruct (column d T) as [| x l]; [now apply elem_of_nil in Hin |].
  now rewrite fold_np_maximum_nan, fold_np_minimum_nan.
Qed.

Lemma fsub_nan_r x : fsub x S754_nan = S754_nan.
Proof. destruct x; reflexivity. Qed.

Section NanInAnyOrder.

(** Any order of additions that adds every entry. *)
Variable add_reduce : list float -> float.
Hypothesis add_reduce_nan : forall l, S754_nan ∈ l -> add_reduce l = S754_nan.

Lemma np_mean_lane_nan l : S754_nan ∈ l -> np_mean_lane add_reduce l = S754_nan.
Proof. intros Hin. unfold np_mean_lane. now rewrite add_reduce_nan. Qed.

Lemma np_std_lane_nan l : S754_nan ∈ l -> np_std_lane add_reduce l = S754_nan.
Proof.
  intros Hin. unfold np_std_lane. rewrite (add_reduce_nan l Hin).
  rewrite add_reduce_nan; [reflexivity |].
  apply elem_of_nonempty in Hin. destruct l as [| x l]; [cbn in Hin; lia |].
  cbn [map]. rewrite fsub_nan_r. apply list_elem_of_here.
Qed.

End NanInAnyOrder.

(** X3: a NaN anywhere in the column of a day makes [daily_mean] and
    [daily_std] NaN on that day. *)
Theorem daily_mean_std_propagate_nan (T : ndarray) (d : nat) :
  (d < ncols T)%nat -> S754_nan ∈ column d T ->
  buf (daily_mean T) !! d = Some S754_nan /\
  buf (daily_std T) !! d = Some S754_nan.
Proof.
  intros Hd Hin. unfold daily_mean, daily_std, apply_axis0. cbn [buf].
  rewrite !lookup_map_seq by exact Hd.
  rewrite np_mean_lane_nan, np_std_lane_nan;
    auto using add_reduce_axis0_nan.
Qed.

Lemma column_no_rows d a : nrows a = 0%nat -> column d a = [].
Proof.
  intros Hp. pose proof (column_length d a) as Hlen. rewrite Hp in Hlen.
  now destruct (column d a).
Qed.

(** X4: on a table without patients [daily_max] and [daily_min] raise
    [ValueError], while [daily_mean] and [daily_std] return NaN for every
    day. *)
Theorem daily_stats_no_patients (T : ndarray) :
  nrows T = 0%nat ->
  daily_max T = Raise (zero_size "maximum") /\
  daily_min T = Raise (zero_size "minimum") /\
  daily_mean T = {| shape := [ncols T]; buf := repeat S754_nan (ncols T) |} /\
  daily_std T = {| shape := [ncols T]; buf := repeat S754_nan (ncols T) |}.
Proof.
  intros Hp. unfold daily_max, daily_min, reduce_axis0. rewrite Hp.
  do 2 (split; [reflexivity |]).
  unfold daily_mean, daily_std, apply_axis0.
  split; f_equal.
  - transitivity (repeat S754_nan (length (seq 0 (ncols T)))); [| now rewrite length_seq].
    apply map_const_repeat, Forall_forall. intros d _. rewrite column_no_rows by exact Hp.
    unfold np_mean_lane, np_std_lane. cbn [map length].
    now rewrite add_reduce_axis0_nil.
  - transitivity (repeat S754_nan (length (seq 0 (ncols T)))); [| now rewrite length_seq].
    apply map_const_repeat, Forall_forall. intros d _. rewrite column_no_rows by exact Hp.
    unfold np_mean_lane, np_std_lane. cbn [map length].
    now rewrite add_reduce_axis0_nil.
Qed.

(** X5: [daily_std] returns one value per day, none below zero: each one
    is NaN or at least 0. *)
Theorem daily_std_not_negative (T : ndarray) :
  length (buf (daily_std T)) = ncols T /\
  Forall (fun s => isnan s = true \/ fle zero s = true) (buf (daily_std T)).
Proof.
  unfold daily_std, apply_axis0. cbn [buf]. rewrite length_map, length_seq.
  split; [reflexivity |]. apply Forall_map, Forall_forall. intros d _. apply fsqrt_sign.
Qed.

(** X6: [patient_std_dev] returns one value per patient, none below zero:
    each one is NaN or at least 0, in whatever order numpy adds up a row. *)
Theorem patient_std_dev_not_negative (add_reduce : list float -> float)
    (T : ndarray) :
  shape (patient_std_dev add_reduce T) = [nrows T] /\
  length (buf (patient_std_dev add_reduce T)) = nrows T /\
  Forall (fun s => isnan s = true \/ fle zero s = true)
         (buf (patient_std_dev add_reduce T)).
Proof.
  unfold patient_std_dev, apply_axis1. cbn [shape buf].
  rewrite length_map, rows_length.
  do 2 (split; [reflexivity |]). apply Forall_map, Forall_forall. intros r _.
  apply fsqrt_sign.
Qed.

(** ** Whole-number columns: exact mean and zero deviation *)

Section WholeNumbersInAnyOrder.

(** Any order of additions that adds whole numbers without rounding. *)
Variable add_reduce : list float -> float.
Hypothesis add_reduce_whole : forall zs,
  Forall (fun z => 0 <= z) zs -> zsum zs < two53 ->
  add_reduce (map float_of_int zs) = int_float (zsum zs).

(** On a column of whole numbers whose total is [k] times the number of
    entries, the float64 mean is [k], without rounding. *)
Lemma np_mean_lane_exact (c : list float) (zs : list Z) (k : Z) :
  c <> [] -> whole_numbers c zs -> zsum zs = k * Z.of_nat (length zs) ->
  np_mean_lane add_reduce c = int_float k /\ 0 <= k < two53.
Proof.
  intros Hne (Hc & Hzs & Hsum & Hlen) Hk. rewrite <- two53_eq in Hsum, Hlen.
  destruct (zsum_ge_each zs Hzs) as [Hs0 _].
  assert (Hn : 0 < Z.of_nat (length zs)).
  { destruct zs; [rewrite Hc in Hne; cbn in Hne; congruence | cbn [length]; lia]. }
  assert (Hk0 : 0 <= k < two53) by nia.
  split; [| exact Hk0].
  unfold np_mean_lane. rewrite Hc at 1. rewrite add_reduce_whole by assumption.
  rewrite Hc at 1. rewrite length_map, float_of_int_eq by lia.
  destruct (int_float_pos (Z.of_nat (length zs)) ltac:(lia))
    as (mp & ep & -> & Hbp & _ & _ & _ & Hvp).
  destruct (Z.eq_dec k 0) as [-> | Hknz].
  { rewrite Hk. reflexivity. }
  assert (Hspos : 0 < zsum zs) by nia.
  destruct (int_float_pos (zsum zs) ltac:(lia)) as (ms & es & -> & Hbs & _ & _ & _ & Hvs).
  destruct (int_float_pos k ltac:(lia)) as (mk & ek & -> & Hbk & _ & _ & _ & Hvk).
  assert (Heq : fval ms es * 2 ^ 1074 = fval mk ek * fval mp ep).
  { rewrite Hvs, Hvk, Hvp, Hk. ring. }
  destruct (fdiv_le ms mp mk es ep ek Hbs Hbp Hbk ltac:(lia)) as [_ Hle].
  pose proof (fdiv_ge ms mp mk es ep ek Hbs Hbp Hbk ltac:(lia)) as Hge.
  destruct (fle_antisym _ _ Hle Hge) as [H | [_ H]]; [exact H | discriminate H].
Qed.

End WholeNumbersInAnyOrder.

(** X7: on a day whose column holds whole numbers, none negative, whose
    total is [k] times the number of patients, [daily_mean] is exactly
    [k]. *)
Theorem daily_mean_exact (T : ndarray) (d : nat) (zs : list Z) (k : Z) :
  (0 < nrows T)%nat -> (d < ncols T)%nat ->
  whole_numbers (column d T) zs -> zsum zs = k * Z.of_nat (nrows T) ->
  buf (daily_mean T) !! d = Some (float_of_int k).
Proof.
  intros Hp Hd Hw Hk. unfold daily_mean, apply_axis0. cbn [buf].
  rewrite lookup_map_seq by exact Hd. f_equal.
  assert (Hlen : length zs = nrows T).
  { destruct Hw as (Hc & _). apply (f_equal (@length float)) in Hc.
    now rewrite column_length, length_map in Hc. }
  destruct (np_mean_lane_exact _ (add_reduce_axis0_whole T) (column d T) zs k)
    as [Hm Hk0]; [now apply column_nonempty | exact Hw | now rewrite Hlen |].
  now rewrite float_of_int_eq.
Qed.

Lemma fsub_self x :
  isnan x = false -> is_infinity x = false -> fsub x x = zero.
Proof.
  destruct x as [[] | [] | | s m e]; try discriminate; try reflexivity.
  intros _ _. unfold fsub, SFsub. rewrite Z.sub_diag. reflexivity.
Qed.

Lemma zsum_repeat k n : zsum (repeat k n) = k * Z.of_nat n.
Proof.
  induction n as [| n IH]; cbn [repeat zsum fold_right]; [lia |].
  fold (zsum (repeat k n)). lia.
Qed.

Lemma Forall_eq_repeat {A} (x : A) l :
  Forall (fun y => y = x) l -> l = repeat x (length l).
Proof. induction 1 as [| y l -> _ IH]; cbn; [reflexivity | now rewrite <- IH]. Qed.

Section ConstantInAnyOrder.

(** Any order of additions that adds whole numbers without rounding. *)
Variable add_reduce : list float -> float.
Hypothesis add_reduce_whole : forall zs,
  Forall (fun z => 0 <= z) zs -> zsum zs < two53 ->
  add_reduce (map float_of_int zs) = int_float (zsum zs).

Lemma add_reduce_zeros n : add_reduce (repeat zero n) = zero.
Proof.
  replace (repeat zero n) with (map float_of_int (repeat 0 n))
    by (induction n as [| n IH]; cbn [repeat map]; [reflexivity | now rewrite IH]).
  rewrite add_reduce_whole.
  - rewrite zsum_repeat. reflexivity.
  - apply Forall_forall. intros z Hz. apply list_elem_of_In, repeat_spec in Hz. lia.
  - rewrite zsum_repeat. reflexivity.
Qed.

Lemma fdiv_zero_int n : 0 < n < two53 -> fdiv zero (int_float n) = zero.
Proof.
  intros Hn. destruct (int_float_pos n Hn) as (m & e & -> & _). reflexivity.
Qed.

(** The deviation of a list of equal whole numbers is +0. *)
Lemma np_std_lane_constant (c : list float) (k : Z) :
  c <> [] -> Forall (fun x => x = float_of_int k) c ->
  0 <= k -> Z.of_nat (length c) < two53 -> k * Z.of_nat (length c) < two53 ->
  np_std_lane add_reduce c = zero.
Proof.
  intros Hne Hall Hk Hlen Hsum.
  assert (Hn : 0 < Z.of_nat (length c)) by (destruct c; [congruence | cbn [length]; lia]).
  assert (Hk53 : 0 <= k < two53) by nia.
  apply Forall_eq_repeat in Hall.
  assert (Hw : whole_numbers c (repeat k (length c))).
  { split; [rewrite Hall at 1; clear; induction (length c); cbn; congruence |].
    split; [apply Forall_forall; intros z Hz; apply list_elem_of_In, repeat_spec in Hz; lia |].
    rewrite zsum_repeat, repeat_length, <- two53_eq. lia. }
  destruct (np_mean_lane_exact add_reduce add_reduce_whole c _ k Hne Hw)
    as [Hmean _].
  { now rewrite zsum_repeat, repeat_length. }
  unfold np_std_lane. change (fdiv (add_reduce c) (float_of_int (Z.of_nat (length c))))
    with (np_mean_lane add_reduce c). rewrite Hmean.
  assert (Hdev : map (fun v => fmul v v) (map (fun v => fsub v (int_float k)) c) =
                 repeat zero (length c)).
  { rewrite map_map. apply map_const_repeat. rewrite Hall.
    apply Forall_forall. intros x Hx. apply list_elem_of_In, repeat_spec in Hx. subst x.
    rewrite float_of_int_eq by exact Hk53.
    rewrite fsub_self; [reflexivity | apply int_float_not_nan |].
    destruct k; reflexivity. }
  rewrite Hdev, add_reduce_zeros, float_of_int_eq by lia.
  now rewrite fdiv_zero_int by lia.
Qed.

End ConstantInAnyOrder.

(** X8: on a day on which every patient has the same whole number, not
    negative, [daily_std] is exactly 0. *)
Theorem daily_std_constant_day (T : ndarray) (d : nat) (k : Z) :
  (0 < nrows T)%nat -> (d < ncols T)%nat ->
  Forall (fun x => x = float_of_int k) (column d T) ->
  0 <= k -> Z.of_nat (nrows T) < 2 ^ 53 -> k * Z.of_nat (nrows T) < 2 ^ 53 ->
  buf (daily_std T) !! d = Some zero.
Proof.
  intros Hp Hd Hall Hk Hlen Hsum. unfold daily_std, apply_axis0. cbn [buf].
  rewrite lookup_map_seq by exact Hd. f_equal.
  apply (np_std_lane_constant _ (add_reduce_axis0_whole T) _ k); try assumption.
  - now apply column_nonempty.
  - now rewrite column_length, two53_eq.
  - now rewrite column_length, two53_eq.
Qed.

(** ** The normalised table, normalised again *)

(** The float64 values that are not negative. *)
Lemma not_negative_cases x :
  float_valid x = true -> flt x zero = false ->
  x = S754_nan \/ is_zero x = true \/ x = S754_infinity false \/
  exists m e, x = S754_finite false m e /\ bounded prec emax m e = true.
Proof.
  intros Vx Nx. destruct x as [s | [] | | [] m e]; try discriminate Nx; auto.
  right. right. right. now exists m, e.
Qed.

Lemma in_unit_cases y :
  float_valid y = true -> in_unit_interval y = true ->
  y = zero \/ y = S754_zero true \/
  exists m e, y = S754_finite false m e /\ bounded prec emax m e = true.
Proof.
  intros Vy Hu. pose proof (in_unit_not_negative y Hu) as Hn.
  destruct y as [[] | [] | | [] m e]; try discriminate Hu; try discriminate Hn; auto.
  right. right. now exists m, e.
Qed.

(** A quotient of float64 values that are not negative is a float64. *)
Lemma fdiv_valid x m :
  float_valid x = true -> float_valid m = true ->
  flt x zero = false -> flt m zero = false ->
  float_valid (fdiv x m) = true.
Proof.
  intros Vx Vm Nx Nm.
  destruct (not_negative_cases x Vx Nx) as [-> | [Hx | [-> | (mx & ex & -> & Hbx)]]];
  destruct (not_negative_cases m Vm Nm) as [-> | [Hm | [-> | (mm & em & -> & Hbm)]]];
    try reflexivity;
    try (destruct x; try discriminate Hx; reflexivity);
    try (destruct m; try discriminate Hm; reflexivity).
  - destruct x; try discriminate Hx. destruct m; try discriminate Hm. reflexivity.
  - apply fdiv_finite_valid.
Qed.

Lemma clean_valid y :
  float_valid y = true -> float_valid (clamp_negative (nan_to_zero y)) = true.
Proof.
  intros Vy. unfold clamp_negative, nan_to_zero.
  destruct (isnan y); [reflexivity |]. now destruct (flt y zero).
Qed.

Lemma normalise_row_valid r :
  Forall (fun x => float_valid x = true) r ->
  Forall (fun x => flt x zero = false) r ->
  Forall (fun y => float_valid y = true) (normalise_row_spec r).
Proof.
  intros Hv Hn. destruct (row_max_valid r Hv Hn) as [Hmv Hmn].
  unfold normalise_row_spec. apply Forall_map.
  rewrite Forall_forall in Hv, Hn. apply Forall_forall. intros x Hx.
  apply clean_valid, fdiv_valid; auto.
Qed.

Lemma in_unit_not_infinity y : in_unit_interval y = true -> is_infinity y = false.
Proof. destruct y as [| [] | |]; try reflexivity; intros H; discriminate H. Qed.

(** Dividing a cell of [0, 1] by 1 and cleaning up gives the cell back. *)
Lemma normalise_cell_one y :
  float_valid y = true -> in_unit_interval y = true ->
  clamp_negative (nan_to_zero (fdiv y one)) = y.
Proof.
  intros Vy Hu.
  destruct (in_unit_cases y Vy Hu) as [-> | [-> | (m & e & -> & Hb)]];
    [reflexivity | reflexivity |].
  rewrite fdiv_one by exact Hb. reflexivity.
Qed.

(** The maximum of a row that holds a positive entry and no infinite one is
    a positive finite number of the row. *)
Lemma row_max_positive r x :
  Forall (fun x => float_valid x = true) r ->
  Forall (fun x => flt x zero = false) r ->
  Forall (fun x => is_infinity x = false) r ->
  x ∈ r -> flt zero x = true ->
  exists m e, row_max_ignoring_nan r = S754_finite false m e /\
              bounded prec emax m e = true /\ S754_finite false m e ∈ r.
Proof.
  intros Hv Hn Hi Hx Hpos.
  destruct (row_max_ignoring_nan_spec r) as [Hm Hle].
  rewrite Forall_forall in Hv, Hn, Hi, Hle.
  destruct (flt_not_nan _ _ Hpos) as [_ Hxn].
  pose proof (Hle x Hx Hxn) as Hxm.
  destruct (fle_not_nan _ _ Hxm) as [_ Hmn].
  destruct Hm as [Hm | Hm]; [congruence |].
  pose proof (flt_fle_trans _ _ _ Hpos Hxm) as Hmpos.
  specialize (Hi _ Hm). specialize (Hv _ Hm).
  destruct (row_max_ignoring_nan r) as [s | s | | [] m e]; try discriminate.
  exists m, e. auto.
Qed.

(** The maximum of a row without a positive or infinite entry is NaN or
    zero, and the row is normalised to zeros. *)
Lemma normalise_row_no_positive r :
  Forall (fun x => float_valid x = true) r ->
  Forall (fun x => flt x zero = false) r ->
  Forall (fun x => is_infinity x = false) r ->
  Forall (fun x => flt zero x = false) r ->
  normalise_row_spec r = repeat zero (length r).
Proof.
  intros Hv Hn Hi Hnp.
  destruct (row_max_valid r Hv Hn) as [Hmv Hmn].
  destruct (row_max_ignoring_nan_spec r) as [Hm _].
  rewrite Forall_forall in Hv, Hn, Hi, Hnp.
  assert (Hmz : isnan (row_max_ignoring_nan r) = true \/
                is_zero (row_max_ignoring_nan r) = true).
  { destruct Hm as [Hm | Hm]; [now left |].
    specialize (Hi _ Hm). specialize (Hnp _ Hm).
    destruct (not_negative_cases _ Hmv Hmn) as [E | [E | [E | (m & e & E & _)]]];
      [left; now rewrite E | now right | rewrite E in Hi; discriminate Hi |].
    rewrite E in Hnp. discriminate Hnp. }
  unfold normalise_row_spec. apply map_const_repeat, Forall_forall. intros x Hx.
  destruct (not_negative_cases x (Hv _ Hx) (Hn _ Hx))
    as [-> | [Hxz | [-> | (m & e & -> & _)]]].
  - reflexivity.
  - destruct x; try discriminate Hxz.
    destruct Hmz as [Hm' | Hm']; destruct (row_max_ignoring_nan r);
      try discriminate Hm'; reflexivity.
  - specialize (Hi _ Hx). discriminate Hi.
  - specialize (Hnp _ Hx). discriminate Hnp.
Qed.

(** [x / m] for the row maximum [m] itself is 1. *)
Lemma normalise_row_max_one r x :
  Forall (fun x => float_valid x = true) r ->
  Forall (fun x => flt x zero = false) r ->
  Forall (fun x => is_infinity x = false) r ->
  x ∈ r -> flt zero x = true ->
  one ∈ normalise_row_spec r /\
  forall j, r !! j = Some (row_max_ignoring_nan r) ->
            normalise_row_spec r !! j = Some one.
Proof.
  intros Hv Hn Hi Hx Hpos.
  destruct (row_max_positive r x Hv Hn Hi Hx Hpos) as (m & e & Hm & Hb & Hin).
  assert (Hcell : clamp_negative (nan_to_zero
                    (fdiv (S754_finite false m e) (S754_finite false m e))) = one).
  { rewrite fdiv_self by exact Hb. reflexivity. }
  unfold normalise_row_spec. rewrite Hm. split.
  - rewrite <- Hcell.
    apply list_elem_of_In,
      (in_map (fun x => clamp_negative (nan_to_zero (fdiv x (S754_finite false m e))))),
      list_elem_of_In, Hin.
  - intros j Hj. rewrite list_lookup_fmap, Hj. cbn [fmap option_fmap option_map].
    now rewrite Hcell.
Qed.

(** Normalising a normalised row changes nothing. *)
Lemma normalise_row_idempotent r :
  Forall (fun x => float_valid x = true) r ->
  Forall (fun x => flt x zero = false) r ->
  Forall (fun x => is_infinity x = false) r ->
  normalise_row_spec (normalise_row_spec r) = normalise_row_spec r.
Proof.
  intros Hv Hn Hi.
  destruct (decide (Exists (fun x => flt zero x = true) r)) as [Hex | Hnone].
  - apply Exists_exists in Hex as (x & Hx & Hpos).
    destruct (normalise_row_max_one r x Hv Hn Hi Hx Hpos) as [Hone _].
    pose proof (normalise_row_unit r Hv Hn) as Hunit.
    pose proof (normalise_row_valid r Hv Hn) as Hvalid.
    set (r' := normalise_row_spec r) in *.
    assert (Hmax : row_max_ignoring_nan r' = one).
    { destruct (row_max_ignoring_nan_spec r') as [Hm Hle].
      rewrite Forall_forall in Hle, Hunit.
      pose proof (Hle one Hone eq_refl) as H1.
      destruct (fle_not_nan _ _ H1) as [_ Hmn].
      destruct Hm as [Hm | Hm]; [congruence |].
      specialize (Hunit _ Hm). unfold in_unit_interval in Hunit.
      apply andb_prop in Hunit as [_ H2].
      destruct (fle_antisym _ _ H1 H2) as [H | [H _]]; [now symmetry | discriminate H]. }
    unfold normalise_row_spec at 1. rewrite Hmax.
    rewrite <- (map_id r') at 2. apply map_ext_Forall.
    rewrite Forall_forall in Hunit, Hvalid. apply Forall_forall. intros y Hy.
    apply normalise_cell_one; auto.
  - assert (Hnp : Forall (fun x => flt zero x = false) r).
    { apply Forall_forall. intros x Hx. destruct (flt zero x) eqn:E; [| reflexivity].
      exfalso. apply Hnone, Exists_exists. now exists x. }
    rewrite (normalise_row_no_positive r Hv Hn Hi Hnp).
    rewrite normalise_row_zero, repeat_length; [reflexivity |].
    apply Forall_forall. intros y Hy. apply list_elem_of_In, repeat_spec in Hy.
    now subst y.
Qed.

Lemma forallb_Forall {A} (f : A -> bool) l :
  Forall (fun x => f x = true) l -> forallb f l = true.
Proof. induction 1 as [| x l Hx _ IH]; cbn; [reflexivity | now rewrite Hx, IH]. Qed.

Lemma no_infinity_inv a :
  no_infinity a = true -> Forall (fun x => is_infinity x = false) (buf a).
Proof.
  unfold no_infinity. intros H. apply Forall_forall. intros x Hx.
  apply list_elem_of_In in Hx.
  apply negb_true_iff. revert x Hx. now apply forallb_forall.
Qed.

Lemma length_concat_normalise rs :
  length (concat (map normalise_row_spec rs)) = length (concat rs).
Proof.
  induction rs as [| r rs IH]; cbn [map concat]; [reflexivity |].
  now rewrite !length_app, normalise_row_length, IH.
Qed.

Lemma nrows_patient_normalise_spec a :
  nrows (patient_normalise_spec a) = nrows a /\
  ncols (patient_normalise_spec a) = ncols a.
Proof. split; reflexivity. Qed.

(** The normalised table is again a table without negative or infinite
    entries. *)
Lemma patient_normalise_spec_table a :
  is_table a = true -> non_negative a = true ->
  is_table (patient_normalise_spec a) = true /\
  non_negative (patient_normalise_spec a) = true /\
  no_infinity (patient_normalise_spec a) = true.
Proof.
  intros Ht Hn.
  pose proof (buf_patient_normalise_spec_unit a Ht Hn) as Hunit.
  destruct (is_table_inv a Ht) as (Hs & Hlen & Hv).
  pose proof (non_negative_inv a Hn) as Hnn.
  split; [| split].
  - unfold is_table.
    destruct (nrows_patient_normalise_spec a) as [-> ->].
    cbn [shape buf patient_normalise_spec].
    rewrite length_concat_normalise. unfold rows.
    rewrite (concat_chunks _ _ _ Hlen), Hlen, Nat.eqb_refl.
    rewrite bool_decide_eq_true_2 by exact Hs. cbn [andb].
    apply forallb_Forall, Forall_concat, Forall_map.
    pose proof (rows_Forall _ a Hv) as Hrv. pose proof (rows_Forall _ a Hnn) as Hrn.
    rewrite Forall_forall in Hrv, Hrn. apply Forall_forall. intros r Hr.
    apply normalise_row_valid; auto.
  - apply forallb_Forall. eapply Forall_impl; [exact Hunit |]. cbn.
    intros y Hy. now rewrite in_unit_not_negative.
  - apply forallb_Forall. eapply Forall_impl; [exact Hunit |]. cbn.
    intros y Hy. now rewrite in_unit_not_infinity.
Qed.

(** X9: the table returned by [patient_normalise] is again a table of the
    same shape, every entry a float64 that is neither negative nor infinite:
    it can be normalised again. *)
Theorem patient_normalise_closed (h : heap) (l : loc) (a : ndarray) :
  h !! l = Some a -> is_table a = true -> non_negative a = true ->
  (0 < ncols a)%nat ->
  exists l' out,
    patient_normalise (PyNdarray l) h = (Ok l', <[l' := out]> h) /\
    nrows out = nrows a /\ ncols out = ncols a /\
    is_table out = true /\ non_negative out = true /\ no_infinity out = true.
Proof.
  intros Hl Ht Hn Hd. exists (fresh (dom h)), (patient_normalise_spec a).
  split; [now apply patient_normalise_ok |].
  do 2 (split; [reflexivity |]). now apply patient_normalise_spec_table.
Qed.

Lemma patient_normalise_spec_idempotent a :
  is_table a = true -> non_negative a = true -> no_infinity a = true ->
  patient_normalise_spec (patient_normalise_spec a) = patient_normalise_spec a.
Proof.
  intros Ht Hn Hi.
  destruct (is_table_inv a Ht) as (_ & _ & Hv).
  pose proof (non_negative_inv a Hn) as Hnn. pose proof (no_infinity_inv a Hi) as Hni.
  unfold patient_normalise_spec at 1. cbn [shape].
  rewrite (rows_patient_normalise_spec a Ht).
  unfold patient_normalise_spec. f_equal. f_equal.
  rewrite map_map. apply map_ext_Forall.
  pose proof (rows_Forall _ a Hv) as Hrv. pose proof (rows_Forall _ a Hnn) as Hrn.
  pose proof (rows_Forall _ a Hni) as Hri.
  rewrite Forall_forall in Hrv, Hrn, Hri. apply Forall_forall. intros r Hr.
  apply normalise_row_idempotent; auto.
Qed.

(** X10: normalising the table returned by [patient_normalise] once more
    gives a new array object with the same content, for every table without
    negative or infinite entries. *)
Theorem patient_normalise_idempotent (h : heap) (l : loc) (a : ndarray) :
  h !! l = Some a -> is_table a = true -> non_negative a = true ->
  no_infinity a = true -> (0 < ncols a)%nat ->
  exists l1 h1 l2 h2 out,
    patient_normalise (PyNdarray l) h = (Ok l1, h1) /\
    patient_normalise (PyNdarray l1) h1 = (Ok l2, h2) /\
    l2 <> l1 /\ h1 !! l1 = Some out /\ h2 !! l1 = Some out /\ h2 !! l2 = Some out.
Proof.
  intros Hl Ht Hn Hi Hd.
  destruct (patient_normalise_spec_table a Ht Hn) as (Ht' & Hn' & _).
  set (l1 := fresh (dom h)).
  set (h1 := <[l1 := patient_normalise_spec a]> h).
  assert (Hl1 : h1 !! l1 = Some (patient_normalise_spec a)) by apply lookup_insert_eq.
  assert (Hne : fresh (dom h1) <> l1).
  { intros E. apply (is_fresh (dom h1)). rewrite E. apply elem_of_dom.
    rewrite Hl1. eexists. reflexivity. }
  exists l1, h1, (fresh (dom h1)),
    (<[fresh (dom h1) := patient_normalise_spec (patient_normalise_spec a)]> h1),
    (patient_normalise_spec a).
  split; [now apply patient_normalise_ok |].
  split; [now apply patient_normalise_ok |].
  split; [exact Hne |]. split; [exact Hl1 |].
  split; [now rewrite lookup_insert_ne by exact Hne |].
  rewrite lookup_insert_eq. f_equal. now apply patient_normalise_spec_idempotent.
Qed.

Lemma row_patient_normalise_spec a i :
  is_table a = true ->
  row i (patient_normalise_spec a) = normalise_row_spec (row i a).
Proof.
  intros Ht. unfold row. rewrite (rows_patient_normalise_spec a Ht).
  change (@nil float) with (normalise_row_spec []) at 1. apply map_nth.
Qed.

Lemma row_Forall (P : float -> Prop) a i :
  Forall P (buf a) -> Forall P (row i a).
Proof.
  intros H. apply rows_Forall in H. unfold row.
  destruct (Nat.lt_ge_cases i (length (rows a))) as [Hi | Hi].
  - rewrite Forall_forall in H. apply H, list_elem_of_In, nth_In, Hi.
  - rewrite nth_overflow by exact Hi. constructor.
Qed.

(** X11: a patient with a positive reading and no infinite one has the
    value 1 in the normalised table, on every day on which the reading is
    the patient's maximum. *)
Theorem patient_normalise_row_max_one (h : heap) (l : loc) (a : ndarray)
    (i : nat) (x : float) :
  h !! l = Some a -> is_table a = true -> non_negative a = true ->
  (0 < ncols a)%nat ->
  Forall (fun y => is_infinity y = false) (row i a) ->
  x ∈ row i a -> flt zero x = true ->
  exists l' out,
    patient_normalise (PyNdarray l) h = (Ok l', <[l' := out]> h) /\
    one ∈ row i out /\
    forall j, row i a !! j = Some (row_max_ignoring_nan (row i a)) ->
              row i out !! j = Some one.
Proof.
  intros Hl Ht Hn Hd Hi Hx Hpos. exists (fresh (dom h)), (patient_normalise_spec a).
  split; [now apply patient_normalise_ok |].
  rewrite (row_patient_normalise_spec a i Ht).
  destruct (is_table_inv a Ht) as (_ & _ & Hv).
  apply (normalise_row_max_one (row i a) x); auto.
  - now apply row_Forall.
  - apply row_Forall. now apply non_negative_inv.
Qed.

Lemma normalise_row_infinite r :
  Forall (fun x => float_valid x = true) r ->
  Forall (fun x => flt x zero = false) r ->
  S754_infinity false ∈ r ->
  Forall (fun y => is_zero y = true) (normalise_row_spec r).
Proof.
  intros Hv Hn Hin.
  destruct (row_max_ignoring_nan_spec r) as [Hm Hle].
  rewrite Forall_forall in Hle. pose proof (Hle _ Hin eq_refl) as Hinf.
  assert (Hmax : row_max_ignoring_nan r = S754_infinity false).
  { destruct (row_max_ignoring_nan r) as [| [] | | ]; try discriminate Hinf. reflexivity. }
  unfold normalise_row_spec. rewrite Hmax. apply Forall_map.
  rewrite Forall_forall in Hv, Hn. apply Forall_forall. intros x Hx.
  destruct (not_negative_cases x (Hv _ Hx) (Hn _ Hx))
    as [-> | [Hxz | [-> | (m & e & -> & _)]]]; try reflexivity.
  destruct x as [[] | | |]; try discriminate Hxz; reflexivity.
Qed.

(** X12: a patient with an infinite reading gets a row of zeros: every
    finite reading divided by infinity is 0, and infinity divided by
    infinity is NaN, which is replaced by 0. *)
Theorem patient_normalise_infinite_row (h : heap) (l : loc) (a : ndarray)
    (i : nat) :
  h !! l = Some a -> is_table a = true -> non_negative a = true ->
  (0 < ncols a)%nat -> S754_infinity false ∈ row i a ->
  exists l' out,
    patient_normalise (PyNdarray l) h = (Ok l', <[l' := out]> h) /\
    length (row i out) = ncols a /\
    Forall (fun y => is_zero y = true) (row i out).
Proof.
  intros Hl Ht Hn Hd Hin. exists (fresh (dom h)), (patient_normalise_spec a).
  split; [now apply patient_normalise_ok |].
  rewrite (row_patient_normalise_spec a i Ht), normalise_row_length.
  destruct (is_table_inv a Ht) as (_ & _ & Hv).
  split.
  - pose proof (rows_row_length a Ht) as Hlen. rewrite Forall_forall in Hlen.
    apply Hlen. unfold row in *.
    destruct (Nat.lt_ge_cases i (length (rows a))) as [Hi | Hi].
    + apply list_elem_of_In, nth_In, Hi.
    + rewrite nth_overflow in Hin by exact Hi. now apply elem_of_nil in Hin.
  - apply normalise_row_infinite; [now apply row_Forall | | exact Hin].
    apply row_Forall. now apply non_negative_inv.
Qed.

(** X13: a call of [patient_normalise] that raises leaves the store as it
    was; a call that returns has added one array object, at an identity that
    was not in use, and nothing else. *)
Theorem patient_normalise_store (h : heap) (data : pyobj) :
  (forall e, (patient_normalise data h).1 = Raise e ->
             (patient_normalise data h).2 = h) /\
  (forall l', (patient_normalise data h).1 = Ok l' ->
     h !! l' = None /\
     exists out, (patient_normalise data h).2 = <[l' := out]> h).
Proof.
  destruct data as [| l].
  { split; [reflexivity | discriminate]. }
  destruct (h !! l) as [a |] eqn:Hl.
  - rewrite (patient_normalise_run h l a Hl).
    destruct (negb (length (shape a) =? 2)%nat); [split; [reflexivity | discriminate] |].
    destruct (negb (non_negative a)); [split; [reflexivity | discriminate] |].
    destruct (np_nanmax_axis1 a) as [max_data | e]; [| split; [reflexivity | discriminate]].
    split; [discriminate |]. cbn [fst snd]. intros l' [= <-].
    split; [apply not_elem_of_dom, is_fresh |]. eexists. reflexivity.
  - unfold patient_normalise, bind, load. rewrite Hl.
    split; [reflexivity | discriminate].
Qed.

(** ** The count above a threshold, as a function of the threshold *)

Lemma fle_flt_trans x y z : fle x y = true -> flt y z = true -> flt x z = true.
Proof.
  intros Hxy Hyz.
  destruct (fle_not_nan _ _ Hxy) as [Hx Hy]. destruct (flt_not_nan _ _ Hyz) as [_ Hz].
  apply fle_key in Hxy; auto. apply flt_key in Hyz; auto. apply flt_key; auto.
  unfold lex_le, lex_lt in *. lia.
Qed.

Lemma count_strictly_greater_antitone t1 t2 r :
  fle t1 t2 = true -> count_strictly_greater t2 r <= count_strictly_greater t1 r.
Proof.
  intros Ht. induction r as [| x r IH]; cbn [count_strictly_greater]; [lia |].
  change (fgt x t1) with (flt t1 x). change (fgt x t2) with (flt t2 x).
  destruct (flt t2 x) eqn:E2.
  - rewrite (fle_flt_trans _ _ _ Ht E2). lia.
  - destruct (flt t1 x); lia.
Qed.

(** X14: raising the threshold never raises the count, and whether the
    call fails does not depend on the threshold. *)
Theorem daily_above_threshold_antitone (data : ndarray) (p : Z) (t1 t2 : float) :
  fle t1 t2 = true ->
  match daily_above_threshold p data t1, daily_above_threshold p data t2 with
  | Ok n1, Ok n2 => n2 <= n1
  | Raise e1, Raise e2 => e1 = e2
  | _, _ => False
  end.
Proof.
  intros Ht. unfold daily_above_threshold.
  destruct (getitem data p) as [r | e]; cbn [result_bind]; [| reflexivity].
  rewrite !fold_count_above_threshold.
  pose proof (count_strictly_greater_antitone t1 t2 r Ht). lia.
Qed.

Lemma count_strictly_greater_not_nan t r :
  count_strictly_greater t r <=
  Z.of_nat (length (List.filter (fun x => negb (isnan x)) r)).
Proof.
  induction r as [| x r IH]; cbn [count_strictly_greater List.filter]; [reflexivity |].
  destruct (fgt x t) eqn:E.
  - apply flt_not_nan in E as [_ ->]. cbn [negb length]. lia.
  - destruct (negb (isnan x)); cbn [length]; lia.
Qed.

Lemma count_strictly_greater_nan r : count_strictly_greater S754_nan r = 0.
Proof.
  apply count_strictly_greater_none, Forall_forall. intros x _.
  destruct x; reflexivity.
Qed.

(** X15: a NaN is never above a threshold and nothing is above a NaN
    threshold: the count is at most the number of entries of the row that
    are numbers, and it is 0 when the threshold is NaN. *)
Theorem daily_above_threshold_nan (data : ndarray) (p : Z) (t : float) :
  - Z.of_nat (nrows data) <= p < Z.of_nat (nrows data) ->
  daily_above_threshold p data S754_nan = Ok 0 /\
  exists r n,
    getitem data p = Ok r /\ daily_above_threshold p data t = Ok n /\
    0 <= n <= Z.of_nat (length (List.filter (fun x => negb (isnan x)) r)).
Proof.
  intros Hp. unfold daily_above_threshold.
  assert (Hget : exists r, getitem data p = Ok r).
  { unfold getitem.
    replace ((p <? - Z.of_nat (nrows data)) || (Z.of_nat (nrows data) <=? p))
      with false by (symmetry; apply orb_false_intro; [apply Z.ltb_ge | apply Z.leb_gt]; lia).
    eexists. reflexivity. }
  destruct Hget as [r Hr]. rewrite Hr. cbn [result_bind].
  rewrite !fold_count_above_threshold, count_strictly_greater_nan.
  split; [reflexivity |]. exists r, (0 + count_strictly_greater t r).
  do 2 (split; [reflexivity |]).
  pose proof (count_strictly_greater_bounds t r).
  pose proof (count_strictly_greater_not_nan t r). lia.
Qed.

(** ** Series of observations *)

Lemma seq_from (d : Z) (n : nat) :
  map (fun k => d + Z.of_nat k) (seq 0 (S n)) =
  d :: map (fun k => d + 1 + Z.of_nat k) (seq 0 n).
Proof.
  cbn [seq map]. f_equal; [lia |].
  rewrite <- seq_shift, map_map. apply map_ext. intros k. lia.
Qed.

(** X16: observations added without a day are numbered from the day after
    the last one, or from 0, in steps of one, and keep the given values in
    the given order; on a new patient the days are 0, 1, 2, ... *)
Theorem add_observations_days (p : Patient) (vs : list pynum) (nm : string) :
  days (add_observations p vs) =
    (days p ++ map (fun k => match last (days p) with
                             | Some d => d + 1
                             | None => 0
                             end + Z.of_nat k) (seq 0 (length vs)))%list /\
  map value (observations (add_observations p vs)) =
    (map value (observations p) ++ vs)%list /\
  days (add_observations (Patient_init nm None) vs) =
    map Z.of_nat (seq 0 (length vs)).
Proof.
  assert (Hdays : forall vs p,
    days (add_observations p vs) =
    (days p ++ map (fun k => match last (days p) with
                             | Some d => d + 1
                             | None => 0
                             end + Z.of_nat k) (seq 0 (length vs)))%list).
  { clear. unfold add_observations.
    induction vs as [| v vs IH]; intros p; cbn [fold_left length].
    - cbn. now rewrite app_nil_r.
    - rewrite IH, days_add_observation, last_snoc, seq_from, <- app_assoc.
      reflexivity. }
  split; [apply Hdays |]. split.
  - unfold add_observations. revert p.
    induction vs as [| v vs IH]; intros p; cbn [fold_left].
    + now rewrite app_nil_r.
    + rewrite IH. cbn [add_observation fst observations].
      rewrite map_app, <- app_assoc. reflexivity.
  - rewrite Hdays. cbn. apply map_ext. intros k. lia.
Qed.

(** X17: [last_observation] raises [IndexError] on a patient without
    observations, as a new patient is, and returns the last observation
    otherwise; after [add_observation] with a day given it returns the
    observation just added, with that day. *)
Theorem last_observation_cases (p : Patient) (v : pynum) (d : Z) (nm : string) :
  (observations p = [] <->
   last_observation p = Raise (IndexError "list index out of range")) /\
  (forall os o, observations p = (os ++ [o])%list -> last_observation p = Ok o) /\
  last_observation (Patient_init nm None) =
    Raise (IndexError "list index out of range") /\
  last_observation (add_observation p v (Some d)).1 = Ok {| day := d; value := v |} /\
  (add_observation p v (Some d)).2 = {| day := d; value := v |}.
Proof.
  unfold last_observation. split; [| split; [| split; [| split]]].
  - split.
    + intros ->. reflexivity.
    + destruct (observations p) as [| o os] using rev_ind; [reflexivity |].
      rewrite last_snoc. discriminate.
  - intros os o ->. now rewrite last_snoc.
  - reflexivity.
  - cbn [add_observation fst observations]. now rewrite last_snoc.
  - reflexivity.
Qed.

(** ** Patients that share a list of observations *)

Lemma fresh_lookup (h : obs_heap) : h !! fresh (dom h) = None.
Proof. apply not_elem_of_dom, is_fresh. Qed.

Lemma lookup_not_fresh (h : obs_heap) l os : h !! l = Some os -> l <> fresh (dom h).
Proof. intros Hl ->. rewrite fresh_lookup in Hl. discriminate. Qed.

(** X18: [add_observation] on a patient object does to the list of the
    patient what the method does on the patient as a value, returns the
    same observation, and touches no other list. *)
Theorem PatientObj_add_observation_agrees (self : PatientObj) (p : Patient)
    (v : pynum) (d : option Z) (h : obs_heap) :
  PatientObj_read self h = Some p ->
  exists h',
    PatientObj_add_observation self v d h = (Ok (add_observation p v d).2, h') /\
    PatientObj_read self h' = Some (add_observation p v d).1 /\
    forall l, l <> PatientObj_observations self -> h' !! l = h !! l.
Proof.
  unfold PatientObj_read, PatientObj_add_observation.
  destruct (h !! PatientObj_observations self) as [os |] eqn:Hos; [| discriminate].
  intros [= <-]. eexists. split; [reflexivity |].
  rewrite lookup_insert_eq. split; [reflexivity |].
  intros l Hl. now rewrite lookup_insert_ne.
Qed.

(** X19: two patients constructed with the same list share it: an
    observation added to one of them is an observation of the other. *)
Theorem Patient_new_shares_list (nm1 nm2 : string) (o : loc)
    (os : list Observation) (v : pynum) (d : option Z) (h : obs_heap) :
  h !! o = Some os ->
  exists p1 h1 p2 h2 ob h3,
    Patient_new nm1 (Some o) h = (p1, h1) /\
    Patient_new nm2 (Some o) h1 = (p2, h2) /\
    PatientObj_add_observation p1 v d h2 = (Ok ob, h3) /\
    value ob = v /\
    PatientObj_read p1 h3 =
      Some {| Patient_person := {| name := nm1 |};
              observations := (os ++ [ob])%list |} /\
    PatientObj_read p2 h3 =
      Some {| Patient_person := {| name := nm2 |};
              observations := (os ++ [ob])%list |}.
Proof.
  intros Ho. unfold Patient_new.
  set (h1 := <[fresh (dom h) := []]> h).
  set (h2 := <[fresh (dom h1) := []]> h1).
  assert (Ho1 : h1 !! o = Some os).
  { unfold h1. rewrite lookup_insert_ne; [exact Ho |].
    intros E. symmetry in E. revert E. now apply lookup_not_fresh with os. }
  assert (Ho2 : h2 !! o = Some os).
  { unfold h2. rewrite lookup_insert_ne; [exact Ho1 |].
    intros E. symmetry in E. revert E. now apply lookup_not_fresh with os. }
  eexists _, h1, _, h2, _, _.
  split; [reflexivity |]. split; [reflexivity |].
  unfold PatientObj_add_observation, PatientObj_read.
  cbn [PatientObj_observations PatientObj_name]. rewrite Ho2.
  split; [reflexivity |]. split; [reflexivity |].
  rewrite lookup_insert_eq. split; reflexivity.
Qed.

(** X20: two patients constructed without a list have a new empty list
    each: an observation added to one of them is not an observation of the
    other, and no list that existed before is changed. *)
Theorem Patient_new_own_list (nm1 nm2 : string) (v : pynum) (d : option Z)
    (h : obs_heap) :
  exists p1 h1 p2 h2 ob h3,
    Patient_new nm1 None h = (p1, h1) /\
    Patient_new nm2 None h1 = (p2, h2) /\
    PatientObj_read p1 h2 = Some (Patient_init nm1 None) /\
    PatientObj_read p2 h2 = Some (Patient_init nm2 None) /\
    PatientObj_add_observation p1 v d h2 = (Ok ob, h3) /\
    PatientObj_read p1 h3 = Some (add_observation (Patient_init nm1 None) v d).1 /\
    PatientObj_read p2 h3 = Some (Patient_init nm2 None) /\
    forall l os, h !! l = Some os -> h3 !! l = Some os.
Proof.
  unfold Patient_new.
  set (l1 := fresh (dom h)). set (h1 := <[l1 := []]> h).
  set (l2 := fresh (dom h1)). set (h2 := <[l2 := []]> h1).
  assert (H11 : h1 !! l1 = Some []) by apply lookup_insert_eq.
  assert (Hne : l1 <> l2) by (now apply lookup_not_fresh with []).
  assert (H21 : h2 !! l1 = Some []).
  { unfold h2. now rewrite lookup_insert_ne by congruence. }
  assert (H22 : h2 !! l2 = Some []) by apply lookup_insert_eq.
  exists {| PatientObj_name := nm1; PatientObj_observations := l1 |}, h1,
         {| PatientObj_name := nm2; PatientObj_observations := l2 |}, h2.
  eexists _, _.
  split; [reflexivity |]. split; [reflexivity |].
  unfold PatientObj_add_observation, PatientObj_read.
  cbn [PatientObj_observations PatientObj_name]. rewrite H21, H22.
  split; [reflexivity |]. split; [reflexivity |]. split; [reflexivity |].
  rewrite lookup_insert_eq, lookup_insert_ne, H22 by exact Hne.
  split; [reflexivity |]. split; [reflexivity |].
  intros l os Hl.
  pose proof (lookup_not_fresh h l os Hl) as Hl1. fold l1 in Hl1.
  assert (Hl' : h1 !! l = Some os).
  { unfold h1. now rewrite lookup_insert_ne by congruence. }
  pose proof (lookup_not_fresh h1 l os Hl') as Hl2. fold l2 in Hl2.
  rewrite lookup_insert_ne by congruence. unfold h2.
  now rewrite lookup_insert_ne by congruence.
Qed.

(** ** A doctor's list after several registrations *)

Lemma name_known_app ps qs nm :
  name_known (ps ++ qs)%list nm = name_known ps nm || name_known qs nm.
Proof.
  induction ps as [| p ps IH]; cbn [name_known app]; [reflexivity |].
  destruct (String.eqb (name (Patient_person p)) nm); [reflexivity | exact IH].
Qed.

Lemma filter_filter_andb {A} (f g : A -> bool) l :
  List.filter f (List.filter g l) = List.filter (fun x => g x && f x) l.
Proof.
  induction l as [| x l IH]; cbn [List.filter]; [reflexivity |].
  destruct (g x); cbn [List.filter andb]; [| exact IH].
  destruct (f x); now rewrite IH.
Qed.

Lemma filter_ext_all {A} (f g : A -> bool) l :
  (forall x, f x = g x) -> List.filter f l = List.filter g l.
Proof.
  intros H. induction l as [| x l IH]; cbn [List.filter]; [reflexivity |].
  now rewrite H, IH.
Qed.

Lemma filter_all {A} (l : list A) : List.filter (fun _ => true) l = l.
Proof. induction l as [| x l IH]; cbn [List.filter]; [reflexivity | now rewrite IH]. Qed.

(** The doctor's list after the registrations: the patients already there,
    then the first patient of every name that was not there. *)
Lemma add_patients_spec ps : forall d,
  patients (add_patients d ps) =
  (patients d ++
   List.filter (fun q => negb (name_known (patients d) (name (Patient_person q))))
               (first_of_each_name ps))%list.
Proof.
  unfold add_patients.
  induction ps as [| p ps IH]; intros d; cbn [fold_left first_of_each_name List.filter].
  - now rewrite app_nil_r.
  - rewrite IH. unfold add_patient.
    destruct (name_known (patients d) (name (Patient_person p))) eqn:E; cbn [negb].
    + f_equal. rewrite filter_filter_andb. apply filter_ext_all. intros q.
      destruct (String.eqb_spec (name (Patient_person p)) (name (Patient_person q)))
        as [Hq | Hq]; cbn [negb andb]; [| reflexivity].
      now rewrite <- Hq, E.
    + cbn [patients]. rewrite <- app_assoc. cbn [app]. do 2 f_equal.
      rewrite filter_filter_andb. apply filter_ext_all. intros q.
      rewrite name_known_app. cbn [name_known].
      destruct (String.eqb (name (Patient_person p)) (name (Patient_person q)));
        cbn [negb andb orb];
        destruct (name_known (patients d) (name (Patient_person q))); reflexivity.
Qed.

Lemma add_patient_NoDup (d : Doctor) (p : Patient) :
  NoDup (patient_names d) -> NoDup (patient_names (add_patient d p)).
Proof.
  intros Hnd.
  destruct (decide (name (Patient_person p) ∈ patient_names d)) as [H | H].
  - now rewrite add_patient_known.
  - rewrite add_patient_new by assumption. unfold patient_names. cbn [patients].
    rewrite map_app. apply NoDup_app. split; [exact Hnd |]. split.
    + intros x Hx Hx'. apply list_elem_of_singleton in Hx'. now subst x.
    + apply NoDup_singleton.
Qed.

Lemma add_patient_keeps_names (d : Doctor) (p : Patient) nm :
  nm ∈ patient_names d -> nm ∈ patient_names (add_patient d p).
Proof.
  intros Hnm.
  destruct (decide (name (Patient_person p) ∈ patient_names d)) as [H | H].
  - now rewrite add_patient_known.
  - rewrite add_patient_new by assumption. unfold patient_names in *. cbn [patients].
    rewrite map_app. apply elem_of_app. now left.
Qed.

(** X21: after any series of registrations with a new doctor, the doctor's
    list holds the first patient of every name, in the order of
    registration: the names are pairwise distinct, and every registered
    name is there. *)
Theorem add_patients_first_of_each_name (nm : string) (ps : list Patient) :
  patients (add_patients (Doctor_init nm) ps) = first_of_each_name ps /\
  NoDup (patient_names (add_patients (Doctor_init nm) ps)) /\
  (forall p, p ∈ ps ->
     name (Patient_person p) ∈ patient_names (add_patients (Doctor_init nm) ps)) /\
  Doctor_person (add_patients (Doctor_init nm) ps) = {| name := nm |}.
Proof.
  split; [| split; [| split]].
  - rewrite add_patients_spec. cbn [Doctor_init patients name_known negb app].
    apply filter_all.
  - assert (H : forall d, NoDup (patient_names d) ->
                          NoDup (patient_names (add_patients d ps))).
    { unfold add_patients. induction ps as [| p ps IH]; intros d Hd; cbn [fold_left];
        [exact Hd |]. now apply IH, add_patient_NoDup. }
    apply H. apply NoDup_nil_2.
  - generalize (Doctor_init nm). unfold add_patients.
    induction ps as [| q ps IH]; intros d p Hp; [now apply elem_of_nil in Hp |].
    cbn [fold_left]. apply elem_of_cons in Hp as [-> | Hp]; [| now apply IH].
    assert (H : forall ps d x, x ∈ patient_names d ->
                               x ∈ patient_names (fold_left add_patient ps d)).
    { clear. induction ps as [| p ps IH]; intros d x Hx; cbn [fold_left]; [exact Hx |].
      now apply IH, add_patient_keeps_names. }
    apply H, add_patient_then_known.
  - assert (H : forall d, Doctor_person (add_patients d ps) = Doctor_person d).
    { unfold add_patients. induction ps as [| p ps IH]; intros d; cbn [fold_left];
        [reflexivity |].
      rewrite IH. unfold add_patient. now destruct (name_known _ _). }
    now rewrite H.
Qed.

(** ** NaN entries count as 0 *)

Lemma chunks_map (f : float -> float) n d : forall l,
  chunks n d (map f l) = map (map f) (chunks n d l).
Proof.
  induction n as [| n IH]; intros l; cbn [chunks map]; [reflexivity |].
  now rewrite firstn_map, skipn_map, IH.
Qed.

Lemma le_zero_is_zero x m :
  flt x zero = false -> fle x m = true -> is_zero m = true -> is_zero x = true.
Proof.
  destruct m as [sm | | |]; try discriminate. intros Hn Hle _.
  destruct x as [| [] | | [] mx ex]; try discriminate Hn; try discriminate Hle;
    try reflexivity; destruct sm; discriminate Hle.
Qed.

Lemma nan_to_zero_valid x :
  float_valid x = true -> float_valid (nan_to_zero x) = true.
Proof. now destruct x. Qed.

Lemma nan_to_zero_not_negative x :
  flt x zero = false -> flt (nan_to_zero x) zero = false.
Proof. now destruct x. Qed.

Lemma nan_to_zero_not_nan x : isnan (nan_to_zero x) = false.
Proof. now destruct x. Qed.

(** A cell [0] over a maximum that is not negative is cleaned to [0], as
    a cell NaN is. *)
Lemma normalise_cell_zero m :
  float_valid m = true -> flt m zero = false ->
  clamp_negative (nan_to_zero (fdiv zero m)) = zero.
Proof.
  intros Vm Nm.
  destruct (not_negative_cases m Vm Nm) as [-> | [Hm | [-> | (mm & em & -> & _)]]];
    try reflexivity.
  destruct m; try discriminate Hm. reflexivity.
Qed.

Lemma normalise_cell_zero_max x m :
  flt x zero = false -> (isnan x = false -> fle x m = true) ->
  isnan m = true \/ is_zero m = true ->
  clamp_negative (nan_to_zero (fdiv x m)) = zero.
Proof.
  intros Nx Hle [Hm | Hm].
  - apply isnan_true in Hm. subst m. now destruct x.
  - destruct (isnan x) eqn:Ex; [apply isnan_true in Ex; now subst x |].
    pose proof (le_zero_is_zero x m Nx (Hle eq_refl) Hm) as Hx.
    destruct x; try discriminate Hx. destruct m; try discriminate Hm. reflexivity.
Qed.

(** The maximum of the row with 0 for NaN is the maximum ignoring NaN, or
    both are zero or NaN. *)
Lemma row_max_nan_as_zero r :
  r <> [] ->
  Forall (fun x => float_valid x = true) r ->
  Forall (fun x => flt x zero = false) r ->
  let m := row_max_ignoring_nan r in
  let m' := row_max_ignoring_nan (map nan_to_zero r) in
  m' = m \/ (isnan m = true \/ is_zero m = true) /\ is_zero m' = true.
Proof.
  intros Hne Hv Hn m m'.
  destruct (row_max_ignoring_nan_spec r) as [Hm Hle].
  destruct (row_max_ignoring_nan_spec (map nan_to_zero r)) as [Hm' Hle'].
  fold m in Hm, Hle. fold m' in Hm', Hle'.
  rewrite Forall_forall in Hv, Hn, Hle, Hle'.
  assert (Hin' : exists x, x ∈ r /\ m' = nan_to_zero x).
  { destruct Hm' as [Hm' | Hm'].
    - exfalso. destruct r as [| x0 r]; [congruence |].
      assert (H0 : nan_to_zero x0 ∈ map nan_to_zero (x0 :: r)) by apply list_elem_of_here.
      specialize (Hle' _ H0 (nan_to_zero_not_nan x0)).
      apply fle_not_nan in Hle' as [_ Hle']. congruence.
    - apply list_elem_of_In, in_map_iff in Hm' as (x & Ex & Hx).
      exists x. split; [now apply list_elem_of_In | now symmetry]. }
  destruct Hin' as (x & Hx & Ex).
  destruct (isnan m) eqn:Em.
  - right. split; [now left |]. rewrite Ex.
    destruct (isnan x) eqn:Enx; [apply isnan_true in Enx; now subst x |].
    specialize (Hle x Hx Enx). apply fle_not_nan in Hle as [_ Hle]. congruence.
  - destruct Hm as [Hm | Hm]; [discriminate Hm |].
    assert (Hmm' : fle m m' = true).
    { apply Hle'.
      - replace m with (nan_to_zero m) by (unfold nan_to_zero; now rewrite Em).
        apply list_elem_of_In, in_map, list_elem_of_In, Hm.
      - exact Em. }
    destruct (isnan x) eqn:Enx.
    + apply isnan_true in Enx. subst x. cbn in Ex. right.
      split; [right | now rewrite Ex].
      apply (le_zero_is_zero m m'); [now apply Hn | exact Hmm' | now rewrite Ex].
    + assert (Exm : m' = x) by (rewrite Ex; unfold nan_to_zero; now rewrite Enx).
      pose proof (Hle x Hx Enx) as Hxm. rewrite <- Exm in Hxm.
      destruct (fle_antisym _ _ Hmm' Hxm) as [E | [E1 E2]]; [now left | right].
      split; [now right | exact E2].
Qed.

Lemma normalise_row_nan_as_zero r :
  Forall (fun x => float_valid x = true) r ->
  Forall (fun x => flt x zero = false) r ->
  normalise_row_spec (map nan_to_zero r) = normalise_row_spec r.
Proof.
  intros Hv Hn.
  destruct r as [| x0 r0] eqn:Er; [reflexivity |]. rewrite <- Er in *.
  assert (Hne : r <> []) by (rewrite Er; discriminate). clear Er x0 r0.
  pose proof (row_max_nan_as_zero r Hne Hv Hn) as HR. cbn zeta in HR.
  destruct (row_max_valid r Hv Hn) as [Hmv Hmn].
  destruct (row_max_ignoring_nan_spec r) as [_ Hle].
  destruct (row_max_ignoring_nan_spec (map nan_to_zero r)) as [_ Hle'].
  unfold normalise_row_spec. rewrite map_map. apply map_ext_Forall.
  rewrite Forall_forall in Hv, Hn, Hle, Hle'. apply Forall_forall. intros x Hx.
  destruct HR as [-> | [Hm Hm']].
  - destruct (isnan x) eqn:Enx; [| unfold nan_to_zero at 2; now rewrite Enx].
    apply isnan_true in Enx. subst x.
    change (nan_to_zero S754_nan) with zero. now rewrite normalise_cell_zero.
  - rewrite (normalise_cell_zero_max x _ (Hn _ Hx) (Hle _ Hx) Hm).
    apply normalise_cell_zero_max; [apply nan_to_zero_not_negative, Hn, Hx | | now right].
    intros Hnn. apply Hle'; [| exact Hnn].
    apply list_elem_of_In, in_map, list_elem_of_In, Hx.
Qed.

Lemma patient_normalise_spec_nan_as_zero a :
  is_table a = true -> non_negative a = true ->
  patient_normalise_spec {| shape := shape a; buf := map nan_to_zero (buf a) |} =
  patient_normalise_spec a.
Proof.
  intros Ht Hn. destruct (is_table_inv a Ht) as (_ & _ & Hv).
  pose proof (non_negative_inv a Hn) as Hnn.
  unfold patient_normalise_spec. cbn [shape]. f_equal. f_equal.
  unfold rows, nrows, ncols. cbn [shape buf]. fold (nrows a) (ncols a).
  rewrite chunks_map, map_map. apply map_ext_Forall.
  pose proof (rows_Forall _ a Hv) as Hrv. pose proof (rows_Forall _ a Hnn) as Hrn.
  rewrite Forall_forall in Hrv, Hrn. apply Forall_forall. intros r Hr.
  apply normalise_row_nan_as_zero; auto.
Qed.

(** X22: a NaN entry is normalised as an entry 0 is: the table with 0 in
    place of every NaN is normalised to the same table. *)
Theorem patient_normalise_nan_as_zero (h : heap) (l l0 : loc) (a : ndarray) :
  h !! l = Some a ->
  h !! l0 = Some {| shape := shape a; buf := map nan_to_zero (buf a) |} ->
  is_table a = true -> non_negative a = true -> (0 < ncols a)%nat ->
  exists l' out,
    patient_normalise (PyNdarray l) h = (Ok l', <[l' := out]> h) /\
    patient_normalise (PyNdarray l0) h = (Ok l', <[l' := out]> h).
Proof.
  intros Hl Hl0 Ht Hn Hd. exists (fresh (dom h)), (patient_normalise_spec a).
  split; [now apply patient_normalise_ok |].
  destruct (is_table_inv a Ht) as (Hs & Hlen & Hv).
  pose proof (non_negative_inv a Hn) as Hnn.
  rewrite <- (patient_normalise_spec_nan_as_zero a Ht Hn).
  apply patient_normalise_ok; [exact Hl0 | | | exact Hd].
  - unfold is_table, nrows, ncols. cbn [shape buf]. fold (nrows a) (ncols a).
    rewrite length_map, Hlen, Nat.eqb_refl, bool_decide_eq_true_2 by exact Hs.
    cbn [andb]. apply forallb_Forall, Forall_map.
    eapply Forall_impl; [exact Hv |]. cbn. apply nan_to_zero_valid.
  - apply forallb_Forall. cbn [buf]. apply Forall_map.
    eapply Forall_impl; [exact Hnn |]. cbn. intros x Hx.
    now rewrite nan_to_zero_not_negative.
Qed.

(** ** Statistics of a normalised table *)

Lemma column_Forall (P : float -> Prop) a d :
  is_table a = true -> (d < ncols a)%nat ->
  Forall P (buf a) -> Forall P (column d a).
Proof.
  intros Ht Hd HP. unfold column. apply Forall_map.
  pose proof (rows_row_length a Ht) as Hlen. pose proof (rows_Forall _ a HP) as Hr.
  rewrite Forall_forall in Hlen, Hr. apply Forall_forall. intros r Hin.
  specialize (Hlen _ Hin). specialize (Hr _ Hin). rewrite Forall_forall in Hr.
  apply Hr, list_elem_of_In, nth_In. lia.
Qed.

Lemma getitem_valid a p :
  - Z.of_nat (nrows a) <= p < Z.of_nat (nrows a) ->
  exists k, (k < nrows a)%nat /\ getitem a p = Ok (row k a).
Proof.
  intros Hp. unfold getitem.
  replace ((p <? - Z.of_nat (nrows a)) || (Z.of_nat (nrows a) <=? p))
    with false by (symmetry; apply orb_false_intro; [apply Z.ltb_ge | apply Z.leb_gt]; lia).
  eexists. split; [| reflexivity]. destruct (Z.ltb_spec p 0); lia.
Qed.

(** X23: no reading of a normalised table is above the threshold 1, for
    any patient, and every reading is above a negative threshold. *)
Theorem patient_normalise_then_threshold (h : heap) (l : loc) (a : ndarray)
    (p : Z) :
  h !! l = Some a -> is_table a = true -> non_negative a = true ->
  (0 < ncols a)%nat -> - Z.of_nat (nrows a) <= p < Z.of_nat (nrows a) ->
  exists l' out,
    patient_normalise (PyNdarray l) h = (Ok l', <[l' := out]> h) /\
    daily_above_threshold p out one = Ok 0 /\
    forall t, flt t zero = true ->
      daily_above_threshold p out t = Ok (Z.of_nat (ncols a)).
Proof.
  intros Hl Ht Hn Hd Hp. exists (fresh (dom h)), (patient_normalise_spec a).
  split; [now apply patient_normalise_ok |].
  destruct (patient_normalise_spec_table a Ht Hn) as (Ht' & _ & _).
  pose proof (buf_patient_normalise_spec_unit a Ht Hn) as Hunit.
  destruct (getitem_valid (patient_normalise_spec a) p Hp) as (k & Hk & Hget).
  unfold daily_above_threshold. rewrite Hget. cbn [result_bind].
  rewrite !fold_count_above_threshold.
  pose proof (row_Forall _ _ k Hunit) as Hrow.
  assert (Hlen : length (row k (patient_normalise_spec a)) = ncols a).
  { pose proof (rows_row_length _ Ht') as H. rewrite Forall_forall in H.
    apply H, list_elem_of_In, nth_In. now rewrite rows_length. }
  split.
  - rewrite count_strictly_greater_none; [reflexivity |].
    eapply Forall_impl; [exact Hrow |]. cbn. intros y Hy.
    apply andb_prop in Hy as [_ Hy]. now apply flt_fle_false.
  - intros t Hneg. setoid_rewrite fold_count_above_threshold.
    rewrite count_strictly_greater_all, Hlen; [reflexivity |].
    eapply Forall_impl; [exact Hrow |]. cbn. intros y Hy.
    apply andb_prop in Hy as [Hy _]. now apply flt_fle_trans with zero.
Qed.

(** X24: on a normalised table with at least one patient, [daily_max] and
    [daily_min] return one value per day, each one in [0, 1]. *)
Theorem daily_max_min_normalised (h : heap) (l : loc) (a : ndarray) :
  h !! l = Some a -> is_table a = true -> non_negative a = true ->
  (0 < ncols a)%nat -> (0 < nrows a)%nat ->
  exists l' out mx mn,
    patient_normalise (PyNdarray l) h = (Ok l', <[l' := out]> h) /\
    daily_max out = Ok mx /\ daily_min out = Ok mn /\
    length (buf mx) = ncols a /\ length (buf mn) = ncols a /\
    Forall (fun y => in_unit_interval y = true) (buf mx) /\
    Forall (fun y => in_unit_interval y = true) (buf mn).
Proof.
  intros Hl Ht Hn Hd Hp. exists (fresh (dom h)), (patient_normalise_spec a).
  destruct (patient_normalise_spec_table a Ht Hn) as (Ht' & _ & _).
  pose proof (buf_patient_normalise_spec_unit a Ht Hn) as Hunit.
  set (out := patient_normalise_spec a) in *.
  assert (Hne : forall d, column d out <> []) by (intros; now apply column_nonempty).
  eexists _, _.
  split; [now apply patient_normalise_ok |].
  split; [now apply reduce_axis0_ok |].
  split; [now apply reduce_axis0_ok |].
  cbn [buf]. rewrite !length_map, !length_seq.
  do 2 (split; [reflexivity |]).
  assert (Hcol : forall d, d ∈ seq 0 (ncols out) ->
            let c := column d out in
            in_unit_interval (match c with [] => S754_nan
                                          | x :: l => fold_left np_maximum l x end) = true /\
            in_unit_interval (match c with [] => S754_nan
                                          | x :: l => fold_left np_minimum l x end) = true).
  { intros d Hin c. apply list_elem_of_In, in_seq in Hin.
    pose proof (column_Forall _ out d Ht' ltac:(lia) Hunit) as Hc. fold c in Hc.
    assert (Hnan : Forall (fun x => isnan x = false) c).
    { eapply Forall_impl; [exact Hc | apply in_unit_not_nan]. }
    destruct (column_min_le_max c (Hne d) Hnan) as (Hmn & Hmx & _).
    rewrite Forall_forall in Hc. split; now apply Hc. }
  split; apply Forall_map, Forall_forall; intros d Hin; now apply Hcol.
Qed.

(** ** Further statistics *)

Lemma lookup_row a i :
  (i < nrows a)%nat -> rows a !! i = Some (row i a).
Proof.
  intros Hi. rewrite <- (rows_length a) in Hi.
  destruct (lookup_lt_is_Some_2 _ _ Hi) as [r Hr].
  rewrite Hr. f_equal. symmetry. now apply nth_lookup_Some.
Qed.

(** X25: on a table in C order, where numpy adds up the entries of a row
    pairwise in blocks, a NaN reading of a patient makes the patient's
    [patient_std_dev] NaN, and a patient whose readings are all the same
    whole number, not negative, has the deviation +0. *)
Theorem patient_std_dev_in_order (T : ndarray) (i : nat) :
  (i < nrows T)%nat ->
  (S754_nan ∈ row i T ->
   buf (patient_std_dev add_reduce_lane T) !! i = Some S754_nan) /\
  (forall k, row i T <> [] -> Forall (fun x => x = float_of_int k) (row i T) ->
     0 <= k -> Z.of_nat (length (row i T)) < 2 ^ 53 ->
     k * Z.of_nat (length (row i T)) < 2 ^ 53 ->
     buf (patient_std_dev add_reduce_lane T) !! i = Some zero).
Proof.
  intros Hi. unfold patient_std_dev, apply_axis1. cbn [buf].
  rewrite list_lookup_fmap, (lookup_row T i Hi). cbn [fmap option_fmap option_map].
  split.
  - intros Hnan. now rewrite (np_std_lane_nan _ add_reduce_lane_nan).
  - intros k Hne Hall Hk Hlen Hsum. f_equal.
    apply (np_std_lane_constant _ add_reduce_lane_whole _ k); try assumption;
      now rewrite two53_eq.
Qed.

(** X26: on a table with at least one patient, [daily_max] and
    [daily_min] of a day are entries of the column of that day, NaN
    included; on a table without negative entries neither is negative. *)
Theorem daily_max_min_entries (T : ndarray) (d : nat) :
  is_table T = true -> (0 < nrows T)%nat -> (d < ncols T)%nat ->
  exists mx mn hi lo,
    daily_max T = Ok mx /\ daily_min T = Ok mn /\
    buf mx !! d = Some hi /\ buf mn !! d = Some lo /\
    hi ∈ column d T /\ lo ∈ column d T /\ hi ∈ buf T /\ lo ∈ buf T /\
    (non_negative T = true -> flt hi zero = false /\ flt lo zero = false).
Proof.
  intros Ht Hp Hd.
  pose proof (column_nonempty d T Hp) as Hne.
  eexists _, _, _, _.
  split; [apply reduce_axis0_ok; [exact Hp | intros; now apply column_nonempty] |].
  split; [apply reduce_axis0_ok; [exact Hp | intros; now apply column_nonempty] |].
  cbn [buf]. split; [now apply lookup_map_seq |]. split; [now apply lookup_map_seq |].
  assert (Hbuf : Forall (fun x => x ∈ buf T) (column d T)).
  { apply column_Forall; [exact Ht | exact Hd |]. now apply Forall_forall. }
  destruct (column d T) as [| x l]; [congruence |].
  pose proof (fold_left_choice np_maximum np_maximum_cases l x) as Hmx.
  pose proof (fold_left_choice np_minimum np_minimum_cases l x) as Hmn.
  rewrite Forall_forall in Hbuf.
  do 2 (split; [assumption |]). do 2 (split; [now apply Hbuf |]).
  intros Hn. apply non_negative_inv in Hn. rewrite Forall_forall in Hn.
  split; apply Hn, Hbuf; assumption.
Qed.

(** ** The further theorems at sample inputs *)

Lemma daily_max_min_bound_column_witness :
  exists mx mn hi lo,
    daily_max three_patients = Ok mx /\ daily_min three_patients = Ok mn /\
    buf mx !! 0%nat = Some hi /\ buf mn !! 0%nat = Some lo /\
    Forall (fun x => fle lo x = true /\ fle x hi = true) (column 0 three_patients).
Proof.
  apply (daily_max_min_bound_column three_patients 0).
  - vm_compute. lia.
  - vm_compute. lia.
  - vm_compute. repeat constructor.
Defined.

Lemma daily_max_min_propagate_nan_witness :
  exists mx mn,
    daily_max nan_table = Ok mx /\ daily_min nan_table = Ok mn /\
    buf mx !! 1%nat = Some S754_nan /\ buf mn !! 1%nat = Some S754_nan.
Proof.
  apply (daily_max_min_propagate_nan nan_table 1).
  - vm_compute. lia.
  - vm_compute. apply list_elem_of_here.
Defined.

Lemma daily_mean_std_propagate_nan_witness :
  buf (daily_mean nan_table) !! 1%nat = Some S754_nan /\
  buf (daily_std nan_table) !! 1%nat = Some S754_nan.
Proof.
  apply (daily_mean_std_propagate_nan nan_table 1).
  - vm_compute. lia.
  - vm_compute. apply list_elem_of_here.
Defined.

Lemma daily_stats_no_patients_witness :
  daily_max no_patients = Raise (zero_size "maximum") /\
  daily_min no_patients = Raise (zero_size "minimum") /\
  daily_mean no_patients =
    {| shape := [ncols no_patients]; buf := repeat S754_nan (ncols no_patients) |} /\
  daily_std no_patients =
    {| shape := [ncols no_patients]; buf := repeat S754_nan (ncols no_patients) |}.
Proof. apply (daily_stats_no_patients no_patients). reflexivity. Defined.

Lemma daily_mean_exact_witness :
  buf (daily_mean constant_day) !! 1%nat = Some (float_of_int 2).
Proof.
  apply (daily_mean_exact constant_day 1 [1; 2; 3] 2).
  - vm_compute. lia.
  - vm_compute. lia.
  - split; [reflexivity |]. split; [repeat constructor; lia |].
    split; reflexivity.
  - reflexivity.
Defined.

Lemma daily_std_constant_day_witness :
  buf (daily_std constant_day) !! 0%nat = Some zero.
Proof.
  apply (daily_std_constant_day constant_day 0 4).
  - vm_compute. lia.
  - vm_compute. lia.
  - vm_compute. repeat constructor.
  - lia.
  - reflexivity.
  - reflexivity.
Defined.

Lemma patient_normalise_closed_witness :
  exists l' out,
    patient_normalise (PyNdarray 1%positive) (store_of two_patients) =
      (Ok l', <[l' := out]> (store_of two_patients)) /\
    nrows out = nrows two_patients /\ ncols out = ncols two_patients /\
    is_table out = true /\ non_negative out = true /\ no_infinity out = true.
Proof.
  apply (patient_normalise_closed (store_of two_patients) 1%positive two_patients);
    try reflexivity.
  vm_compute. lia.
Defined.

Lemma patient_normalise_idempotent_witness :
  exists l1 h1 l2 h2 out,
    patient_normalise (PyNdarray 1%positive) (store_of two_patients) = (Ok l1, h1) /\
    patient_normalise (PyNdarray l1) h1 = (Ok l2, h2) /\
    l2 <> l1 /\ h1 !! l1 = Some out /\ h2 !! l1 = Some out /\ h2 !! l2 = Some out.
Proof.
  apply (patient_normalise_idempotent (store_of two_patients) 1%positive two_patients);
    try reflexivity.
  vm_compute. lia.
Defined.

Lemma patient_normalise_row_max_one_witness :
  exists l' out,
    patient_normalise (PyNdarray 1%positive) (store_of two_patients) =
      (Ok l', <[l' := out]> (store_of two_patients)) /\
    one ∈ row 0 out /\
    forall j, row 0 two_patients !! j =
                Some (row_max_ignoring_nan (row 0 two_patients)) ->
              row 0 out !! j = Some one.
Proof.
  apply (patient_normalise_row_max_one (store_of two_patients) 1%positive
           two_patients 0 (float_of_int 1)); try reflexivity.
  - vm_compute. lia.
  - vm_compute. repeat constructor.
  - vm_compute. apply list_elem_of_here.
Defined.

Lemma patient_normalise_infinite_row_witness :
  exists l' out,
    patient_normalise (PyNdarray 1%positive) (store_of infinite_row) =
      (Ok l', <[l' := out]> (store_of infinite_row)) /\
    length (row 0 out) = ncols infinite_row /\
    Forall (fun y => is_zero y = true) (row 0 out).
Proof.
  apply (patient_normalise_infinite_row (store_of infinite_row) 1%positive
           infinite_row 0); try reflexivity.
  - vm_compute. lia.
  - vm_compute. apply list_elem_of_here.
Defined.

Lemma patient_normalise_store_witness :
  (patient_normalise (PyNdarray 1%positive) (store_of negative_table)).2 =
  store_of negative_table.
Proof.
  apply (proj1 (patient_normalise_store (store_of negative_table)
                  (PyNdarray 1%positive))
           (ValueError "Inflammation values should not be negative")).
  reflexivity.
Defined.

Lemma daily_above_threshold_antitone_witness :
  match daily_above_threshold 0 five_days (float_of_int 2),
        daily_above_threshold 0 five_days (float_of_int 3) with
  | Ok n1, Ok n2 => n2 <= n1
  | Raise e1, Raise e2 => e1 = e2
  | _, _ => False
  end.
Proof.
  apply (daily_above_threshold_antitone five_days 0 (float_of_int 2) (float_of_int 3)).
  reflexivity.
Defined.

Lemma daily_above_threshold_nan_witness :
  daily_above_threshold 0 five_days S754_nan = Ok 0.
Proof.
  apply (daily_above_threshold_nan five_days 0 (float_of_int 3)).
  vm_compute. split; [discriminate | reflexivity].
Defined.

Lemma last_observation_cases_witness :
  last_observation alice = Raise (IndexError "list index out of range").
Proof.
  apply (proj1 (proj1 (last_observation_cases alice (PyInt 1) 0 "Alice"))).
  reflexivity.
Defined.

Lemma PatientObj_add_observation_agrees_witness :
  exists h',
    PatientObj_add_observation alice_obj (PyInt 5) None one_list =
      (Ok (add_observation alice (PyInt 5) None).2, h') /\
    PatientObj_read alice_obj h' = Some (add_observation alice (PyInt 5) None).1.
Proof.
  destruct (PatientObj_add_observation_agrees alice_obj alice (PyInt 5) None one_list)
    as (h' & H1 & H2 & _).
  - reflexivity.
  - exists h'. split; assumption.
Defined.

Lemma Patient_new_shares_list_witness :
  exists p1 h1 p2 h2 ob h3,
    Patient_new "Alice" (Some 1%positive) one_list = (p1, h1) /\
    Patient_new "Bob" (Some 1%positive) h1 = (p2, h2) /\
    PatientObj_add_observation p1 (PyInt 5) None h2 = (Ok ob, h3) /\
    value ob = PyInt 5 /\
    PatientObj_read p1 h3 =
      Some {| Patient_person := {| name := "Alice" |};
              observations := ([] ++ [ob])%list |} /\
    PatientObj_read p2 h3 =
      Some {| Patient_person := {| name := "Bob" |};
              observations := ([] ++ [ob])%list |}.
Proof.
  apply (Patient_new_shares_list "Alice" "Bob" 1%positive [] (PyInt 5) None one_list).
  reflexivity.
Defined.

Lemma patient_normalise_nan_as_zero_witness :
  exists l' out,
    patient_normalise (PyNdarray 1%positive)
      (<[2%positive := nan_table_zeroed]> (store_of nan_table)) =
      (Ok l', <[l' := out]> (<[2%positive := nan_table_zeroed]> (store_of nan_table))) /\
    patient_normalise (PyNdarray 2%positive)
      (<[2%positive := nan_table_zeroed]> (store_of nan_table)) =
      (Ok l', <[l' := out]> (<[2%positive := nan_table_zeroed]> (store_of nan_table))).
Proof.
  apply (patient_normalise_nan_as_zero
           (<[2%positive := nan_table_zeroed]> (store_of nan_table))
           1%positive 2%positive nan_table); try reflexivity.
  vm_compute. lia.
Defined.

Lemma patient_normalise_then_threshold_witness :
  exists l' out,
    patient_normalise (PyNdarray 1%positive) (store_of two_patients) =
      (Ok l', <[l' := out]> (store_of two_patients)) /\
    daily_above_threshold (-1) out one = Ok 0 /\
    forall t, flt t zero = true ->
      daily_above_threshold (-1) out t = Ok (Z.of_nat (ncols two_patients)).
Proof.
  apply (patient_normalise_then_threshold (store_of two_patients) 1%positive
           two_patients (-1)); try reflexivity.
  - vm_compute. lia.
  - vm_compute. split; [discriminate | reflexivity].
Defined.

Lemma daily_max_min_normalised_witness :
  exists l' out mx mn,
    patient_normalise (PyNdarray 1%positive) (store_of two_patients) =
      (Ok l', <[l' := out]> (store_of two_patients)) /\
    daily_max out = Ok mx /\ daily_min out = Ok mn /\
    length (buf mx) = ncols two_patients /\ length (buf mn) = ncols two_patients /\
    Forall (fun y => in_unit_interval y = true) (buf mx) /\
    Forall (fun y => in_unit_interval y = true) (buf mn).
Proof.
  apply (daily_max_min_normalised (store_of two_patients) 1%positive two_patients);
    try reflexivity.
  - vm_compute. lia.
  - vm_compute. lia.
Defined.

Lemma patient_std_dev_in_order_witness :
  buf (patient_std_dev add_reduce_lane nan_table) !! 0%nat = Some S754_nan.
Proof.
  apply (proj1 (patient_std_dev_in_order nan_table 0 ltac:(vm_compute; lia))).
  vm_compute. apply list_elem_of_further, list_elem_of_here.
Defined.

Lemma daily_max_min_entries_witness :
  exists mx mn hi lo,
    daily_max nan_table = Ok mx /\ daily_min nan_table = Ok mn /\
    buf mx !! 1%nat = Some hi /\ buf mn !! 1%nat = Some lo /\
    hi ∈ column 1 nan_table /\ lo ∈ column 1 nan_table /\
    hi ∈ buf nan_table /\ lo ∈ buf nan_table /\
    (non_negative nan_table = true -> flt hi zero = false /\ flt lo zero = false).
Proof.
  apply (daily_max_min_entries nan_table 1).
  - reflexivity.
  - vm_compute. lia.
  - vm_compute. lia.
Defined.
